(** * Color palette generator: the streaming relay and the palette parser

    A shallow embedding of the TypeScript sources

      - [src/components/chatbot.tsx]  (the chat client), and
      - [src/app/api/chat/route.ts]   (the [POST] endpoint),

    together with the properties of the specification that can be stated
    about them.

    JavaScript strings are sequences of UTF-16 code units; they are
    modelled as lists of numbers ([N]).  The functions of the JavaScript
    standard library that the sources call ([trim], [indexOf], [slice],
    [replace], [substr], [parseInt], [JSON.stringify], the regular
    expression engine) are written out on that representation. *)

From Stdlib Require Import Ascii String DecimalString DecimalPos DecimalFacts.
From Stdlib Require Import NArith ZArith QArith Bool Lia List.
Import ListNotations.
Close Scope Q_scope.

(* ================================================================== *)
(** ** JavaScript strings *)
(* ================================================================== *)

Module JS.

(** A string is a list of UTF-16 code units. *)
Definition jsstring := list N.

(** An ASCII literal of the source, as code units. *)
Definition lit (s : string) : jsstring :=
  map N_of_ascii (list_ascii_of_string s).

Definition in_range (lo hi c : N) : bool := (lo <=? c)%N && (c <=? hi)%N.

(** [\d] *)
Definition is_digit (c : N) : bool := in_range 48 57 c.

(** [[0-9A-Fa-f]] *)
Definition is_hex_digit (c : N) : bool :=
  in_range 48 57 c || in_range 65 70 c || in_range 97 102 c.

(** [\s], and the characters removed by [trim]: ECMAScript's WhiteSpace and
    LineTerminator code points. *)
Definition is_space (c : N) : bool :=
  in_range 9 13 c || (c =? 32)%N || (c =? 160)%N || (c =? 5760)%N ||
  in_range 8192 8202 c || (c =? 8232)%N || (c =? 8233)%N ||
  (c =? 8239)%N || (c =? 8287)%N || (c =? 12288)%N || (c =? 65279)%N.

Fixpoint str_eqb (a b : jsstring) : bool :=
  match a, b with
  | [], [] => true
  | x :: a', y :: b' => (x =? y)%N && str_eqb a' b'
  | _, _ => false
  end.

(** [s.startsWith(p)] *)
Fixpoint startsWith (s p : jsstring) {struct p} : bool :=
  match p with
  | [] => true
  | x :: p' =>
      match s with
      | y :: s' => (x =? y)%N && startsWith s' p'
      | [] => false
      end
  end.

(** The first position of [s] at which [p] occurs. *)
Fixpoint search (p s : jsstring) : option nat :=
  if startsWith s p then Some 0%nat
  else match s with
       | [] => None
       | _ :: s' => option_map S (search p s')
       end.

(** [s.indexOf(p)]: the first position, or [-1]. *)
Definition indexOf (s p : jsstring) : Z :=
  match search p s with
  | Some i => Z.of_nat i
  | None => (-1)%Z
  end.

(** [s.includes(p)] *)
Definition includes (s p : jsstring) : bool :=
  match search p s with Some _ => true | None => false end.

(** An index argument of [slice], resolved against the length: negative
    indices count from the end, and the result is clamped to [0, len]. *)
Definition clamp_index (len : nat) (i : Z) : nat :=
  if (i <? 0)%Z then Z.to_nat (Z.max (Z.of_nat len + i) 0)
  else Nat.min (Z.to_nat i) len.

(** [s.slice(from, to)] *)
Definition slice (s : jsstring) (from to : Z) : jsstring :=
  let a := clamp_index (length s) from in
  let b := clamp_index (length s) to in
  firstn (b - a) (skipn a s).

(** [s.slice(from)] *)
Definition slice_from (s : jsstring) (from : Z) : jsstring :=
  skipn (clamp_index (length s) from) s.

(** [s.substr(start, len)] for a non-negative [start]. *)
Definition substr (s : jsstring) (start len : nat) : jsstring :=
  firstn len (skipn start s).

Fixpoint dropWhile (p : N -> bool) (s : jsstring) : jsstring :=
  match s with
  | [] => []
  | c :: s' => if p c then dropWhile p s' else s
  end.

Definition trimStart (s : jsstring) : jsstring := dropWhile is_space s.
Definition trimEnd (s : jsstring) : jsstring :=
  rev (dropWhile is_space (rev s)).

(** [s.trim()] *)
Definition trim (s : jsstring) : jsstring := trimEnd (trimStart s).

(** [s.replace(p, r)] for a string pattern [p] and a replacement [r] without
    [$] patterns: the first occurrence only. *)
Definition replace (s p r : jsstring) : jsstring :=
  match search p s with
  | Some i => firstn i s ++ r ++ skipn (i + length p) s
  | None => s
  end.

(** [parts.join(sep)] *)
Fixpoint join (sep : jsstring) (parts : list jsstring) : jsstring :=
  match parts with
  | [] => []
  | [x] => x
  | x :: rest => x ++ sep ++ join sep rest
  end.

(** The value of a digit in radix 16, if it is one. *)
Definition hex_value (c : N) : option Z :=
  if in_range 48 57 c then Some (Z.of_N c - 48)%Z
  else if in_range 65 70 c then Some (Z.of_N c - 55)%Z
  else if in_range 97 102 c then Some (Z.of_N c - 87)%Z
  else None.

(** The longest prefix of radix-16 digits, folded into a number; [None] when
    there is no digit at all. *)
Fixpoint hex_digits (s : jsstring) (acc : option Z) : option Z :=
  match s with
  | [] => acc
  | c :: s' =>
      match hex_value c with
      | Some d =>
          hex_digits s' (Some (16 * match acc with Some a => a | None => 0 end + d)%Z)
      | None => acc
      end
  end.

(** [parseInt(s, 16)]; [None] is [NaN].  Leading white space is skipped, a
    sign and a [0x] prefix are accepted, and the digits stop at the first
    character that is not one.  The result is the exact integer value, as in
    JavaScript for up to thirteen digits. *)
Definition parseInt16 (s : jsstring) : option Z :=
  let s1 := trimStart s in
  let '(sign, s2) :=
    match s1 with
    | 45%N :: t => ((-1)%Z, t)
    | 43%N :: t => (1%Z, t)
    | _ => (1%Z, s1)
    end in
  let s3 :=
    match s2 with
    | 48%N :: 120%N :: t => t
    | 48%N :: 88%N :: t => t
    | _ => s2
    end in
  option_map (Z.mul sign) (hex_digits s3 None).

End JS.

Import JS.

(* ================================================================== *)
(** ** [chatbot.tsx]: the two utilities *)
(* ================================================================== *)

(** [getContrastYIQ]: the YIQ luma as a rational; [None] is [NaN], which
    every comparison answers with [false]. *)
Definition yiq_of (hex : jsstring) : option Q :=
  let c := replace hex (lit "#") [] in
  let c :=
    match c with
    | [c0; c1; c2] => [c0; c0; c1; c1; c2; c2]
    | _ => c
    end in
  match parseInt16 (substr c 0 2), parseInt16 (substr c 2 2),
        parseInt16 (substr c 4 2) with
  | Some r, Some g, Some b =>
      Some (inject_Z (r * 299 + g * 587 + b * 114) / inject_Z 1000)%Q
  | _, _, _ => None
  end.

Definition getContrastYIQ (hex : jsstring) : jsstring :=
  match yiq_of hex with
  | Some yiq => if Qle_bool (inject_Z 128) yiq then lit "#222" else lit "#fff"
  | None => lit "#fff"
  end.

(** [stripMainColorsSection] *)
Definition stripMainColorsSection (text : jsstring) : jsstring :=
  let mainColorsIndex := indexOf text (lit "Main Colors:") in
  if negb (mainColorsIndex =? -1)%Z
  then trim (slice text 0 mainColorsIndex)
  else trim text.

(* ================================================================== *)
(** ** The regular expression engine *)
(* ================================================================== *)

Module Regex.

(** The fragment of JavaScript's regular expressions that [colorRegex] is
    written in: literal characters, sequencing, a greedy quantifier over a
    character class ([\d+], [\s*], [[^,]+], [[0-9A-Fa-f]{6}]) and numbered
    capture groups. *)
Inductive regex : Type :=
| Eps
| Chr (c : N)
| Cat (r1 r2 : regex)
| Rep (p : N -> bool) (min : nat) (max : option nat)
| Grp (i : nat) (r : regex).

(** The captures of a match, latest first. *)
Definition captures := list (nat * jsstring).

Fixpoint capture (i : nat) (cs : captures) : option jsstring :=
  match cs with
  | [] => None
  | (j, v) :: cs' => if Nat.eqb i j then Some v else capture i cs'
  end.

Definition below (max : option nat) (n : nat) : bool :=
  match max with
  | Some m => Nat.ltb n m
  | None => true
  end.

Section Matcher.

Variable R : Type.

(** A greedy quantifier: take one more character when the class allows it
    and the rest of the pattern then matches; otherwise stop here, provided
    the minimum has been reached.  [n] counts the characters taken. *)
Fixpoint greedy (p : N -> bool) (min : nat) (max : option nat) (n : nat)
    (s : jsstring) (k : jsstring -> option R) {struct s} : option R :=
  let stop := if Nat.leb min n then k s else None in
  match s with
  | c :: s' =>
      if p c && below max n then
        match greedy p min max (S n) s' k with
        | Some r => Some r
        | None => stop
        end
      else stop
  | [] => stop
  end.

(** The backtracking matcher, in continuation-passing style: [k] is the rest
    of the pattern, applied to the rest of the input and the captures so
    far.  The first successful alternative wins, as in JavaScript. *)
Fixpoint rmatch (r : regex) (s : jsstring) (cs : captures)
    (k : jsstring -> captures -> option R) : option R :=
  match r with
  | Eps => k s cs
  | Chr c =>
      match s with
      | x :: s' => if (x =? c)%N then k s' cs else None
      | [] => None
      end
  | Cat r1 r2 => rmatch r1 s cs (fun s1 cs1 => rmatch r2 s1 cs1 k)
  | Rep p min max => greedy p min max 0 s (fun s' => k s' cs)
  | Grp i r0 =>
      rmatch r0 s cs
        (fun s' cs' => k s' ((i, firstn (length s - length s') s) :: cs'))
  end.

End Matcher.

Arguments greedy {R} p min max n s k.
Arguments rmatch {R} r s cs k.

(** A sequence of patterns, and a literal string. *)
Definition seq (rs : list regex) : regex := fold_right Cat Eps rs.
Definition Lit (s : string) : regex := seq (map Chr (lit s)).

(** A match anchored at the start of [s]: the captures and the input that
    follows the match. *)
Definition match_at (r : regex) (s : jsstring) : option (captures * jsstring) :=
  rmatch r s [] (fun s' cs => Some (cs, s')).

(** [r.exec(text)] for a global regular expression, where [s] is the text
    from [lastIndex] on: the leftmost position at which [r] matches.  The
    input that follows the match is the text from the new [lastIndex] on. *)
Fixpoint exec (r : regex) (s : jsstring) : option (captures * jsstring) :=
  match match_at r s with
  | Some m => Some m
  | None =>
      match s with
      | [] => None
      | _ :: s' => exec r s'
      end
  end.

End Regex.

Import Regex.

(* ================================================================== *)
(** ** [chatbot.tsx]: the palette parser *)
(* ================================================================== *)

Record ColorInfo : Type := mkColor {
  hex : jsstring;
  rgb : jsstring;
  name : jsstring
}.

Definition not_comma (c : N) : bool := negb (c =? 44)%N.

(** [/(\d+)\.\s*Name:\s*([^,]+),\s*Hex:\s*(#[0-9A-Fa-f]{6}),\s*RGB:\s*\((\d+),\s*(\d+),\s*(\d+)\)/g] *)
Definition colorRegex : regex :=
  seq [ Grp 1 (Rep is_digit 1 None); Chr 46; Rep is_space 0 None;
        Lit "Name:"; Rep is_space 0 None;
        Grp 2 (Rep not_comma 1 None); Chr 44; Rep is_space 0 None;
        Lit "Hex:"; Rep is_space 0 None;
        Grp 3 (Cat (Chr 35) (Rep is_hex_digit 6 (Some 6))); Chr 44;
        Rep is_space 0 None;
        Lit "RGB:"; Rep is_space 0 None; Chr 40;
        Grp 4 (Rep is_digit 1 None); Chr 44; Rep is_space 0 None;
        Grp 5 (Rep is_digit 1 None); Chr 44; Rep is_space 0 None;
        Grp 6 (Rep is_digit 1 None); Chr 41 ].

(** [match[i]]; a group that did not take part reads as the empty string
    here (every group of [colorRegex] takes part in every match). *)
Definition group (i : nat) (cs : captures) : jsstring :=
  match capture i cs with
  | Some v => v
  | None => []
  end.

(** The object pushed for one match. *)
Definition color_of_match (m : captures) : ColorInfo :=
  {| name := trim (group 2 m);
     hex := group 3 m;
     rgb := lit "(" ++ group 4 m ++ lit ", " ++ group 5 m ++ lit ", "
            ++ group 6 m ++ lit ")" |}.

(** The [while ((match = colorRegex.exec(text)) !== null)] loop.  Every
    match takes at least one character, so the loop body runs at most
    [length s] times; [fuel] bounds the number of iterations. *)
Fixpoint parse_loop (fuel : nat) (s : jsstring) : list ColorInfo :=
  match fuel with
  | O => []
  | S fuel' =>
      match exec colorRegex s with
      | Some (m, rest) => color_of_match m :: parse_loop fuel' rest
      | None => []
      end
  end.

(** [parseColorInfo(text).colors] *)
Definition parseColorInfo (text : jsstring) : list ColorInfo :=
  parse_loop (S (length text)) text.

(* ================================================================== *)
(** ** JSON values and [JSON.stringify] *)
(* ================================================================== *)

Module Json.

(** A JSON value.  A number is given by its string conversion
    ([Number::toString], which tells any two numbers apart except the two
    zeros); the fields of an object are its own properties, in order. *)
#[warnings="-register-all"]
Inductive value : Type :=
| Null
| Bool (b : bool)
| Num (repr : jsstring)
| Str (s : jsstring)
| Arr (items : list value)
| Obj (fields : list (jsstring * value)).

Definition hex_char (d : N) : N :=
  if (d <? 10)%N then (48 + d)%N else (87 + d)%N.

(** [\uXXXX], with lowercase hexadecimal digits. *)
Definition unicode_escape (c : N) : jsstring :=
  [92; 117; hex_char ((c / 4096) mod 16); hex_char ((c / 256) mod 16);
   hex_char ((c / 16) mod 16); hex_char (c mod 16)]%N.

Definition is_high_surrogate (c : N) : bool := in_range 55296 56319 c.
Definition is_low_surrogate (c : N) : bool := in_range 56320 57343 c.

(** The escape of one code unit that is not part of a surrogate pair. *)
Definition quote_unit (c : N) : jsstring :=
  if (c =? 8)%N then lit "\b"
  else if (c =? 9)%N then lit "\t"
  else if (c =? 10)%N then lit "\n"
  else if (c =? 12)%N then lit "\f"
  else if (c =? 13)%N then lit "\r"
  else if (c =? 34)%N then [92; 34]%N
  else if (c =? 92)%N then lit "\\"
  else if (c <? 32)%N then unicode_escape c
  else if is_high_surrogate c || is_low_surrogate c then unicode_escape c
  else [c].

(** The characters of [QuoteJSONString], between the quotes: a surrogate
    pair is kept, a lone surrogate is escaped. *)
Fixpoint quote_chars (s : jsstring) : jsstring :=
  match s with
  | [] => []
  | c :: s' =>
      if is_high_surrogate c then
        match s' with
        | d :: s'' =>
            if is_low_surrogate d then c :: d :: quote_chars s''
            else quote_unit c ++ quote_chars s'
        | [] => quote_unit c
        end
      else quote_unit c ++ quote_chars s'
  end.

Definition quote (s : jsstring) : jsstring := [34%N] ++ quote_chars s ++ [34%N].

(** [JSON.stringify(v)] without indentation. *)
Fixpoint stringify (v : value) : jsstring :=
  match v with
  | Null => lit "null"
  | Bool true => lit "true"
  | Bool false => lit "false"
  | Num repr => repr
  | Str s => quote s
  | Arr items => lit "[" ++ join (lit ",") (map stringify items) ++ lit "]"
  | Obj fields =>
      lit "{" ++
      join (lit ",")
        (map (fun kv => quote (fst kv) ++ lit ":" ++ stringify (snd kv)) fields)
      ++ lit "}"
  end.

(** A JavaScript value as the sources handle them: [undefined], a [File], or
    a value that JSON can express ([null], strings, parsed data). *)
Inductive jsval (File : Type) : Type :=
| Undefined
| AFile (f : File)
| Val (v : value).

Arguments Undefined {File}.
Arguments AFile {File} f.
Arguments Val {File} v.

(** [ToBoolean] *)
Definition truthy_value (v : value) : bool :=
  match v with
  | Null => false
  | Bool b => b
  | Num repr => negb (str_eqb repr (lit "0")) && negb (str_eqb repr (lit "NaN"))
  | Str s => match s with [] => false | _ => true end
  | Arr _ | Obj _ => true
  end.

Definition truthy {File : Type} (x : jsval File) : bool :=
  match x with
  | Undefined => false
  | AFile _ => true
  | Val v => truthy_value v
  end.

Fixpoint lookup (key : jsstring) (fields : list (jsstring * value)) : option value :=
  match fields with
  | [] => None
  | (k, v) :: rest => if str_eqb k key then Some v else lookup key rest
  end.

(** The string that a template literal or [+=] on a string makes of a
    parsed value ([ToPrimitive], then [ToString]); [None] when the
    conversion throws a [TypeError].  No property of a parsed value can be
    called, so an own [valueOf] is passed over, and an object with an own
    [toString] has no method left that gives a primitive value: it throws.
    Any other object reaches [Object.prototype.toString]; an array is
    joined by [Array.prototype.join], which converts each element but
    [null] in the same way and throws when one of them does. *)
Fixpoint toString_value (v : value) : option jsstring :=
  match v with
  | Null => Some (lit "null")
  | Bool true => Some (lit "true")
  | Bool false => Some (lit "false")
  | Num repr => Some repr
  | Str s => Some s
  | Arr items =>
      option_map (join (lit ","))
        ((fix elements (l : list value) : option (list jsstring) :=
            match l with
            | [] => Some []
            | x :: l' =>
                match match x with Null => Some [] | _ => toString_value x end with
                | None => None
                | Some s =>
                    match elements l' with
                    | Some r => Some (s :: r)
                    | None => None
                    end
                end
            end) items)
  | Obj fields =>
      match lookup (lit "toString") fields with
      | Some _ => None
      | None => Some (lit "[object Object]")
      end
  end.

Definition toString {File : Type} (x : jsval File) : option jsstring :=
  match x with
  | Undefined => Some (lit "undefined")
  | AFile _ => Some (lit "[object File]")
  | Val v => toString_value v
  end.

(** [data.key] on parsed JSON: [None] when the access throws a [TypeError]
    (on [null]); a missing property, and any property of this name on a
    string, number, boolean or array, reads as [undefined]. *)
Definition get_prop {File : Type} (data : value) (key : jsstring) : option (jsval File) :=
  match data with
  | Null => None
  | Obj fields =>
      match lookup key fields with
      | Some v => Some (Val v)
      | None => Some Undefined
      end
  | _ => Some Undefined
  end.

End Json.

Import Json.

(* ================================================================== *)
(** ** The platform *)
(* ================================================================== *)

(** An uploaded file: its name, its MIME type and its bytes. *)
Record File : Type := mkFile {
  file_name : jsstring;
  file_type : jsstring;
  file_bytes : list N
}.

(** An entry of a [FormData]: a string or a file. *)
Inductive entry : Type :=
| EString (s : jsstring)
| EFile (f : File).

Definition FormData := list (jsstring * entry).

(** [formData.get(key)]: the first entry of that name, or [null]. *)
Fixpoint form_get (fd : FormData) (key : jsstring) : jsval File :=
  match fd with
  | [] => Val Null
  | (k, e) :: rest =>
      if str_eqb k key then
        match e with
        | EString s => Val (Str s)
        | EFile f => AFile f
        end
      else form_get rest key
  end.

(** A thrown value: an [Error] with its message and stack, or anything
    else. *)
Inductive thrown : Type :=
| AnError (message : jsstring) (stack : option jsstring)
| NotAnError.

(** The outcome of a call that can throw. *)
Inductive result (A : Type) : Type :=
| Ok (a : A)
| Throw (e : thrown).

Arguments Ok {A} a.
Arguments Throw {A} e.

(** One item of the model's response stream: [chunk.text()] returns a text
    or throws. *)
Definition chunk := result jsstring.

(** The model's response stream: its chunks, and whether the iteration ends
    normally or with an error. *)
Record model_stream : Type := mkStream {
  chunks : list chunk;
  ending : result unit
}.

(** What [generateContentStream] is called with. *)
Inductive model_input : Type :=
| PromptOnly (prompt : jsstring)
| PromptAndImage (prompt : jsstring) (mimeType : jsstring) (data : jsstring).

(** The writable side of the [TransformStream]. *)
Inductive writer_status : Type := Open | Closed | Aborted (e : thrown).

Record writer : Type := mkWriter {
  written : list (list N);
  status : writer_status
}.

(* ================================================================== *)
(** ** [route.ts]: the [POST] endpoint *)
(* ================================================================== *)

(** The request, as the handler observes it. *)
Record request : Type := mkRequest {
  content_type : option jsstring;         (* [req.headers.get('content-type')] *)
  req_formData : result FormData;         (* [await req.formData()] *)
  req_json : result value                 (* [await req.json()] *)
}.

(** The response: a JSON body with a status, or the event stream. *)
Inductive response : Type :=
| JsonResponse (status_code : nat) (body : jsstring)
| EventStream.

(** What the handler does: the response it returns and, when it starts the
    relay, the input it calls the model with ([Throw] when preparing the
    image fails, before the call). *)
Record outcome : Type := mkOutcome {
  returned : response;
  relay_task : option (result model_input)
}.

Definition full_prompt : jsstring :=
  [10%N] ++
  lit "First, provide a detailed description of what you see in this image. Focus on:" ++ [10%N] ++
  lit "- The main subject or content" ++ [10%N] ++
  lit "- Any notable elements or patterns" ++ [10%N] ++
  lit "- The overall composition" ++ [10%N] ++
  lit "- Any text or symbols if present" ++ [10%N] ++
  [10%N] ++
  lit "Then, analyze and identify the 3 most dominant colors in the image." ++ [10%N] ++
  [10%N] ++
  lit "For each color, provide:" ++ [10%N] ++
  lit "- A descriptive name" ++ [10%N] ++
  lit "- Hex code" ++ [10%N] ++
  lit "- RGB value" ++ [10%N] ++
  [10%N] ++
  lit "Format your complete response exactly as follows:" ++ [10%N] ++
  [10%N] ++
  lit "[Your detailed description of the image]" ++ [10%N] ++
  [10%N] ++
  lit "Main Colors:" ++ [10%N] ++
  lit "1. Name: [descriptive name], Hex: [hex code], RGB: [rgb value]" ++ [10%N] ++
  lit "2. Name: [descriptive name], Hex: [hex code], RGB: [rgb value]" ++ [10%N] ++
  lit "3. Name: [descriptive name], Hex: [hex code], RGB: [rgb value]".

(** [index + 1] in a template literal. *)
Definition ordinal (index : nat) : jsstring :=
  lit (NilEmpty.string_of_uint (Pos.to_uint (Pos.of_succ_nat index))).

(** One line of the palette context:
    [`${index + 1}. Name: ${color.name}, Hex: ${color.hex}, RGB: ${color.rgb}`] *)
Definition palette_line (index : nat) (cname chex crgb : jsstring) : jsstring :=
  ordinal index ++ lit ". Name: " ++ cname ++ lit ", Hex: " ++ chex
  ++ lit ", RGB: " ++ crgb.

Fixpoint mapi {A B : Type} (f : nat -> A -> B) (index : nat) (l : list A) : list B :=
  match l with
  | [] => []
  | x :: l' => f index x :: mapi f (S index) l'
  end.

Fixpoint sequence {A : Type} (l : list (result A)) : result (list A) :=
  match l with
  | [] => Ok []
  | Throw e :: _ => Throw e
  | Ok a :: l' =>
      match sequence l' with
      | Ok r => Ok (a :: r)
      | Throw e => Throw e
      end
  end.

Section Endpoint.

(** The platform functions the handler calls. *)
Variable JSON_parse : jsstring -> result value.    (* [JSON.parse] *)
Variable encode : jsstring -> list N.              (* [TextEncoder.encode] *)
Variable base64 : list N -> jsstring.              (* [Buffer.toString('base64')] *)
Variable type_error : thrown.                      (* the engine's [TypeError] *)

(** The line of one color of the parsed palette; reading a property of
    [null] throws, and so does a property that cannot be made a string. *)
Definition context_line (index : nat) (color : value) : result jsstring :=
  match @get_prop File color (lit "name"), @get_prop File color (lit "hex"),
        @get_prop File color (lit "rgb") with
  | Some n, Some h, Some r =>
      match toString n, toString h, toString r with
      | Some cname, Some chex, Some crgb => Ok (palette_line index cname chex crgb)
      | _, _, _ => Throw type_error
      end
  | _, _, _ => Throw type_error
  end.

(** [paletteContext] *)
Definition paletteContext (currentPalette : jsval File) : result jsstring :=
  if truthy currentPalette then
    match toString currentPalette with
    | None => Throw type_error
    | Some json =>
        match JSON_parse json with
        | Throw e => Throw e
        | Ok (Arr colors) =>
            match sequence (mapi context_line 0 colors) with
            | Ok lines =>
                Ok ([10%N] ++ lit "Current color palette from previous analysis:"
                    ++ [10%N] ++ join [10%N] lines ++ [10%N])
            | Throw e => Throw e
            end
        | Ok _ => Throw type_error                (* [.map] is not a function *)
        end
    end
  else Ok [].

(** The prompt of a follow-up, from the question and the palette context
    as the template literal has made them strings. *)
Definition followup_prompt (question context : jsstring) : jsstring :=
  [10%N] ++
  lit "You are analyzing an image that was previously uploaded. The user has a follow-up question about it." ++ [10%N] ++
  [10%N] ++
  lit "User's question: " ++ question ++ [10%N] ++
  [10%N] ++
  context ++ [10%N] ++
  [10%N] ++
  lit "Please provide a detailed and helpful response to their question, focusing specifically on what they're asking about in the image. If their question is about colors, make sure to reference the existing color palette in your response." ++ [10%N] ++
  [10%N] ++
  lit "Format your response in a clear, conversational way.".

Definition is_mode (mode : jsval File) (m : string) : bool :=
  match mode with
  | Val (Str s) => str_eqb s (lit m)
  | _ => false
  end.

(** [basePrompt]; a question that cannot be made a string throws. *)
Definition basePrompt (mode question currentPalette : jsval File) : result jsstring :=
  if is_mode mode "text-only" then
    match toString question with
    | Some q =>
        Ok (lit "You are a helpful AI assistant. Please provide a clear and concise response to the following question: "
            ++ q)
    | None => Throw type_error
    end
  else if is_mode mode "full" then Ok full_prompt
  else if is_mode mode "followup" then
    match paletteContext currentPalette with
    | Ok context =>
        match toString question with
        | Some q => Ok (followup_prompt q context)
        | None => Throw type_error
        end
    | Throw e => Throw e
    end
  else Ok [].

(** The response of the outer [catch]. *)
Definition error_response (e : thrown) : response :=
  JsonResponse 500
    (stringify
       (match e with
        | AnError message (Some stack) =>
            Obj [(lit "error", Str message); (lit "details", Str stack)]
        | AnError message None => Obj [(lit "error", Str message)]
        | NotAnError => Obj [(lit "error", Str (lit "An error occurred"))]
        end)).

(** The fields read from the request body: [imageFile], [mode], [question],
    [currentPalette]. *)
Definition read_body (req : request)
  : result (jsval File * jsval File * jsval File * jsval File) :=
  let contentType :=
    match content_type req with
    | Some header => header
    | None => []
    end in
  if includes contentType (lit "multipart/form-data") then
    match req_formData req with
    | Ok formData =>
        Ok (form_get formData (lit "image"), form_get formData (lit "mode"),
            form_get formData (lit "question"),
            form_get formData (lit "currentPalette"))
    | Throw e => Throw e
    end
  else if includes contentType (lit "application/json") then
    match req_json req with
    | Ok json =>
        match get_prop json (lit "question"), get_prop json (lit "mode") with
        | Some question, Some mode =>
            Ok (Val Null, mode, question, Val (Str []))
        | _, _ => Throw type_error
        end
    | Throw e => Throw e
    end
  else Ok (Val Null, Val (Str (lit "full")), Val (Str []), Val (Str [])).

(** The argument of [generateContentStream] in the relay: the prompt alone
    in text-only mode, the prompt and the image otherwise;
    [imageFile.arrayBuffer()] throws when [imageFile] is not a file. *)
Definition model_call (imageFile mode : jsval File) (prompt : jsstring)
  : result model_input :=
  if is_mode mode "text-only" then Ok (PromptOnly prompt)
  else
    match imageFile with
    | AFile f => Ok (PromptAndImage prompt (file_type f) (base64 (file_bytes f)))
    | _ => Throw type_error
    end.

(** [POST]; [api_key] is [process.env.GOOGLE_API_KEY]. *)
Definition POST (api_key : option jsstring) (req : request) : outcome :=
  match api_key with
  | None | Some [] =>
      mkOutcome
        (JsonResponse 500
           (stringify
              (Obj [(lit "error",
                     Str (lit "Server configuration error: GOOGLE_API_KEY is not configured"))])))
        None
  | Some (_ :: _) =>
      match read_body req with
      | Throw e => mkOutcome (error_response e) None
      | Ok (imageFile, mode, question, currentPalette) =>
          if negb (truthy imageFile) && negb (is_mode mode "text-only") then
            mkOutcome
              (JsonResponse 400
                 (stringify (Obj [(lit "error", Str (lit "No image file provided"))])))
              None
          else
            match basePrompt mode question currentPalette with
            | Throw e => mkOutcome (error_response e) None
            | Ok prompt =>
                mkOutcome EventStream (Some (model_call imageFile mode prompt))
            end
      end
  end.

(** The event written for one chunk:
    [encoder.encode(`data: ${JSON.stringify({ text })}\n\n`)] *)
Definition sse_line (text : jsstring) : jsstring :=
  lit "data: " ++ stringify (Obj [(lit "text", Str text)]).

Definition sse_event (text : jsstring) : list N :=
  encode (sse_line text ++ [10; 10]%N).

(** The [for await] loop over the model's stream: every chunk is written in
    turn; a chunk whose [text()] throws ends the loop with that error. *)
Fixpoint pump (cs : list chunk) (w : list (list N)) : list (list N) * option thrown :=
  match cs with
  | [] => (w, None)
  | Ok text :: rest => pump rest (w ++ [sse_event text])
  | Throw e :: _ => (w, Some e)
  end.

(** The relay, started by [POST] and running after it has returned: call
    the model, write its chunks, then close the writer; any error aborts
    it.  [model] is the hosted model: the stream it answers an input with,
    or the error of the call. *)
Definition relay (model : model_input -> result model_stream)
    (task : result model_input) : writer :=
  match task with
  | Throw e => mkWriter [] (Aborted e)
  | Ok input =>
      match model input with
      | Throw e => mkWriter [] (Aborted e)
      | Ok stream =>
          match pump (chunks stream) [] with
          | (w, Some e) => mkWriter w (Aborted e)
          | (w, None) =>
              match ending stream with
              | Ok _ => mkWriter w Closed
              | Throw e => mkWriter w (Aborted e)
              end
          end
      end
  end.

End Endpoint.

(* ================================================================== *)
(** ** [chatbot.tsx]: submitting, and reading the event stream *)
(* ================================================================== *)

Inductive Role : Type := user | assistant.

Record ChatMessage : Type := mkMessage {
  msg_id : jsstring;
  msg_role : Role;
  msg_content : jsstring;
  msg_imagePreview : option jsstring
}.

(** The component state that one call of [handleSubmit] sees. *)
Record submission : Type := mkSubmission {
  input : jsstring;
  selectedImage : option File;
  lastUploadedImage : option (File * jsstring);
  colorPalette : list ColorInfo
}.

(** The body handed to [fetch("/api/chat", { method: "POST", ... })]. *)
Inductive fetch_body : Type :=
| FormBody (formData : FormData)
| JsonBody (body : jsstring).

(** A palette entry as [JSON.stringify] sees it: the object literal of
    [parseColorInfo], with its keys in the order they are written. *)
Definition color_value (c : ColorInfo) : value :=
  Obj [(lit "name", Str (name c)); (lit "hex", Str (hex c)); (lit "rgb", Str (rgb c))].

Definition is_empty (s : jsstring) : bool :=
  match s with [] => true | _ => false end.

(** The request of [handleSubmit], or [None] when it returns at once. *)
Definition submit_request (s : submission) : option fetch_body :=
  if is_empty (trim (input s))
     && match selectedImage s with Some _ => false | None => true end
  then None
  else
    let imageToUse :=
      match selectedImage s with
      | Some f => Some f
      | None => option_map fst (lastUploadedImage s)
      end in
    match imageToUse with
    | Some image =>
        Some (FormBody
          ([(lit "image", EFile image);
            (lit "mode",
             EString (match selectedImage s with
                      | Some _ => lit "full"
                      | None => lit "followup"
                      end))]
           ++ (if negb (is_empty (trim (input s)))
               then [(lit "question", EString (trim (input s)))] else [])
           ++ (if match selectedImage s with Some _ => false | None => true end
                  && Nat.ltb 0 (length (colorPalette s))
               then [(lit "currentPalette",
                      EString (stringify (Arr (map color_value (colorPalette s)))))]
               else [])))
    | None =>
        Some (JsonBody
          (stringify (Obj [(lit "question", Str (trim (input s)));
                           (lit "mode", Str (lit "text-only"))])))
    end.

(** The three ways [handleSubmit] reads a response: after a new image, after
    a follow-up question on the last image, and after a question without
    any image. *)
Inductive flow : Type := NewImage | FollowUp | TextOnly.

(** The variables of the reading loop and the state it sets. *)
Record reading : Type := mkReading {
  accumulatedText : jsstring;
  messages : list ChatMessage;
  palette : list ColorInfo
}.

(** [chunk.split("\n")] *)
Fixpoint split_lines (s : jsstring) : list jsstring :=
  match s with
  | [] => [[]]
  | c :: s' =>
      if (c =? 10)%N then [] :: split_lines s'
      else
        match split_lines s' with
        | l :: ls => (c :: l) :: ls
        | [] => [[c]]
        end
  end.

(** The [setMessages] updater of the loop: the message of this id gets the
    new content, and is added at the end when there is none yet. *)
Definition upsert_message (mid text : jsstring) (prev : list ChatMessage)
  : list ChatMessage :=
  match find (fun msg => str_eqb (msg_id msg) mid) prev with
  | Some _ =>
      map (fun msg =>
             if str_eqb (msg_id msg) mid
             then mkMessage (msg_id msg) (msg_role msg) text (msg_imagePreview msg)
             else msg) prev
  | None => prev ++ [mkMessage mid assistant text None]
  end.

Section Reader.

Variable JSON_parse : jsstring -> result value.    (* [JSON.parse] *)
Variable decode : list N -> jsstring.              (* [TextDecoder.decode] *)

Variable messageId : jsstring.                     (* [Date.now().toString()] *)

(** What [accumulatedText += data.text] appends for the parsed line
    [data]: [None] when the line is left without any effect, because reading
    [data.text] throws, gives a falsy value, or gives one that cannot be
    made a string. *)
Definition taken (data : value) : option jsstring :=
  match @get_prop File data (lit "text") with
  | Some text => if truthy text then toString text else None
  | None => None
  end.

(** The text that the parsed line [data] appends, if any. *)
Definition appended (data : value) : jsstring :=
  match taken data with
  | Some text => text
  | None => []
  end.

(** The body of [for (const line of lines)].  A line that does not parse,
    and an error thrown while handling it, are caught and the loop goes on
    to the next line; updaters passed to [setMessages] apply in order. *)
Definition process_line (f : flow) (st : reading) (line : jsstring) : reading :=
  match JSON_parse (slice_from line 6) with
  | Throw _ => st
  | Ok data =>
      match @get_prop File data (lit "text") with
      | None => st
      | Some text =>
          if truthy text then
            match toString text with
            | None => st
            | Some appended_text =>
                let acc := accumulatedText st ++ appended_text in
                match f with
                | NewImage | FollowUp =>
                    let colors := parseColorInfo acc in
                    mkReading acc
                      (upsert_message
                         (messageId ++
                          match f with
                          | NewImage => lit "-analysis"
                          | _ => lit "-response"
                          end)
                         (stripMainColorsSection acc) (messages st))
                      (if Nat.ltb 0 (length colors) then colors else palette st)
                | TextOnly =>
                    mkReading acc
                      (upsert_message (messageId ++ lit "-response") (trim acc)
                         (messages st))
                      (palette st)
                end
            end
          else st
      end
  end.

(** The [data: ] lines of one chunk read from the response body. *)
Definition data_lines (value : list N) : list jsstring :=
  filter (fun line => startsWith line (lit "data: "))
         (split_lines (decode value)).

(** One turn of the [while (true)] loop for a chunk that was read. *)
Definition process_chunk (f : flow) (st : reading) (value : list N) : reading :=
  fold_left (process_line f) (data_lines value) st.

(** The loop over the chunks read so far. *)
Definition read_stream (f : flow) (st : reading) (values : list (list N)) : reading :=
  fold_left (process_chunk f) values st.

(** The [data: ] lines of the chunks read so far that parse, in the order of
    arrival. *)
Definition parsed_of_line (line : jsstring) : list value :=
  match JSON_parse (slice_from line 6) with
  | Ok data => [data]
  | Throw _ => []
  end.

Definition parsed_lines (values : list (list N)) : list value :=
  flat_map (fun value => flat_map parsed_of_line (data_lines value)) values.

(** The analysis message is on display, and shows the stripped text. *)
Definition shows_analysis (st : reading) : Prop :=
  (exists msg, In msg (messages st) /\
               msg_id msg = messageId ++ lit "-analysis") /\
  (forall msg, In msg (messages st) ->
               msg_id msg = messageId ++ lit "-analysis" ->
               msg_content msg = stripMainColorsSection (accumulatedText st)).

End Reader.

(** The parsed line has a [text] that the loop takes: a truthy one that can
    be made a string. *)
Definition carries_text (data : value) : bool :=
  match taken data with
  | Some _ => true
  | None => false
  end.

(* ================================================================== *)
(** ** Notions of the specification *)
(* ================================================================== *)

(** [p] occurs in [s] as a substring. *)
Definition occurs (p s : jsstring) : Prop :=
  exists a b, s = a ++ p ++ b.

(** [p] is a prefix of [s]. *)
Definition is_prefix (p s : jsstring) : Prop :=
  exists b, s = p ++ b.

(** The value of a hexadecimal digit. *)
Definition digit_value (c : N) : Z :=
  match hex_value c with
  | Some v => v
  | None => 0
  end.

(** The byte written with the two hexadecimal digits [hi] and [lo]. *)
Definition byte_value (hi lo : N) : Z := (16 * digit_value hi + digit_value lo)%Z.

(** The text color that the specification gives for a background
    [(r, g, b)]. *)
Definition contrast_for (r g b : Z) : jsstring :=
  if Qle_bool (inject_Z 128)
       (inject_Z (299 * r + 587 * g + 114 * b) / inject_Z 1000)%Q
  then lit "#222" else lit "#fff".

(** The hexadecimal digits. *)
Definition hex_digit_chars : list N :=
  [48; 49; 50; 51; 52; 53; 54; 55; 56; 57;
   65; 66; 67; 68; 69; 70; 97; 98; 99; 100; 101; 102]%N.

(** The strings a pattern matches, with the captures before and after: the
    declarative reading of [regex]. *)
Inductive matches : regex -> jsstring -> captures -> captures -> Prop :=
| matches_Eps cs :
    matches Eps [] cs cs
| matches_Chr c cs :
    matches (Chr c) [c] cs cs
| matches_Cat r1 r2 w1 w2 cs cs1 cs2 :
    matches r1 w1 cs cs1 -> matches r2 w2 cs1 cs2 ->
    matches (Cat r1 r2) (w1 ++ w2) cs cs2
| matches_Rep p min max w cs :
    Forall (fun c => p c = true) w ->
    (min <= length w)%nat ->
    (forall m, max = Some m -> (length w <= m)%nat) ->
    matches (Rep p min max) w cs cs
| matches_Grp i r w cs cs' :
    matches r w cs cs' ->
    matches (Grp i r) w cs ((i, w) :: cs').

(** A non-empty string of decimal digits. *)
Definition is_number (s : jsstring) : Prop :=
  s <> [] /\ Forall (fun c => is_digit c = true) s.

(** [#] and six hexadecimal digits. *)
Definition is_hex_color (s : jsstring) : Prop :=
  exists h, s = 35%N :: h /\ length h = 6%nat /\
            Forall (fun c => is_hex_digit c = true) h.

(** ["(r, g, b)"] for three numbers. *)
Definition is_rgb_triple (s : jsstring) : Prop :=
  exists r g b, is_number r /\ is_number g /\ is_number b /\
    s = lit "(" ++ r ++ lit ", " ++ g ++ lit ", " ++ b ++ lit ")".

(** The longest prefix of decimal digits, and what follows it. *)
Fixpoint span_digits (s : jsstring) : jsstring * jsstring :=
  match s with
  | c :: s' =>
      if is_digit c
      then let (d, rest) := span_digits s' in (c :: d, rest)
      else ([], s)
  | [] => ([], [])
  end.

(** The number that a string of decimal digits writes. *)
Definition digits_value (d : jsstring) : N :=
  fold_left (fun acc c => (10 * acc + (c - 48))%N) d 0%N.

Definition expect (p : string) (s : jsstring) : option jsstring :=
  if startsWith s (lit p) then Some (skipn (length (lit p)) s) else None.

Definition number_then (s : jsstring) : option (N * jsstring) :=
  match span_digits s with
  | ([], _) => None
  | (d, rest) => Some (digits_value d, rest)
  end.

(** The three numeric components of an [rgb] field ["(r, g, b)"]. *)
Definition rgb_components (s : jsstring) : option (N * N * N) :=
  match expect "(" s with
  | Some s1 =>
    match number_then s1 with
    | Some (r, s2) =>
      match expect ", " s2 with
      | Some s3 =>
        match number_then s3 with
        | Some (g, s4) =>
          match expect ", " s4 with
          | Some s5 =>
            match number_then s5 with
            | Some (b, s6) =>
              match expect ")" s6 with
              | Some [] => Some (r, g, b)
              | _ => None
              end
            | None => None
            end
          | None => None
          end
        | None => None
        end
      | None => None
      end
    | None => None
    end
  | None => None
  end.

(** The invariant "RGB components in [0, 255]" for one color. *)
Definition rgb_in_byte_range (c : ColorInfo) : Prop :=
  exists r g b, rgb_components (rgb c) = Some (r, g, b) /\
                (r <= 255)%N /\ (g <= 255)%N /\ (b <= 255)%N.

(** The palette written out the way the endpoint writes it into a prompt,
    [palette.map((color, index) => `${index + 1}. Name: ...`).join('\n')],
    with the numbering starting at [first + 1]. *)
Definition render_from (first : nat) (colors : list ColorInfo) : jsstring :=
  join [10%N]
    (mapi (fun index c => palette_line index (name c) (hex c) (rgb c))
          first colors).

Definition render_palette (colors : list ColorInfo) : jsstring :=
  render_from 0 colors.

(** A color whose line has the prescribed form
    [N. Name: [name], Hex: #RRGGBB, RGB: (r, g, b)]: the name has no comma
    and is not blank. *)
Definition prescribed (c : ColorInfo) : Prop :=
  Forall (fun x => not_comma x = true) (name c) /\
  trim (name c) <> [] /\
  is_hex_color (hex c) /\
  is_rgb_triple (rgb c).

(** The color with its name trimmed. *)
Definition with_trimmed_name (c : ColorInfo) : ColorInfo :=
  mkColor (hex c) (rgb c) (trim (name c)).

(** The input stops the class [p]: it is empty or starts outside [p]. *)
Definition stops (p : N -> bool) (s : jsstring) : Prop :=
  match s with
  | [] => True
  | c :: _ => p c = false
  end.

(** The lines of a stream of text, read from its start: what stands
    between its newlines.  [line] is the line read so far. *)
Fixpoint lines_from (line text : jsstring) : list jsstring :=
  match text with
  | [] => [line]
  | c :: rest =>
      if (c =? 10)%N then line :: lines_from [] rest
      else lines_from (line ++ [c]) rest
  end.

Definition stream_lines (text : jsstring) : list jsstring := lines_from [] text.

(** What follows [data: ] on a line that starts with it. *)
Definition data_payload (line : jsstring) : option jsstring :=
  if str_eqb (firstn 6 line) (lit "data: ") then Some (skipn 6 line) else None.

(** The [text] field of a parsed event, as the string it stands for: none
    when the event is no object or has no such field, when the field is
    falsy, and when it cannot be made a string. *)
Definition text_field (data : value) : option jsstring :=
  match data with
  | Obj fields =>
      match lookup (lit "text") fields with
      | Some text => if truthy_value text then toString_value text else None
      | None => None
      end
  | _ => None
  end.

(** The text fields of the [data: ] lines of a stream that parse, in the
    order of the stream. *)
Definition stream_texts (JSON_parse : jsstring -> result value)
    (text : jsstring) : list jsstring :=
  flat_map (fun line =>
              match data_payload line with
              | Some payload =>
                  match JSON_parse payload with
                  | Ok data =>
                      match text_field data with
                      | Some t => [t]
                      | None => []
                      end
                  | Throw _ => []
                  end
              | None => []
              end)
           (stream_lines text).

(** The text ends where a line ends: it is empty, or its last character is
    a newline. *)
Definition ends_a_line (text : jsstring) : Prop :=
  text = [] \/ exists body, text = body ++ [10%N].

(* ================================================================== *)
(** ** Sample data *)
(* ================================================================== *)

Definition sample_red : ColorInfo :=
  mkColor (lit "#FF0000") (lit "(255, 0, 0)") (lit "Red").
Definition sample_sky : ColorInfo :=
  mkColor (lit "#87CEEB") (lit "(135, 206, 235)") (lit "Sky Blue").
Definition sample_moss : ColorInfo :=
  mkColor (lit "#4A5D23") (lit "(74, 93, 35)") (lit "Moss Green").

Definition sample_image : File :=
  mkFile (lit "photo.png") (lit "image/png") [137; 80; 78; 71]%N.

(** A stand-in for [JSON.parse] on the events of the endpoint: it reads
    [{"text":"..."}] with a text that needs no escape, and throws on
    anything else. *)
Definition sample_parse (s : jsstring) : result value :=
  if startsWith s (lit "{" ++ quote (lit "text") ++ lit ":" ++ [34%N]) then
    let body := skipn 9 s in
    if str_eqb (skipn (length body - 2) body) ([34%N] ++ lit "}")
    then Ok (Obj [(lit "text", Str (firstn (length body - 2) body))])
    else Throw NotAnError
  else Throw NotAnError.

(* ================================================================== *)
(** ** [chatbot.tsx]: [handleSubmit] from the click to the last message *)
(* ================================================================== *)

(** The state of the component that [handleSubmit] reads and sets. *)
Record app : Type := mkApp {
  app_messages : list ChatMessage;
  app_isLoading : bool;
  app_colorPalette : list ColorInfo;
  app_isAnalyzing : bool;
  app_input : jsstring;
  app_selectedImage : option File;
  app_imagePreview : option jsstring;
  app_lastUploadedImage : option (File * jsstring)
}.

(** How a read of the response body ends the loop: the stream is done, or
    [reader.read()] rejects.  [elapsed] is [Date.now() - lastChunkTime] when
    the read returns. *)
Inductive terminal : Type :=
| Done (elapsed : Z)
| ReadFails (e : thrown).

(** What [fetch] answers: it throws; or the response is not [ok], with its
    status; or it has no body; or its body is read chunk by chunk, each
    chunk with the time elapsed since the one before. *)
Inductive fetched : Type :=
| FetchThrows (e : thrown)
| NotOk (status : nat)
| NoBody
| Body (reads : list (Z * list N)) (last : terminal).

(** A non-negative integer in a template literal. *)
Definition to_decimal (n : nat) : jsstring :=
  lit (NilEmpty.string_of_uint (Nat.to_uint n)).

(** [(size / 1024).toFixed(1)]: the tenths nearest to [size / 1024], the
    larger one on a tie. *)
Definition kilobytes (size : nat) : jsstring :=
  let tenths := ((10 * size + 512) / 1024)%nat in
  to_decimal (tenths / 10) ++ lit "." ++ to_decimal (tenths mod 10).

(** The content of the user's message. *)
Definition user_content (input : jsstring) (selectedImage : option File) : jsstring :=
  match selectedImage with
  | Some f =>
      (if is_empty (trim input) then [] else trim input ++ [10; 10]%N)
      ++ lit "Selected image: " ++ file_name f ++ lit " ("
      ++ kilobytes (length (file_bytes f)) ++ lit " KB)"
  | None => trim input
  end.

(** [`Error: ${error instanceof Error ? error.message : "An unknown error occurred"}`] *)
Definition error_text (e : thrown) : jsstring :=
  lit "Error: " ++
  match e with
  | AnError message _ => message
  | NotAnError => lit "An unknown error occurred"
  end.

(** [new Error(message)]; its stack is never read. *)
Definition new_Error (message : jsstring) : thrown := AnError message None.

Definition CHUNK_TIMEOUT : Z := 10000.

(** [prev.map((msg) => msg.id === mid ? { ...msg, content: text } : msg)] *)
Definition set_content (mid text : jsstring) (prev : list ChatMessage)
  : list ChatMessage :=
  map (fun msg =>
         if str_eqb (msg_id msg) mid
         then mkMessage (msg_id msg) (msg_role msg) text (msg_imagePreview msg)
         else msg) prev.

(** [prev.filter((msg) => msg.id !== mid)] *)
Definition remove_message (mid : jsstring) (prev : list ChatMessage)
  : list ChatMessage :=
  filter (fun msg => negb (str_eqb (msg_id msg) mid)) prev.

Section Exchange.

Variable JSON_parse : jsstring -> result value.    (* [JSON.parse] *)
Variable decode : list N -> jsstring.              (* [TextDecoder.decode] *)

Variable messageId : jsstring.                     (* [Date.now().toString()] *)

(** The [while (true)] loop of the image branch with its timeout: a read
    that returns more than ten seconds after the one before throws, also
    when it reports the end of the stream. *)
Fixpoint read_timed (f : flow) (st : reading) (reads : list (Z * list N))
    (last : terminal) : reading * option thrown :=
  match reads with
  | (elapsed, value) :: rest =>
      if (CHUNK_TIMEOUT <? elapsed)%Z
      then (st, Some (new_Error (lit "Stream timeout: No data received for 10 seconds")))
      else read_timed f (process_chunk JSON_parse decode messageId f st value) rest last
  | [] =>
      match last with
      | Done elapsed =>
          if (CHUNK_TIMEOUT <? elapsed)%Z
          then (st, Some (new_Error (lit "Stream timeout: No data received for 10 seconds")))
          else (st, None)
      | ReadFails e => (st, Some e)
      end
  end.

(** The loop of the text-only branch: no timeout. *)
Definition read_untimed (st : reading) (reads : list (Z * list N))
    (last : terminal) : reading * option thrown :=
  (read_stream JSON_parse decode messageId TextOnly st (map snd reads),
   match last with
   | Done _ => None
   | ReadFails e => Some e
   end).

(** What a branch leaves behind: the messages, the palette, and whether its
    [finally] ran. *)
Record settled : Type := mkSettled {
  settled_messages : list ChatMessage;
  settled_palette : list ColorInfo;
  reached_finally : bool
}.

(** The branch [if (imageToUse)]: [new_image] tells whether an image was
    selected for this submission. *)
Definition image_branch (new_image : bool) (messages0 : list ChatMessage)
    (palette0 : list ColorInfo) (response : fetched) : settled :=
  let outer_catch (messages : list ChatMessage) (palette : list ColorInfo)
        (e : thrown) :=
    mkSettled (set_content (messageId ++ lit "-loading") (error_text e) messages)
              (if new_image then [] else palette)
              false in
  match response with
  | FetchThrows e => outer_catch messages0 palette0 e
  | NotOk status =>
      outer_catch messages0 palette0
        (new_Error (lit "Failed to analyze image: " ++ to_decimal status))
  | NoBody =>
      outer_catch (remove_message (messageId ++ lit "-loading") messages0) palette0
        (new_Error (lit "No response stream available"))
  | Body reads last =>
      let messages1 := remove_message (messageId ++ lit "-loading") messages0 in
      match read_timed (if new_image then NewImage else FollowUp)
              (mkReading [] messages1 palette0) reads last with
      | (st, None) =>
          mkSettled
            (if new_image
             then messages st ++
                  [mkMessage (messageId ++ lit "-colors") assistant
                     (lit "Here are the main colors from your image:") None]
             else messages st)
            (palette st) true
      | (st, Some e) =>
          mkSettled
            (messages st ++
             [mkMessage (messageId ++ lit "-error") assistant (error_text e) None])
            (if new_image then [] else palette st)
            true
      end
  end.

(** The branch for a message without any image. *)
Definition text_branch (messages0 : list ChatMessage)
    (palette0 : list ColorInfo) (response : fetched) : settled :=
  let outer_catch (messages : list ChatMessage) (e : thrown) :=
    mkSettled (set_content (messageId ++ lit "-loading") (error_text e) messages)
              palette0 true in
  match response with
  | FetchThrows e => outer_catch messages0 e
  | NotOk status =>
      outer_catch messages0
        (new_Error (lit "Failed to process message: " ++ to_decimal status))
  | NoBody =>
      outer_catch (remove_message (messageId ++ lit "-loading") messages0)
        (new_Error (lit "No response stream available"))
  | Body reads last =>
      let messages1 := remove_message (messageId ++ lit "-loading") messages0 in
      match read_untimed (mkReading [] messages1 palette0) reads last with
      | (st, None) => mkSettled (messages st) (palette st) true
      | (st, Some e) => outer_catch (messages st) e
      end
  end.

(** [handleSubmit], with the answer of [fetch] to the request it sends. *)
Definition handleSubmit (a : app) (response : fetched) : app :=
  if is_empty (trim (app_input a))
     && match app_selectedImage a with Some _ => false | None => true end
  then a
  else
    let new_image :=
      match app_selectedImage a with Some _ => true | None => false end in
    let userMessage :=
      mkMessage messageId user
        (user_content (app_input a) (app_selectedImage a))
        (match app_imagePreview a with
         | Some preview => if is_empty preview then None else Some preview
         | None => None
         end) in
    let loadingMessage :=
      mkMessage (messageId ++ lit "-loading") assistant
        (if new_image then lit "Analyzing your image"
         else lit "Processing your message") None in
    let messages0 := (app_messages a ++ [userMessage]) ++ [loadingMessage] in
    let lastUploadedImage' :=
      match app_selectedImage a, app_imagePreview a with
      | Some f, Some preview =>
          if is_empty preview then app_lastUploadedImage a
          else Some (f, preview)
      | _, _ => app_lastUploadedImage a
      end in
    let imageToUse :=
      match app_selectedImage a with
      | Some f => Some f
      | None => option_map fst (app_lastUploadedImage a)
      end in
    let result :=
      match imageToUse with
      | Some _ => image_branch new_image messages0 (app_colorPalette a) response
      | None => text_branch messages0 (app_colorPalette a) response
      end in
    mkApp (settled_messages result)
          (negb (reached_finally result))
          (settled_palette result)
          (if reached_finally result
           then match imageToUse with Some _ => false | None => app_isAnalyzing a end
           else app_isAnalyzing a)
          [] None None lastUploadedImage'.

End Exchange.

(** The part of the state that [submit_request] reads. *)
Definition submission_of (a : app) : submission :=
  mkSubmission (app_input a) (app_selectedImage a) (app_lastUploadedImage a)
               (app_colorPalette a).

(* ================================================================== *)
(** ** [chatbot.tsx]: selecting an image, exporting the palette *)
(* ================================================================== *)

(** [handleImageSelect]: the first file of the input is selected when its
    type starts with [image/]; the preview is set later, by [preview_loaded]. *)
Definition handleImageSelect (a : app) (files : list File) : app :=
  match files with
  | [] => a
  | file :: _ =>
      if startsWith (file_type file) (lit "image/")
      then mkApp (app_messages a) (app_isLoading a) (app_colorPalette a)
                 (app_isAnalyzing a) (app_input a) (Some file)
                 (app_imagePreview a) (app_lastUploadedImage a)
      else a
  end.

(** [reader.onload]: the data URL that the [FileReader] has read becomes the
    preview. *)
Definition preview_loaded (a : app) (dataURL : jsstring) : app :=
  mkApp (app_messages a) (app_isLoading a) (app_colorPalette a)
        (app_isAnalyzing a) (app_input a) (app_selectedImage a)
        (Some dataURL) (app_lastUploadedImage a).

(** The button that removes the image: the selection, the preview and the
    image on record are all dropped. *)
Definition remove_image (a : app) : app :=
  mkApp (app_messages a) (app_isLoading a) (app_colorPalette a)
        (app_isAnalyzing a) (app_input a) None None None.

(** The calls made on the 2D context of the canvas, in order. *)
Inductive canvas_call : Type :=
| SetFillStyle (style : jsstring)
| FillRect (x y w h : Z)
| SetFont (font : jsstring)
| SetTextAlign (align : jsstring)
| FillText (text : jsstring) (x y : Z).

(** The canvas that is turned into the download. *)
Record png_export : Type := mkPng {
  canvas_width : Z;
  canvas_height : Z;
  calls : list canvas_call;
  download_name : jsstring
}.

Definition colorBlockWidth : Z := 100.
Definition colorBlockHeight : Z := 50.
Definition textHeight : Z := 15.

(** The calls of one turn of [colorPalette.forEach]. *)
Definition draw_color (index : nat) (color : ColorInfo) : list canvas_call :=
  let x := (Z.of_nat index * colorBlockWidth)%Z in
  [SetFillStyle (hex color);
   FillRect x 0 colorBlockWidth colorBlockHeight;
   SetFillStyle (getContrastYIQ (hex color));
   FillText (name color) (x + colorBlockWidth / 2) (colorBlockHeight + textHeight);
   FillText (hex color) (x + colorBlockWidth / 2) (colorBlockHeight + textHeight * 2)]%Z.

(** [exportPaletteAsPNG]; nothing is exported for an empty palette, or when
    the canvas has no 2D context ([supported = false]). *)
Definition exportPaletteAsPNG (colorPalette : list ColorInfo) (supported : bool)
  : option png_export :=
  match colorPalette with
  | [] => None
  | _ :: _ =>
      if supported then
        let totalCanvasHeight := (colorBlockHeight + textHeight * 2 + 20)%Z in
        let totalCanvasWidth :=
          (colorBlockWidth * Z.of_nat (length colorPalette))%Z in
        Some (mkPng totalCanvasWidth totalCanvasHeight
                ([SetFillStyle (lit "#fff");
                  FillRect 0 0 totalCanvasWidth totalCanvasHeight;
                  SetFont (lit "12px sans-serif");
                  SetTextAlign (lit "center")]
                 ++ concat (mapi draw_color 0 colorPalette))
                (lit "color-palette.png"))
      else None
  end.

(* ================================================================== *)
(** ** [route.ts]: the earlier [POST] *)
(* ================================================================== *)

Definition colors_prompt : jsstring :=
  [10%N] ++
  lit "Analyze this image and identify the 3 most dominant colors." ++ [10%N] ++
  [10%N] ++
  lit "For each color, provide:" ++ [10%N] ++
  lit "- A descriptive name" ++ [10%N] ++
  lit "- Hex code" ++ [10%N] ++
  lit "- RGB value" ++ [10%N] ++
  [10%N] ++
  lit "Format the response exactly as follows:" ++ [10%N] ++
  [10%N] ++
  lit "1. Name: [descriptive name], Hex: [hex code], RGB: [rgb value]" ++ [10%N] ++
  lit "2. Name: [descriptive name], Hex: [hex code], RGB: [rgb value]" ++ [10%N] ++
  lit "3. Name: [descriptive name], Hex: [hex code], RGB: [rgb value]".

(** What the earlier handler does: its response and, when it got as far as
    the stream, what became of the writer. *)
Record outcome_v1 : Type := mkOutcome1 {
  returned_v1 : response;
  writer_v1 : option writer
}.

Section EarlierEndpoint.

Variable encode : jsstring -> list N.              (* [TextEncoder.encode] *)
Variable base64 : list N -> jsstring.              (* [Buffer.toString('base64')] *)
Variable type_error : thrown.                      (* the engine's [TypeError] *)

(** The loop that writes the model's stream, as in [relay]. *)
Definition write_stream (stream : model_stream) : writer :=
  match pump encode (chunks stream) [] with
  | (w, Some e) => mkWriter w (Aborted e)
  | (w, None) =>
      match ending stream with
      | Ok _ => mkWriter w Closed
      | Throw e => mkWriter w (Aborted e)
      end
  end.

(** The earlier [POST]: the body is always read as form data, the image is
    required, and the model is called before the response is returned, so a
    failing call is answered by the [catch]. *)
Definition POST_v1 (api_key : option jsstring) (req : request)
    (model : model_input -> result model_stream) : outcome_v1 :=
  match api_key with
  | None | Some [] =>
      mkOutcome1
        (JsonResponse 500
           (stringify
              (Obj [(lit "error",
                     Str (lit "Server configuration error: GOOGLE_API_KEY is not configured"))])))
        None
  | Some (_ :: _) =>
      match req_formData req with
      | Throw e => mkOutcome1 (error_response e) None
      | Ok formData =>
          let imageFile := form_get formData (lit "image") in
          let mode := form_get formData (lit "mode") in
          if negb (truthy imageFile) then
            mkOutcome1
              (JsonResponse 400
                 (stringify (Obj [(lit "error", Str (lit "No image file provided"))])))
              None
          else
            match imageFile with
            | AFile f =>
                let basePrompt :=
                  if is_mode mode "full" then full_prompt else colors_prompt in
                match model (PromptAndImage basePrompt (file_type f)
                               (base64 (file_bytes f))) with
                | Throw e => mkOutcome1 (error_response e) None
                | Ok stream => mkOutcome1 EventStream (Some (write_stream stream))
                end
            | _ => mkOutcome1 (error_response type_error) None
            end
      end
  end.

End EarlierEndpoint.

(* ================================================================== *)
(** ** More notions of the specification *)
(* ================================================================== *)

(** The texts of the chunks before the first one whose [text()] throws. *)
Fixpoint leading_texts (cs : list chunk) : list jsstring :=
  match cs with
  | Ok text :: rest => text :: leading_texts rest
  | _ => []
  end.

(** The event of a chunk as text: its line and the blank line after it. *)
Definition event_text (text : jsstring) : jsstring :=
  sse_line text ++ [10; 10]%N.

(** A stand-in for [JSON.parse] that knows the listed values only: it reads
    the serialization of each of them back, and throws on anything else. *)
Definition parse_known (known : list value) (s : jsstring) : result value :=
  match find (fun v => str_eqb (stringify v) s) known with
  | Some v => Ok v
  | None => Throw NotAnError
  end.

(** The submission is not held back by the guard at the top of
    [handleSubmit]. *)
Definition goes_through (a : app) : Prop :=
  trim (app_input a) <> [] \/ app_selectedImage a <> None.

(** The image that a submission uses, if any. *)
Definition imageToUse (a : app) : option File :=
  match app_selectedImage a with
  | Some f => Some f
  | None => option_map fst (app_lastUploadedImage a)
  end.

(** All reads return within the timeout. *)
Definition in_time (reads : list (Z * list N)) : Prop :=
  Forall (fun r => (fst r <= CHUNK_TIMEOUT)%Z) reads.

(** The state when the component is mounted. *)
Definition initial_app : app :=
  mkApp [] false [] false [] None None None.

(** Every image that the state holds has a type that starts with
    [image/]. *)
Definition images_only (a : app) : Prop :=
  (forall f, app_selectedImage a = Some f ->
             startsWith (file_type f) (lit "image/") = true) /\
  (forall f preview, app_lastUploadedImage a = Some (f, preview) ->
                     startsWith (file_type f) (lit "image/") = true).

(** A rectangle lies within a canvas of the given size. *)
Definition within (width height x y w h : Z) : Prop :=
  (0 <= x /\ 0 <= y /\ x + w <= width /\ y + h <= height)%Z.

(** The text holds no line break.  Such a text is carried by a multipart
    form as it is; the encoding of a form writes every line break of a
    field as a carriage return and a newline. *)
Definition one_line (s : jsstring) : Prop :=
  Forall (fun c => c <> 10%N /\ c <> 13%N) s.

(* ================================================================== *)
(** ** More sample data *)
(* ================================================================== *)

Definition sample_description : jsstring := lit "A barn at dusk.".

(** A response of the full format, as the two chunks it arrives in. *)
Definition sample_chunk1 : jsstring :=
  sample_description ++ [10; 10]%N ++ lit "Main Colors:" ++ [10%N]
  ++ palette_line 0 (name sample_red) (hex sample_red) (rgb sample_red).

Definition sample_chunk2 : jsstring :=
  [10%N] ++ palette_line 1 (name sample_sky) (hex sample_sky) (rgb sample_sky).

Definition sample_event_parse : jsstring -> result value :=
  parse_known [Obj [(lit "text", Str sample_chunk1)];
               Obj [(lit "text", Str sample_chunk2)]].

(** The state with an image selected, its preview loaded and a line typed. *)
Definition sample_app : app :=
  mkApp [] false [] false (lit "What is this?") (Some sample_image)
        (Some (lit "data:image/png;base64,iVBORw==")) None.

Definition sample_preview : jsstring := lit "data:image/png;base64,iVBORw==".

(** A request with the fields of a form. *)
Definition sample_form (formData : FormData) : request :=
  mkRequest (Some (lit "multipart/form-data; boundary=x")) (Ok formData)
            (Throw NotAnError).

(* ================================================================== *)
(** * Properties *)
(* ================================================================== *)

(** ** Character classes *)

Lemma in_range_spec lo hi c :
  in_range lo hi c = true <-> (lo <= c <= hi)%N.
Proof.
  unfold in_range. rewrite andb_true_iff, !N.leb_le. tauto.
Qed.

Lemma is_hex_digit_cases d :
  is_hex_digit d = true -> In d hex_digit_chars.
Proof.
  unfold is_hex_digit. rewrite !orb_true_iff, !in_range_spec. intros H.
  assert (Hn : exists n, d = N.of_nat n /\ (n <= 102)%nat).
  { exists (N.to_nat d). lia. }
  destruct Hn as (n & -> & Hn).
  do 103 (destruct n as [|n]; [simpl; try lia; tauto|]).
  lia.
Qed.

(** ** [getContrastYIQ] *)

Lemma parseInt16_pair d1 d2 :
  is_hex_digit d1 = true -> is_hex_digit d2 = true ->
  parseInt16 [d1; d2] = Some (byte_value d1 d2).
Proof.
  intros H1 H2.
  apply is_hex_digit_cases in H1. apply is_hex_digit_cases in H2.
  unfold hex_digit_chars in *. simpl in H1, H2.
  repeat (destruct H1 as [<- | H1]; [| ]); try contradiction;
    repeat (destruct H2 as [<- | H2]; [| ]); try contradiction; reflexivity.
Qed.

Lemma hex_digit_not_hash d :
  is_hex_digit d = true -> (35 =? d)%N = false.
Proof.
  unfold is_hex_digit. rewrite !orb_true_iff, !in_range_spec, N.eqb_neq. lia.
Qed.

Lemma search_hash_none s :
  Forall (fun d => is_hex_digit d = true) s -> search (lit "#") s = None.
Proof.
  induction 1 as [|d s Hd _ IH]; [reflexivity|].
  change (lit "#") with [35%N] in *.
  cbn [search startsWith]. rewrite (hex_digit_not_hash d Hd). simpl.
  rewrite IH. reflexivity.
Qed.

Lemma replace_hash_none s :
  Forall (fun d => is_hex_digit d = true) s -> replace s (lit "#") [] = s.
Proof.
  intros H. unfold replace. rewrite (search_hash_none _ H). reflexivity.
Qed.

Lemma replace_hash_head s : replace (35%N :: s) (lit "#") [] = s.
Proof. reflexivity. Qed.

Lemma getContrastYIQ_by_bytes c0 c1 c2 c3 c4 c5 :
  Forall (fun d => is_hex_digit d = true) [c0; c1; c2; c3; c4; c5] ->
  forall hex0, replace hex0 (lit "#") [] = [c0; c1; c2; c3; c4; c5] ->
  getContrastYIQ hex0 =
  contrast_for (byte_value c0 c1) (byte_value c2 c3) (byte_value c4 c5).
Proof.
  intros H hex0 E.
  repeat match goal with
         | H : Forall _ (_ :: _) |- _ => inversion H; subst; clear H
         end.
  unfold getContrastYIQ, yiq_of. rewrite E.
  cbn [substr firstn skipn].
  rewrite !parseInt16_pair by assumption.
  unfold contrast_for.
  replace (byte_value c0 c1 * 299 + byte_value c2 c3 * 587 + byte_value c4 c5 * 114)%Z
    with (299 * byte_value c0 c1 + 587 * byte_value c2 c3 + 114 * byte_value c4 c5)%Z
    by ring.
  reflexivity.
Qed.

Lemma getContrastYIQ_range hex0 :
  getContrastYIQ hex0 = lit "#222" \/ getContrastYIQ hex0 = lit "#fff".
Proof.
  unfold getContrastYIQ.
  destruct (yiq_of hex0) as [y|]; [destruct (Qle_bool _ y)|]; auto.
Qed.

(** C10.  On a color of six hexadecimal digits, with or without a leading
    [#], [getContrastYIQ] answers ["#222"] when
    [(299*r + 587*g + 114*b) / 1000] is at least 128 and ["#fff"]
    otherwise, [r], [g], [b] being the bytes the digits spell; a color of
    three digits is read with every digit doubled; and on any input at all
    the answer is one of these two strings. *)
Theorem getContrastYIQ_spec :
  (forall d1 d2 d3 d4 d5 d6,
      Forall (fun d => is_hex_digit d = true) [d1; d2; d3; d4; d5; d6] ->
      let expected :=
        contrast_for (byte_value d1 d2) (byte_value d3 d4) (byte_value d5 d6) in
      getContrastYIQ [d1; d2; d3; d4; d5; d6] = expected /\
      getContrastYIQ (lit "#" ++ [d1; d2; d3; d4; d5; d6]) = expected) /\
  (forall d1 d2 d3,
      Forall (fun d => is_hex_digit d = true) [d1; d2; d3] ->
      let expected :=
        contrast_for (byte_value d1 d1) (byte_value d2 d2) (byte_value d3 d3) in
      getContrastYIQ [d1; d2; d3] = expected /\
      getContrastYIQ (lit "#" ++ [d1; d2; d3]) = expected) /\
  (forall hex0,
      getContrastYIQ hex0 = lit "#222" \/ getContrastYIQ hex0 = lit "#fff").
Proof.
  split; [|split].
  - intros d1 d2 d3 d4 d5 d6 H expected. split.
    + apply getContrastYIQ_by_bytes; [assumption|].
      apply replace_hash_none; assumption.
    + apply getContrastYIQ_by_bytes; [assumption|]. reflexivity.
  - intros d1 d2 d3 H expected.
    assert (H6 : Forall (fun d => is_hex_digit d = true) [d1; d1; d2; d2; d3; d3]).
    { inversion H as [|? ? H1 H']; subst. inversion H' as [|? ? H2 H'']; subst.
      inversion H'' as [|? ? H3 _]; subst. repeat constructor; assumption. }
    assert (E : forall hex0, replace hex0 (lit "#") [] = [d1; d2; d3] ->
                getContrastYIQ hex0 = expected).
    { intros hex0 E. unfold getContrastYIQ, yiq_of. rewrite E.
      pose proof (getContrastYIQ_by_bytes _ _ _ _ _ _ H6 [d1; d1; d2; d2; d3; d3]
                    (replace_hash_none _ H6)) as G.
      unfold getContrastYIQ, yiq_of in G. rewrite (replace_hash_none _ H6) in G.
      exact G. }
    split; apply E; [apply replace_hash_none; assumption | reflexivity].
  - apply getContrastYIQ_range.
Qed.

(** ** Strings: prefixes, occurrences, [trim] *)

Lemma startsWith_spec p : forall s,
  startsWith s p = true <-> is_prefix p s.
Proof.
  induction p as [|x p IH]; intros s; simpl.
  - split; [intros _; exists s; reflexivity | reflexivity].
  - destruct s as [|y s].
    + split; [discriminate | intros [b Hb]; discriminate].
    + rewrite andb_true_iff, N.eqb_eq, IH. split.
      * intros [-> [b ->]]. exists b. reflexivity.
      * intros [b Hb]. injection Hb as -> ->. split; [reflexivity | exists b; reflexivity].
Qed.

Lemma search_first p : forall s i,
  search p s = Some i ->
  is_prefix p (skipn i s) /\ (i <= length s)%nat /\
  forall j, (j < i)%nat -> ~ is_prefix p (skipn j s).
Proof.
  induction s as [|c s IH]; intros i; simpl.
  - destruct (startsWith [] p) eqn:E; [|discriminate].
    intros [= <-]. split; [apply startsWith_spec; exact E|]. split; [lia|]. intros j Hj. lia.
  - destruct (startsWith (c :: s) p) eqn:E.
    + intros [= <-]. split; [apply startsWith_spec; exact E|]. split; [lia|]. intros j Hj. lia.
    + destruct (search p s) as [i'|] eqn:Es; [|discriminate].
      simpl. intros [= <-]. destruct (IH i' eq_refl) as (Hp & Hl & Hmin).
      split; [exact Hp|]. split; [simpl; lia|].
      intros [|j] Hj.
      * simpl. rewrite <- startsWith_spec, E. discriminate.
      * simpl. apply Hmin. lia.
Qed.

Lemma search_none p : forall s,
  search p s = None -> ~ occurs p s.
Proof.
  induction s as [|c s IH]; simpl.
  - destruct (startsWith [] p) eqn:E; [discriminate|]. intros _ (a & b & H).
    destruct a; simpl in H.
    + assert (startsWith [] p = true) by (apply startsWith_spec; exists b; exact H).
      congruence.
    + discriminate.
  - destruct (startsWith (c :: s) p) eqn:E; [discriminate|].
    destruct (search p s) eqn:Es; [discriminate|]. intros _ (a & b & H).
    destruct a as [|x a]; simpl in H.
    + assert (startsWith (c :: s) p = true) by (apply startsWith_spec; exists b; exact H).
      congruence.
    + injection H as _ H. apply (IH eq_refl). exists a, b. exact H.
Qed.

(** Nothing occurs before the first occurrence. *)
Lemma search_prefix_free p s i :
  p <> [] -> search p s = Some i -> ~ occurs p (firstn i s).
Proof.
  intros Hp Hs (a & b & H).
  destruct (search_first _ _ _ Hs) as (_ & Hl & Hmin).
  assert (Hlen : (length a + length p + length b = i)%nat).
  { rewrite <- (firstn_length_le s Hl), H, !length_app. lia. }
  assert (Hpl : (0 < length p)%nat) by (destruct p; [congruence | simpl; lia]).
  apply (Hmin (length a)); [lia|].
  exists (b ++ skipn i s).
  rewrite <- (firstn_skipn i s) at 1. rewrite H.
  rewrite <- app_assoc, skipn_app, skipn_all, Nat.sub_diag. simpl.
  rewrite <- app_assoc. reflexivity.
Qed.

Lemma occurs_app p a s b : occurs p s -> occurs p (a ++ s ++ b).
Proof.
  intros (x & y & ->). exists (a ++ x), (y ++ b).
  rewrite <- !app_assoc. reflexivity.
Qed.

Lemma dropWhile_suffix p s : exists a, s = a ++ dropWhile p s.
Proof.
  induction s as [|c s [a IH]]; simpl.
  - exists []. reflexivity.
  - destruct (p c); [exists (c :: a); simpl; congruence | exists []; reflexivity].
Qed.

Lemma dropWhile_idem p s : dropWhile p (dropWhile p s) = dropWhile p s.
Proof.
  induction s as [|c s IH]; simpl; [reflexivity|].
  destruct (p c) eqn:E; [exact IH | simpl; rewrite E; reflexivity].
Qed.

Lemma dropWhile_snoc p s c :
  p c = false -> dropWhile p (s ++ [c]) = dropWhile p s ++ [c].
Proof.
  intros Hc. induction s as [|x s IH]; simpl.
  - rewrite Hc. reflexivity.
  - destruct (p x); [exact IH | reflexivity].
Qed.

Lemma trimEnd_prefix s : exists b, s = trimEnd s ++ b.
Proof.
  unfold trimEnd. destruct (dropWhile_suffix is_space (rev s)) as [a H].
  exists (rev a). rewrite <- rev_app_distr, <- H, rev_involutive. reflexivity.
Qed.

Lemma trim_inside s : exists a b, s = a ++ trim s ++ b.
Proof.
  unfold trim, trimStart.
  destruct (dropWhile_suffix is_space s) as [a Ha].
  destruct (trimEnd_prefix (dropWhile is_space s)) as [b Hb].
  exists a, b. rewrite <- Hb. exact Ha.
Qed.

Lemma occurs_trim p s : occurs p (trim s) -> occurs p s.
Proof.
  intros H. destruct (trim_inside s) as (a & b & E). rewrite E.
  apply occurs_app. exact H.
Qed.

Lemma trimEnd_idem s : trimEnd (trimEnd s) = trimEnd s.
Proof.
  unfold trimEnd. rewrite rev_involutive, dropWhile_idem. reflexivity.
Qed.

Lemma trimEnd_cons c s :
  is_space c = false -> exists t, trimEnd (c :: s) = c :: t.
Proof.
  intros Hc. unfold trimEnd. simpl. rewrite dropWhile_snoc by exact Hc.
  rewrite rev_app_distr. simpl. eexists. reflexivity.
Qed.

Lemma trimStart_head s :
  trimStart s = [] \/ exists c t, trimStart s = c :: t /\ is_space c = false.
Proof.
  unfold trimStart. induction s as [|c s IH]; simpl; [left; reflexivity|].
  destruct (is_space c) eqn:E; [exact IH|]. right. exists c, s. auto.
Qed.

Lemma trimStart_trim s : trimStart (trim s) = trim s.
Proof.
  unfold trim. destruct (trimStart_head s) as [-> | (c & t & -> & Hc)].
  - reflexivity.
  - destruct (trimEnd_cons c t Hc) as [u ->]. unfold trimStart. simpl.
    rewrite Hc. reflexivity.
Qed.

Lemma trim_idem s : trim (trim s) = trim s.
Proof.
  unfold trim at 1. rewrite trimStart_trim. unfold trim.
  apply trimEnd_idem.
Qed.

Lemma slice_to s i : slice s 0 (Z.of_nat i) = firstn i s.
Proof.
  unfold slice, clamp_index.
  destruct (Z.ltb_spec (Z.of_nat i) 0) as [H|_]; [lia|].
  change (0 <? 0)%Z with false. cbv iota.
  rewrite Nat2Z.id. simpl. rewrite Nat.sub_0_r.
  destruct (Nat.le_ge_cases i (length s)) as [H|H].
  - rewrite Nat.min_l by exact H. reflexivity.
  - rewrite Nat.min_r by exact H. rewrite !firstn_all2 by lia. reflexivity.
Qed.

(** ** [stripMainColorsSection] *)

Lemma strip_cases text :
  (exists i, search (lit "Main Colors:") text = Some i /\
             stripMainColorsSection text = trim (firstn i text)) \/
  (search (lit "Main Colors:") text = None /\
   stripMainColorsSection text = trim text).
Proof.
  unfold stripMainColorsSection, indexOf.
  destruct (search (lit "Main Colors:") text) as [i|] eqn:E.
  - left. exists i. split; [reflexivity|].
    destruct (Z.eqb_spec (Z.of_nat i) (-1)) as [H|_]; [lia|]. simpl.
    rewrite slice_to. reflexivity.
  - right. split; reflexivity.
Qed.

Lemma strip_free text :
  ~ occurs (lit "Main Colors:") (stripMainColorsSection text).
Proof.
  destruct (strip_cases text) as [(i & Hs & ->) | (Hs & ->)]; intros H;
    apply occurs_trim in H.
  - revert H. apply search_prefix_free; [discriminate | exact Hs].
  - revert H. apply search_none. exact Hs.
Qed.

Lemma search_complete p s : search p s = None <-> ~ occurs p s.
Proof.
  split; [apply search_none|].
  intros H. destruct (search p s) as [i|] eqn:E; [|reflexivity].
  exfalso. apply H. destruct (search_first _ _ _ E) as ([b Hb] & _ & _).
  exists (firstn i s), b. rewrite <- Hb. symmetry. apply firstn_skipn.
Qed.

(** C9.  [stripMainColorsSection] returns the trimmed form of a prefix of
    its input, the result does not contain ["Main Colors:"], and stripping
    twice is the same as stripping once. *)
Theorem stripMainColorsSection_spec (text : jsstring) :
  (exists p, is_prefix p text /\ stripMainColorsSection text = trim p) /\
  ~ occurs (lit "Main Colors:") (stripMainColorsSection text) /\
  stripMainColorsSection (stripMainColorsSection text)
  = stripMainColorsSection text.
Proof.
  split; [|split].
  - destruct (strip_cases text) as [(i & _ & ->) | (_ & ->)].
    + exists (firstn i text). split; [|reflexivity].
      exists (skipn i text). symmetry. apply firstn_skipn.
    + exists text. split; [|reflexivity]. exists []. symmetry. apply app_nil_r.
  - apply strip_free.
  - pose proof (strip_free text) as Hfree.
    apply search_complete in Hfree.
    destruct (strip_cases (stripMainColorsSection text))
      as [(i & Hs & _) | (_ & ->)]; [congruence|].
    destruct (strip_cases text) as [(i & _ & ->) | (_ & ->)]; apply trim_idem.
Qed.

(** ** The matcher is sound for the declarative reading *)

Lemma greedy_sound (R : Type) p min max (k : jsstring -> option R) res :
  forall s n,
    greedy p min max n s k = Some res ->
    exists w s',
      s = w ++ s' /\ Forall (fun c => p c = true) w /\
      (min <= n + length w)%nat /\
      (forall m, max = Some m -> (n + length w <= m)%nat \/ w = []) /\
      k s' = Some res.
Proof.
  assert (Hstop : forall s n,
             (if Nat.leb min n then k s else None) = Some res ->
             exists w s',
               s = w ++ s' /\ Forall (fun c => p c = true) w /\
               (min <= n + length w)%nat /\
               (forall m, max = Some m -> (n + length w <= m)%nat \/ w = []) /\
               k s' = Some res).
  { intros s n H. destruct (Nat.leb_spec min n) as [Hle|]; [|discriminate].
    exists [], s. simpl. repeat split; auto; lia. }
  induction s as [|c s IH]; intros n; simpl.
  - apply Hstop.
  - destruct (p c && below max n) eqn:E; [|apply Hstop].
    destruct (greedy p min max (S n) s k) as [r|] eqn:G; [|apply Hstop].
    intros [= ->]. apply andb_true_iff in E. destruct E as [Hc Hb].
    destruct (IH _ G) as (w & s' & -> & Hw & Hmin & Hmax & Hk).
    exists (c :: w), s'. simpl. repeat split; auto.
    + lia.
    + intros m Hm. left. destruct (Hmax m Hm) as [H | ->].
      * lia.
      * subst max. simpl in Hb. apply Nat.ltb_lt in Hb. simpl. lia.
Qed.

Lemma rmatch_sound (R : Type) r :
  forall s cs (k : jsstring -> captures -> option R) res,
    rmatch r s cs k = Some res ->
    exists w s' cs',
      s = w ++ s' /\ matches r w cs cs' /\ k s' cs' = Some res.
Proof.
  induction r as [|c|r1 IH1 r2 IH2|p min max|i r IH]; intros s cs k res; simpl.
  - intros H. exists [], s, cs. repeat split; [constructor | exact H].
  - destruct s as [|x s]; [discriminate|].
    destruct (N.eqb_spec x c) as [->|]; [|discriminate].
    intros H. exists [c], s, cs. repeat split; [constructor | exact H].
  - intros H. apply IH1 in H. destruct H as (w1 & s1 & cs1 & -> & M1 & H).
    apply IH2 in H. destruct H as (w2 & s2 & cs2 & -> & M2 & H).
    exists (w1 ++ w2), s2, cs2. rewrite <- app_assoc.
    repeat split; [econstructor; eassumption | exact H].
  - intros H. apply greedy_sound in H.
    destruct H as (w & s' & -> & Hw & Hmin & Hmax & H).
    exists w, s', cs. repeat split; [|exact H].
    constructor; [exact Hw | simpl in Hmin; lia |].
    intros m Hm. destruct (Hmax m Hm) as [Hl | ->]; simpl in *; lia.
  - intros H. apply IH in H. destruct H as (w & s' & cs' & -> & M & H).
    rewrite length_app, Nat.add_sub, firstn_app, Nat.sub_diag, firstn_all in H.
    simpl in H. rewrite app_nil_r in H.
    exists w, s', ((i, w) :: cs'). repeat split; [constructor; exact M | exact H].
Qed.

Lemma match_at_sound r s cs rest :
  match_at r s = Some (cs, rest) ->
  exists w, s = w ++ rest /\ matches r w [] cs.
Proof.
  unfold match_at. intros H. apply rmatch_sound in H.
  destruct H as (w & s' & cs' & -> & M & [= -> ->]). exists w. auto.
Qed.

Lemma exec_sound r : forall s cs rest,
  exec r s = Some (cs, rest) ->
  exists skipped w, s = skipped ++ w ++ rest /\ matches r w [] cs.
Proof.
  induction s as [|c s IH]; intros cs rest; simpl.
  - destruct (match_at r []) as [[cs0 rest0]|] eqn:E; [|discriminate].
    intros [= -> ->]. apply match_at_sound in E. destruct E as (w & E & M).
    exists [], w. auto.
  - destruct (match_at r (c :: s)) as [[cs0 rest0]|] eqn:E.
    + intros [= -> ->]. apply match_at_sound in E. destruct E as (w & E & M).
      exists [], w. auto.
    + intros H. apply IH in H. destruct H as (sk & w & -> & M).
      exists (c :: sk), w. auto.
Qed.

(** ** What a match of [colorRegex] looks like *)

Ltac invert_matches :=
  repeat match goal with
         | H : matches (Cat _ _) _ _ _ |- _ => inversion H; subst; clear H
         | H : matches (Chr _) _ _ _ |- _ => inversion H; subst; clear H
         | H : matches Eps _ _ _ |- _ => inversion H; subst; clear H
         | H : matches (Grp _ _) _ _ _ |- _ => inversion H; subst; clear H
         | H : matches (Rep _ _ _) _ _ _ |- _ => inversion H; subst; clear H
         end.

Lemma colorRegex_shape w cs :
  matches colorRegex w [] cs ->
  exists index cname h r g b,
    cs = [(6%nat, b); (5%nat, g); (4%nat, r); (3%nat, 35%N :: h);
          (2%nat, cname); (1%nat, index)] /\
    is_number index /\ cname <> [] /\
    Forall (fun c => not_comma c = true) cname /\
    length h = 6%nat /\ Forall (fun c => is_hex_digit c = true) h /\
    is_number r /\ is_number g /\ is_number b /\
    w <> [].
Proof.
  intros M. cbv [colorRegex seq fold_right Lit map lit list_ascii_of_string N_of_ascii N_of_digits N.add N.mul] in M.
  invert_matches.
  assert (Hnum : forall s, Forall (fun c => is_digit c = true) s ->
                           (1 <= length s)%nat -> is_number s).
  { intros s Hs Hl. split; [|exact Hs]. intros ->. simpl in Hl. lia. }
  exists w1, w5, w3, w16, w19, w22.
  repeat match goal with |- _ /\ _ => split end; auto.
  - intros ->. simpl in *. lia.
  - match goal with H : forall m, Some 6%nat = Some m -> _ |- _ =>
      specialize (H 6%nat eq_refl) end. lia.
  - destruct w1; simpl in *; [lia | discriminate].
Qed.

Lemma exec_progress s cs rest :
  exec colorRegex s = Some (cs, rest) -> (length rest < length s)%nat.
Proof.
  intros H. apply exec_sound in H. destruct H as (sk & w & -> & M).
  apply colorRegex_shape in M.
  destruct M as (? & ? & ? & ? & ? & ? & _ & _ & _ & _ & _ & _ & _ & _ & _ & Hw).
  rewrite !length_app. destruct w; [congruence | simpl; lia].
Qed.

(** The iteration bound of [parse_loop] is never reached: more fuel does not
    change the result. *)
Lemma parse_loop_fuel : forall fuel s,
  (length s < fuel)%nat -> parse_loop fuel s = parse_loop (S (length s)) s.
Proof.
  assert (H : forall n fuel s, (length s < n)%nat -> (length s < fuel)%nat ->
               parse_loop fuel s = parse_loop n s).
  { induction n as [|n IH]; intros fuel s Hn Hf; [lia|].
    destruct fuel as [|fuel]; [lia|]. simpl.
    destruct (exec colorRegex s) as [[m rest]|] eqn:E; [|reflexivity].
    apply exec_progress in E. f_equal. apply IH; lia. }
  intros fuel s Hf. apply H; lia.
Qed.

(** The loop of [parseColorInfo], unrolled once. *)
Lemma parseColorInfo_unfold s :
  parseColorInfo s =
  match exec colorRegex s with
  | Some (m, rest) => color_of_match m :: parseColorInfo rest
  | None => []
  end.
Proof.
  unfold parseColorInfo. cbn [parse_loop].
  destruct (exec colorRegex s) as [[m rest]|] eqn:E; [|reflexivity].
  f_equal. apply parse_loop_fuel. apply exec_progress in E. exact E.
Qed.

(** Every entry of the palette comes from a match of [colorRegex]. *)
Lemma parseColorInfo_entries : forall text c,
  In c (parseColorInfo text) ->
  exists w cs, matches colorRegex w [] cs /\ c = color_of_match cs.
Proof.
  intros text. remember (length text) as n eqn:Hn.
  revert text Hn. induction n as [n IH] using lt_wf_ind. intros text Hn c.
  rewrite parseColorInfo_unfold.
  destruct (exec colorRegex text) as [[m rest]|] eqn:E; [|intros []].
  intros [<- | Hin].
  - apply exec_sound in E. destruct E as (sk & w & _ & M). exists w, m. auto.
  - apply exec_progress in E. apply (IH (length rest)) with (text := rest); auto. lia.
Qed.

(** C5.  Whatever the text, the [hex] field of every color that
    [parseColorInfo] produces is [#] followed by exactly six hexadecimal
    digits. *)
Theorem parseColorInfo_hex_valid (text : jsstring) (c : ColorInfo) :
  In c (parseColorInfo text) ->
  exists h, hex c = lit "#" ++ h /\ length h = 6%nat /\
            Forall (fun d => is_hex_digit d = true) h.
Proof.
  intros Hin. apply parseColorInfo_entries in Hin.
  destruct Hin as (w & cs & M & ->). apply colorRegex_shape in M.
  destruct M as (index & cname & h & r & g & b & -> & _ & _ & _ & Hl & Hh & _).
  exists h. simpl. auto.
Qed.

(** ** The [rgb] field *)

Lemma span_digits_stop d c rest :
  Forall (fun x => is_digit x = true) d -> is_digit c = false ->
  span_digits (d ++ c :: rest) = (d, c :: rest).
Proof.
  intros Hd Hc. induction Hd as [|x d Hx _ IH]; simpl.
  - rewrite Hc. reflexivity.
  - rewrite Hx, IH. reflexivity.
Qed.

Lemma number_then_stop d c rest :
  is_number d -> is_digit c = false ->
  number_then (d ++ c :: rest) = Some (digits_value d, c :: rest).
Proof.
  intros [Hne Hd] Hc. unfold number_then. rewrite span_digits_stop by assumption.
  destruct d; [congruence | reflexivity].
Qed.

Lemma rgb_components_triple r g b :
  is_number r -> is_number g -> is_number b ->
  rgb_components (lit "(" ++ r ++ lit ", " ++ g ++ lit ", " ++ b ++ lit ")")
  = Some (digits_value r, digits_value g, digits_value b).
Proof.
  intros Hr Hg Hb. unfold rgb_components.
  change (expect "(" (lit "(" ++ r ++ lit ", " ++ g ++ lit ", " ++ b ++ lit ")"))
    with (Some (r ++ 44%N :: [32%N] ++ g ++ lit ", " ++ b ++ lit ")")).
  cbv beta iota. rewrite number_then_stop by (assumption || reflexivity).
  cbv beta iota. change (expect ", " (44%N :: [32%N] ++ g ++ lit ", " ++ b ++ lit ")"))
    with (Some (g ++ 44%N :: [32%N] ++ b ++ lit ")")).
  cbv beta iota. rewrite number_then_stop by (assumption || reflexivity).
  cbv beta iota. change (expect ", " (44%N :: [32%N] ++ b ++ lit ")"))
    with (Some (b ++ 41%N :: [])).
  cbv beta iota. rewrite number_then_stop by (assumption || reflexivity).
  reflexivity.
Qed.

Lemma parseColorInfo_rgb_shape text c :
  In c (parseColorInfo text) -> is_rgb_triple (rgb c).
Proof.
  intros Hin. apply parseColorInfo_entries in Hin.
  destruct Hin as (w & cs & M & ->). apply colorRegex_shape in M.
  destruct M as (index & cname & h & r & g & b & -> & _ & _ & _ & _ & _ & Hr & Hg & Hb & _).
  exists r, g, b. repeat split; try apply Hr; try apply Hg; try apply Hb.
Qed.

(** C6, as the code has it.  Whatever the text, the [rgb] field of every
    color that [parseColorInfo] produces is ["(r, g, b)"] for three
    non-empty strings of decimal digits: three natural numbers, which are
    not held below 256. *)
Theorem parseColorInfo_rgb_numbers (text : jsstring) (c : ColorInfo) :
  In c (parseColorInfo text) ->
  is_rgb_triple (rgb c) /\
  exists r g b, rgb_components (rgb c) = Some (r, g, b) /\
                (0 <= r)%N /\ (0 <= g)%N /\ (0 <= b)%N.
Proof.
  intros Hin. pose proof (parseColorInfo_rgb_shape _ _ Hin) as H.
  split; [exact H|].
  destruct H as (r & g & b & Hr & Hg & Hb & ->).
  exists (digits_value r), (digits_value g), (digits_value b).
  split; [apply rgb_components_triple; assumption|].
  repeat split; apply N.le_0_l.
Qed.

(** C6 fails as stated: a component of 999 is parsed and kept. *)
Lemma parseColorInfo_rgb_out_of_range :
  let text := lit "1. Name: Bright, Hex: #FFFFFF, RGB: (999, 0, 0)" in
  let c := mkColor (lit "#FFFFFF") (lit "(999, 0, 0)") (lit "Bright") in
  parseColorInfo text = [c] /\
  rgb_components (rgb c) = Some (999, 0, 0)%N /\
  ~ rgb_in_byte_range c.
Proof.
  cbv zeta. split; [vm_compute; reflexivity|].
  split; [vm_compute; reflexivity|].
  intros (r & g & b & H & Hr & _).
  vm_compute in H. injection H as <- <- <-. vm_compute in Hr. apply Hr. reflexivity.
Qed.

(** ** The matcher on a line of the prescribed form *)

Lemma greedy_takes_all (R : Type) p min (k : jsstring -> option R) res w s :
  Forall (fun c => p c = true) w -> stops p s ->
  forall n, (min <= n + length w)%nat -> k s = Some res ->
  greedy p min None n (w ++ s) k = Some res.
Proof.
  intros Hw Hs. induction Hw as [|c w Hc _ IH]; intros n Hmin Hk.
  - simpl in *. rewrite Nat.add_0_r in Hmin.
    apply Nat.leb_le in Hmin.
    destruct s as [|c s]; simpl; [rewrite Hmin; exact Hk|].
    simpl in Hs. rewrite Hs. simpl. rewrite Hmin. exact Hk.
  - simpl. rewrite Hc. simpl. rewrite IH; [reflexivity | simpl in Hmin; lia | exact Hk].
Qed.

Lemma greedy_takes_exactly (R : Type) p m (k : jsstring -> option R) res w s :
  Forall (fun c => p c = true) w ->
  forall n, (n + length w = m)%nat -> k s = Some res ->
  greedy p m (Some m) n (w ++ s) k = Some res.
Proof.
  intros Hw. induction Hw as [|c w Hc _ IH]; intros n Hn Hk.
  - simpl in *. rewrite Nat.add_0_r in Hn. subst n.
    destruct s as [|c s]; simpl; rewrite ?Nat.ltb_irrefl, ?andb_false_r,
      Nat.leb_refl; exact Hk.
  - simpl. rewrite Hc. simpl in Hn.
    assert (Hlt : Nat.ltb n m = true) by (apply Nat.ltb_lt; lia).
    rewrite Hlt. simpl. rewrite IH; [reflexivity | lia | exact Hk].
Qed.

Section Steps.

Variable R : Type.
Variable k : jsstring -> captures -> option R.
Variable res : R.

Lemma seq_end s cs :
  k s cs = Some res -> rmatch (seq []) s cs k = Some res.
Proof. auto. Qed.

Lemma seq_Chr c rs s cs :
  rmatch (seq rs) s cs k = Some res ->
  rmatch (seq (Chr c :: rs)) (c :: s) cs k = Some res.
Proof. simpl. rewrite N.eqb_refl. auto. Qed.

Lemma seq_chars l rs s cs :
  rmatch (seq rs) s cs k = Some res ->
  rmatch (seq (seq (map Chr l) :: rs)) (l ++ s) cs k = Some res.
Proof.
  intros H. cbn [seq fold_right rmatch]. fold (seq rs).
  induction l as [|c l IH]; simpl; [exact H|].
  rewrite N.eqb_refl. exact IH.
Qed.

Lemma seq_Lit str rs s cs :
  rmatch (seq rs) s cs k = Some res ->
  rmatch (seq (Lit str :: rs)) (lit str ++ s) cs k = Some res.
Proof. apply seq_chars. Qed.

Lemma seq_Rep p min rs w s cs :
  Forall (fun c => p c = true) w -> stops p s -> (min <= length w)%nat ->
  rmatch (seq rs) s cs k = Some res ->
  rmatch (seq (Rep p min None :: rs)) (w ++ s) cs k = Some res.
Proof.
  intros Hw Hs Hmin Hk. cbn [seq fold_right rmatch]. fold (seq rs).
  apply greedy_takes_all; auto.
Qed.

(** One blank before something that is not white space. *)
Lemma seq_blank rs s cs :
  stops is_space s ->
  rmatch (seq rs) s cs k = Some res ->
  rmatch (seq (Rep is_space 0 None :: rs)) ([32%N] ++ s) cs k = Some res.
Proof.
  intros Hs Hk. apply seq_Rep; auto. repeat constructor.
Qed.

Lemma seq_Grp_Rep i p min rs w s cs :
  Forall (fun c => p c = true) w -> stops p s -> (min <= length w)%nat ->
  rmatch (seq rs) s ((i, w) :: cs) k = Some res ->
  rmatch (seq (Grp i (Rep p min None) :: rs)) (w ++ s) cs k = Some res.
Proof.
  intros Hw Hs Hmin Hk. cbn [seq fold_right rmatch]. fold (seq rs).
  apply greedy_takes_all; auto.
  rewrite length_app, Nat.add_sub, firstn_app, Nat.sub_diag, firstn_all.
  simpl. rewrite app_nil_r. exact Hk.
Qed.

Lemma seq_number i rs w s cs :
  is_number w -> stops is_digit s ->
  rmatch (seq rs) s ((i, w) :: cs) k = Some res ->
  rmatch (seq (Grp i (Rep is_digit 1 None) :: rs)) (w ++ s) cs k = Some res.
Proof.
  intros [Hne Hw] Hs Hk. apply seq_Grp_Rep; auto.
  destruct w; [congruence | simpl; lia].
Qed.

Lemma seq_hex_group rs h s cs :
  length h = 6%nat -> Forall (fun c => is_hex_digit c = true) h ->
  rmatch (seq rs) s ((3%nat, 35%N :: h) :: cs) k = Some res ->
  rmatch (seq (Grp 3 (Cat (Chr 35) (Rep is_hex_digit 6 (Some 6%nat))) :: rs))
         (35%N :: h ++ s) cs k = Some res.
Proof.
  intros Hl Hh Hk. cbn [seq fold_right rmatch]. fold (seq rs).
  rewrite N.eqb_refl.
  apply greedy_takes_exactly; auto.
  replace (length (35%N :: h ++ s) - length s)%nat with (S (length h))
    by (change (length (35%N :: h ++ s)) with (S (length (h ++ s)));
        rewrite length_app; lia).
  cbn [firstn]. rewrite firstn_app, Nat.sub_diag, firstn_all. simpl.
  rewrite app_nil_r. exact Hk.
Qed.

End Steps.

Lemma dropWhile_split p s :
  exists a, s = a ++ dropWhile p s /\ Forall (fun c => p c = true) a.
Proof.
  induction s as [|c s (a & IH & Ha)]; simpl.
  - exists []. auto.
  - destruct (p c) eqn:E.
    + exists (c :: a). split; [simpl; congruence | constructor; assumption].
    + exists []. auto.
Qed.

Lemma dropWhile_stops p s : stops p (dropWhile p s).
Proof.
  induction s as [|c s IH]; simpl; [exact I|].
  destruct (p c) eqn:E; [exact IH | exact E].
Qed.

Lemma trim_trimStart s : trim (trimStart s) = trim s.
Proof. unfold trim, trimStart. rewrite dropWhile_idem. reflexivity. Qed.

Lemma trim_nonempty s : trim s <> [] -> trimStart s <> [].
Proof. unfold trim. intros H E. rewrite E in H. apply H. reflexivity. Qed.

Lemma ordinal_is_number index : is_number (ordinal index).
Proof.
  unfold ordinal.
  pose proof (DecimalPos.Unsigned.to_uint_nonnil (Pos.of_succ_nat index)) as Hn.
  assert (H : forall u, Forall (fun c => is_digit c = true)
                               (lit (NilEmpty.string_of_uint u))).
  { induction u; simpl; constructor; auto. }
  split; [|apply H].
  destruct (Pos.to_uint (Pos.of_succ_nat index)); [congruence | | | | | | | | | |];
    discriminate.
Qed.

Lemma number_stops_space w s : is_number w -> stops is_space (w ++ s).
Proof.
  intros [Hne Hd]. destruct Hd as [|c w Hc _]; [congruence|]. simpl.
  revert Hc. unfold is_digit, is_space. rewrite in_range_spec. intros Hc.
  repeat (apply orb_false_intro); try (apply N.eqb_neq; lia);
    unfold in_range; apply andb_false_iff; rewrite !N.leb_gt; lia.
Qed.

(** A line of the prescribed form is matched from its first character to
    its last, whatever follows it. *)
Lemma match_at_line index c rest :
  prescribed c ->
  exists m,
    match_at colorRegex
      (palette_line index (name c) (hex c) (rgb c) ++ rest) = Some (m, rest) /\
    color_of_match m = with_trimmed_name c.
Proof.
  intros (Hcomma & Hname & (h & Eh & Hl & Hh) &
          (r & g & b & Hr & Hg & Hb & Ergb)).
  destruct (ordinal_is_number index) as [Hone Hord].
  destruct (dropWhile_split is_space (name c)) as (ws & Ews & Hws).
  fold (trimStart (name c)) in Ews.
  pose proof (dropWhile_stops is_space (name c)) as Hstop.
  fold (trimStart (name c)) in Hstop.
  pose proof (trim_nonempty _ Hname) as Hcore.
  assert (Hcc : Forall (fun x => not_comma x = true) (trimStart (name c))).
  { rewrite Ews in Hcomma. apply Forall_app in Hcomma. apply Hcomma. }
  set (core := trimStart (name c)) in *.
  eexists. split.
  - assert (E : palette_line index (name c) (hex c) (rgb c) ++ rest =
                ordinal index ++ 46%N :: [32%N] ++ lit "Name:" ++
                (32%N :: ws) ++ core ++ 44%N :: [32%N] ++ lit "Hex:" ++ [32%N] ++
                35%N :: h ++ 44%N :: [32%N] ++ lit "RGB:" ++ [32%N] ++
                40%N :: r ++ 44%N :: [32%N] ++ g ++ 44%N :: [32%N] ++ b ++
                41%N :: rest).
    { unfold palette_line. rewrite Eh, Ergb. rewrite Ews at 1.
      repeat rewrite <- app_assoc. reflexivity. }
    rewrite E. clear E.
    unfold match_at, colorRegex.
    apply seq_number; [split; assumption | reflexivity |].
    apply seq_Chr.
    apply seq_blank; [reflexivity|].
    apply seq_Lit.
    apply seq_Rep; [constructor; [reflexivity | exact Hws] | | simpl; lia |].
    { destruct core; [congruence | exact Hstop]. }
    apply seq_Grp_Rep; [exact Hcc | reflexivity | destruct core; [congruence | simpl; lia] |].
    apply seq_Chr.
    apply seq_blank; [reflexivity|].
    apply seq_Lit.
    apply seq_blank; [reflexivity|].
    apply seq_hex_group; [exact Hl | exact Hh |].
    apply seq_Chr.
    apply seq_blank; [reflexivity|].
    apply seq_Lit.
    apply seq_blank; [reflexivity|].
    apply seq_Chr.
    apply seq_number; [exact Hr | reflexivity |].
    apply seq_Chr.
    apply seq_blank; [apply number_stops_space; exact Hg|].
    apply seq_number; [exact Hg | reflexivity |].
    apply seq_Chr.
    apply seq_blank; [apply number_stops_space; exact Hb|].
    apply seq_number; [exact Hb | reflexivity |].
    apply seq_Chr.
    apply seq_end. reflexivity.
  - unfold color_of_match, with_trimmed_name, group. cbn [capture Nat.eqb].
    subst core. rewrite trim_trimStart, Eh, Ergb. reflexivity.
Qed.

(** ** Parsing a rendered palette *)

Lemma exec_here r s m : match_at r s = Some m -> exec r s = Some m.
Proof. intros H. destruct s; simpl; rewrite H; reflexivity. Qed.

Lemma match_at_not_digit s : stops is_digit s -> match_at colorRegex s = None.
Proof.
  intros H. unfold match_at, colorRegex. cbn [seq fold_right rmatch].
  destruct s as [|c s]; simpl in *; [reflexivity|]. rewrite H. reflexivity.
Qed.

Lemma exec_skip c s :
  is_digit c = false -> exec colorRegex (c :: s) = exec colorRegex s.
Proof.
  intros H. cbn [exec]. rewrite match_at_not_digit by exact H. reflexivity.
Qed.

Lemma parseColorInfo_skip c s :
  is_digit c = false -> parseColorInfo (c :: s) = parseColorInfo s.
Proof.
  intros H. rewrite (parseColorInfo_unfold (c :: s)), (parseColorInfo_unfold s).
  rewrite exec_skip by exact H. reflexivity.
Qed.

(** Text without any digit holds no color and hides none that follows. *)
Lemma parseColorInfo_after pre s :
  Forall (fun c => is_digit c = false) pre ->
  parseColorInfo (pre ++ s) = parseColorInfo s.
Proof.
  induction 1 as [|c pre Hc _ IH]; simpl; [reflexivity|].
  rewrite parseColorInfo_skip by exact Hc. exact IH.
Qed.

Lemma parseColorInfo_line index c rest :
  prescribed c ->
  parseColorInfo (palette_line index (name c) (hex c) (rgb c) ++ rest)
  = with_trimmed_name c :: parseColorInfo rest.
Proof.
  intros Hc. destruct (match_at_line index c rest Hc) as (m & Hm & Hcol).
  rewrite parseColorInfo_unfold, (exec_here _ _ _ Hm), Hcol. reflexivity.
Qed.

Lemma parseColorInfo_render : forall colors first,
  Forall prescribed colors ->
  parseColorInfo (render_from first colors) = map with_trimmed_name colors.
Proof.
  induction colors as [|c colors IH]; intros first Hall.
  - reflexivity.
  - inversion Hall as [|? ? Hc Hrest]; subst. unfold render_from in *.
    cbn [mapi join map]. destruct colors as [|c' colors].
    + cbn [mapi]. rewrite <- (app_nil_r (palette_line _ _ _ _)).
      rewrite parseColorInfo_line by exact Hc. reflexivity.
    + set (tail := mapi _ (S first) (c' :: colors)) in *.
      assert (E : match tail with
                  | [] => palette_line first (name c) (hex c) (rgb c)
                  | _ :: _ => palette_line first (name c) (hex c) (rgb c)
                              ++ [10%N] ++ join [10%N] tail
                  end
                  = palette_line first (name c) (hex c) (rgb c)
                    ++ 10%N :: join [10%N] tail) by reflexivity.
      rewrite E, parseColorInfo_line by exact Hc.
      rewrite parseColorInfo_skip by reflexivity.
      f_equal. apply (IH (S first)). exact Hrest.
Qed.

(** C4, as the code has it.  A palette whose colors are of the prescribed
    form, rendered one line per color, is parsed back in the same order
    with the same [hex] and [rgb] and with every name trimmed; it is parsed
    back exactly when no name starts or ends with white space. *)
Theorem parseColorInfo_render_roundtrip (colors : list ColorInfo) :
  Forall prescribed colors ->
  parseColorInfo (render_palette colors) = map with_trimmed_name colors /\
  (Forall (fun c => trim (name c) = name c) colors ->
   parseColorInfo (render_palette colors) = colors).
Proof.
  intros Hall.
  assert (H : parseColorInfo (render_palette colors)
              = map with_trimmed_name colors)
    by (apply parseColorInfo_render; exact Hall).
  split; [exact H|]. intros Htrim. rewrite H.
  clear H Hall. induction Htrim as [|c colors Hc _ IH]; simpl; [reflexivity|].
  rewrite IH. f_equal. destruct c as [chex crgb cname]. unfold with_trimmed_name.
  simpl in *. rewrite Hc. reflexivity.
Qed.

Lemma prescribed_intro cname h r g b :
  Forall (fun x => not_comma x = true) cname -> trim cname <> [] ->
  length h = 6%nat -> Forall (fun c => is_hex_digit c = true) h ->
  is_number r -> is_number g -> is_number b ->
  prescribed
    (mkColor (lit "#" ++ h)
             (lit "(" ++ r ++ lit ", " ++ g ++ lit ", " ++ b ++ lit ")") cname).
Proof.
  intros Hc Ht Hl Hh Hr Hg Hb. repeat split; simpl; auto.
  - exists h. auto.
  - exists r, g, b. auto.
Qed.

(** C4 fails as stated: a name that starts with a blank comes back without
    it. *)
Lemma parseColorInfo_render_trims :
  let c := mkColor (lit "#FF0000") (lit "(255, 0, 0)") (lit " Red") in
  prescribed c /\
  parseColorInfo (render_palette [c])
  = [mkColor (lit "#FF0000") (lit "(255, 0, 0)") (lit "Red")] /\
  parseColorInfo (render_palette [c]) <> [c].
Proof.
  cbv zeta. split; [|split].
  - apply (prescribed_intro (lit " Red") (lit "FF0000") (lit "255") (lit "0") (lit "0"));
      try (split; [discriminate|]); repeat constructor; discriminate.
  - vm_compute. reflexivity.
  - vm_compute. discriminate.
Qed.

(** ** The relay of the endpoint *)

Lemma hex_char_not_newline d : Json.hex_char d <> 10%N.
Proof.
  unfold Json.hex_char. destruct (N.ltb_spec d 10); lia.
Qed.

Lemma unicode_escape_one_line c : ~ In 10%N (unicode_escape c).
Proof.
  unfold unicode_escape. simpl.
  intros [H|[H|[H|[H|[H|[H|[]]]]]]]; try discriminate;
    revert H; apply hex_char_not_newline.
Qed.

Lemma quote_unit_one_line c : ~ In 10%N (quote_unit c).
Proof.
  unfold quote_unit.
  repeat match goal with
         | |- context [if (?a =? ?b)%N then _ else _] =>
             destruct (N.eqb_spec a b)
         | |- context [if (?a <? ?b)%N then _ else _] =>
             destruct (N.ltb_spec a b)
         | |- context [if ?b then _ else _] => destruct b
         end;
    try apply unicode_escape_one_line;
    try (simpl; intuition discriminate).
Qed.

Lemma quote_chars_one_line : forall s, ~ In 10%N (quote_chars s).
Proof.
  assert (H : forall n s, (length s <= n)%nat -> ~ In 10%N (quote_chars s)).
  { induction n as [|n IH]; intros s Hl.
    - destruct s; [intros [] | simpl in Hl; lia].
    - destruct s as [|c s]; [intros []|]. simpl in Hl. cbn [quote_chars].
      destruct (is_high_surrogate c) eqn:Ec.
      + destruct s as [|d s]; [apply quote_unit_one_line|].
        destruct (is_low_surrogate d) eqn:Ed.
        * simpl in Hl. intros [Hc|[Hd|Hin]].
          -- subst c. discriminate.
          -- subst d. discriminate.
          -- revert Hin. apply IH. lia.
        * rewrite in_app_iff. intros [Hin|Hin].
          -- revert Hin. apply quote_unit_one_line.
          -- revert Hin. apply IH. lia.
      + rewrite in_app_iff. intros [Hin|Hin].
        * revert Hin. apply quote_unit_one_line.
        * revert Hin. apply IH. lia. }
  intros s. apply (H (length s)). lia.
Qed.

Lemma sse_line_shape text :
  sse_line text =
  lit "data: {" ++ [34%N] ++ lit "text" ++ [34%N] ++ lit ":" ++ [34%N]
  ++ quote_chars text ++ [34%N] ++ lit "}".
Proof.
  unfold sse_line. cbn [stringify map join fst snd]. unfold quote.
  change (quote_chars (lit "text")) with (lit "text").
  repeat rewrite <- app_assoc. reflexivity.
Qed.

Lemma sse_line_one_line text : ~ In 10%N (sse_line text).
Proof.
  rewrite sse_line_shape. rewrite !in_app_iff.
  intros H. repeat destruct H as [H|H];
    try (revert H; apply quote_chars_one_line);
    try (simpl in H; intuition discriminate).
Qed.

Section EndpointFacts.

Variable encode : jsstring -> list N.

Lemma pump_texts texts : forall w,
  pump encode (map Ok texts) w = (w ++ map (sse_event encode) texts, None).
Proof.
  induction texts as [|t texts IH]; intros w; simpl.
  - rewrite app_nil_r. reflexivity.
  - rewrite IH, <- app_assoc. reflexivity.
Qed.

Lemma pump_throw texts e rest : forall w,
  pump encode (map Ok texts ++ Throw e :: rest) w
  = (w ++ map (sse_event encode) texts, Some e).
Proof.
  induction texts as [|t texts IH]; intros w; simpl.
  - rewrite app_nil_r. reflexivity.
  - rewrite IH, <- app_assoc. reflexivity.
Qed.

(** When the [text()] of a chunk throws, the writer is aborted with that
    error after the events written so far. *)
Lemma relay_aborts model input texts e rest ending0 :
  model input = Ok (mkStream (map Ok texts ++ Throw e :: rest) ending0) ->
  relay encode model (Ok input)
  = mkWriter (map (sse_event encode) texts) (Aborted e).
Proof.
  intros Hmodel. unfold relay. rewrite Hmodel. cbn [chunks ending].
  rewrite pump_throw. reflexivity.
Qed.

(** C2.  When the model answers with a stream of text chunks that ends
    normally, the relay writes one event per chunk, in the order of the
    chunks, and then closes the writer.  The event of a chunk is the
    encoding of [data: ], the JSON serialization of [{text: chunk}] and two
    newlines, and the part before the newlines is a single line. *)
Theorem relay_one_event_per_chunk
    (model : model_input -> result model_stream)
    (input : model_input) (texts : list jsstring) :
  model input = Ok (mkStream (map Ok texts) (Ok tt)) ->
  relay encode model (Ok input) =
    mkWriter
      (map (fun text =>
              encode (lit "data: " ++ stringify (Obj [(lit "text", Str text)])
                      ++ [10; 10]%N))
           texts)
      Closed /\
  forall text,
    ~ In 10%N (lit "data: " ++ stringify (Obj [(lit "text", Str text)])).
Proof.
  intros Hmodel. split.
  - unfold relay. rewrite Hmodel. cbn [chunks ending].
    rewrite pump_texts. reflexivity.
  - exact sse_line_one_line.
Qed.

End EndpointFacts.

(** ** The reading loop of the client *)

Lemma str_eqb_eq a : forall b, str_eqb a b = true <-> a = b.
Proof.
  induction a as [|x a IH]; intros [|y b]; simpl; try (split; congruence).
  rewrite andb_true_iff, N.eqb_eq, IH. split; [intros [-> ->] | intros [= -> ->]]; auto.
Qed.

Lemma upsert_message_spec mid text prev :
  (exists msg, In msg (upsert_message mid text prev) /\ msg_id msg = mid) /\
  (forall msg, In msg (upsert_message mid text prev) ->
               msg_id msg = mid -> msg_content msg = text).
Proof.
  unfold upsert_message.
  destruct (find (fun msg => str_eqb (msg_id msg) mid) prev) as [found|] eqn:E.
  - apply find_some in E. destruct E as [Hin Hid]. split.
    + exists (mkMessage (msg_id found) (msg_role found) text (msg_imagePreview found)).
      split; [|apply str_eqb_eq; exact Hid].
      apply in_map_iff. exists found. rewrite Hid. auto.
    + intros msg Hmsg Hmid. apply in_map_iff in Hmsg.
      destruct Hmsg as (old & <- & _).
      destruct (str_eqb (msg_id old) mid) eqn:Eold; [reflexivity|].
      apply str_eqb_eq in Hmid. congruence.
  - split.
    + exists (mkMessage mid assistant text None). split; [|reflexivity].
      apply in_or_app. right. left. reflexivity.
    + intros msg Hmsg Hmid. apply in_app_or in Hmsg. destruct Hmsg as [Hold | [<- | []]].
      * apply (find_none _ _ E) in Hold. apply str_eqb_eq in Hmid. simpl in Hold. congruence.
      * reflexivity.
Qed.

Lemma fold_left_establish (A B : Type) (step : A -> B -> A)
    (P : A -> Prop) (fires : B -> bool) :
  (forall a b, fires b = true -> P (step a b)) ->
  (forall a b, fires b = false -> step a b = a) ->
  forall l a,
    (existsb fires l = true -> P (fold_left step l a)) /\
    (existsb fires l = false -> fold_left step l a = a).
Proof.
  intros Hfire Hskip. induction l as [|b l IH]; intros a; simpl.
  - split; [discriminate | reflexivity].
  - destruct (IH (step a b)) as [IHt IHf].
    destruct (existsb fires l) eqn:El.
    + rewrite orb_true_r. split; [auto | discriminate].
    + rewrite orb_false_r. rewrite (IHf eq_refl). split; intros Hb.
      * apply Hfire. exact Hb.
      * apply Hskip. exact Hb.
Qed.

Lemma existsb_flat_map (A B : Type) (f : B -> bool) (g : A -> list B) l :
  existsb f (flat_map g l) = existsb (fun x => existsb f (g x)) l.
Proof.
  induction l as [|x l IH]; simpl; [reflexivity|].
  rewrite existsb_app, IH. reflexivity.
Qed.

Lemma appended_string fields s :
  lookup (lit "text") fields = Some (Str s) -> appended (Obj fields) = s.
Proof.
  intros H. unfold appended, taken. simpl. rewrite H. simpl.
  destruct s; reflexivity.
Qed.

(** The text that the loop takes from a parsed line is its text field. *)
Lemma taken_text_field data : taken data = text_field data.
Proof.
  destruct data as [| b | repr | str | items | fields]; try reflexivity.
  unfold taken, text_field, get_prop.
  destruct (lookup (lit "text") fields); reflexivity.
Qed.

Lemma carries_text_taken data :
  carries_text data = match taken data with Some _ => true | None => false end.
Proof. reflexivity. Qed.

Lemma appended_taken l :
  concat (map appended l)
  = concat (flat_map (fun d => match taken d with Some t => [t] | None => [] end) l).
Proof.
  induction l as [|d l IH]; simpl; [reflexivity|].
  rewrite IH. unfold appended. destruct (taken d); reflexivity.
Qed.

Lemma carries_text_some l :
  existsb carries_text l
  = match flat_map (fun d => match taken d with Some t => [t] | None => [] end) l with
    | [] => false
    | _ :: _ => true
    end.
Proof.
  induction l as [|d l IH]; simpl; [reflexivity|].
  rewrite IH, carries_text_taken. destruct (taken d); reflexivity.
Qed.

(** *** The lines of a stream and the lines of its reads *)

Lemma split_lines_nonempty s : split_lines s <> [].
Proof.
  destruct s as [|c s]; simpl; [discriminate|].
  destruct (c =? 10)%N; [discriminate|].
  destruct (split_lines s); discriminate.
Qed.

Lemma lines_from_split text : forall line,
  lines_from line text
  = match split_lines text with
    | l :: ls => (line ++ l) :: ls
    | [] => [line]
    end.
Proof.
  induction text as [|c text IH]; intros line; simpl.
  - rewrite app_nil_r. reflexivity.
  - destruct (c =? 10)%N.
    + rewrite app_nil_r, IH.
      destruct (split_lines text) as [|l ls] eqn:E; [|reflexivity].
      exfalso. exact (split_lines_nonempty text E).
    + rewrite IH. destruct (split_lines text) as [|l ls].
      * reflexivity.
      * rewrite <- app_assoc. reflexivity.
Qed.

Lemma stream_lines_split text : stream_lines text = split_lines text.
Proof.
  unfold stream_lines. rewrite lines_from_split.
  destruct (split_lines text) as [|l ls] eqn:E; [|reflexivity].
  exfalso. exact (split_lines_nonempty text E).
Qed.

Lemma split_lines_app a b :
  split_lines (a ++ 10%N :: b) = split_lines a ++ split_lines b.
Proof.
  induction a as [|c a IH]; simpl; [reflexivity|].
  destruct (c =? 10)%N.
  - rewrite IH. reflexivity.
  - rewrite IH. destruct (split_lines a) as [|l ls] eqn:E.
    + exfalso. exact (split_lines_nonempty a E).
    + reflexivity.
Qed.

(** The payload is what stands after [data: ], on the lines that start
    with it and on no other. *)
Lemma data_payload_spec line rest :
  data_payload line = Some rest <-> line = lit "data: " ++ rest.
Proof.
  unfold data_payload. split.
  - destruct (str_eqb (firstn 6 line) (lit "data: ")) eqn:E; [|discriminate].
    intros [= <-]. apply str_eqb_eq in E.
    rewrite <- E. symmetry. apply firstn_skipn.
  - intros ->. reflexivity.
Qed.

Lemma data_payload_line line :
  data_payload line
  = if startsWith line (lit "data: ") then Some (slice_from line 6) else None.
Proof.
  destruct (startsWith line (lit "data: ")) eqn:E.
  - apply startsWith_spec in E. destruct E as [rest ->].
    rewrite (proj2 (data_payload_spec _ rest) eq_refl).
    unfold slice_from, clamp_index. change (6 <? 0)%Z with false. cbv iota.
    rewrite length_app. change (length (lit "data: ")) with 6%nat.
    change (Z.to_nat 6) with 6%nat.
    rewrite (Nat.min_l 6 (6 + length rest)) by lia. reflexivity.
  - destruct (data_payload line) as [rest|] eqn:P; [|reflexivity].
    apply data_payload_spec in P.
    assert (H : startsWith line (lit "data: ") = true)
      by (apply startsWith_spec; exists rest; exact P).
    congruence.
Qed.

Section ReaderFacts.

Variable JSON_parse : jsstring -> result value.
Variable decode : list N -> jsstring.
Variable messageId : jsstring.

Lemma process_line_text f st line :
  accumulatedText (process_line JSON_parse messageId f st line)
  = accumulatedText st
    ++ concat (map appended (parsed_of_line JSON_parse line)).
Proof.
  unfold process_line, parsed_of_line, appended, taken.
  destruct (JSON_parse (slice_from line 6)) as [data|e]; simpl;
    [|rewrite app_nil_r; reflexivity].
  destruct (get_prop data (lit "text")) as [text|]; simpl;
    [|rewrite !app_nil_r; reflexivity].
  destruct (truthy text); [|simpl; rewrite !app_nil_r; reflexivity].
  destruct (toString text) as [str|]; [|simpl; rewrite !app_nil_r; reflexivity].
  rewrite app_nil_r. destruct f; reflexivity.
Qed.

Lemma process_chunk_text f value : forall st,
  accumulatedText (process_chunk JSON_parse decode messageId f st value)
  = accumulatedText st
    ++ concat (map appended
                 (flat_map (parsed_of_line JSON_parse) (data_lines decode value))).
Proof.
  unfold process_chunk.
  induction (data_lines decode value) as [|line lines IH]; intros st; simpl.
  - rewrite app_nil_r. reflexivity.
  - rewrite IH, process_line_text, map_app, concat_app, app_assoc. reflexivity.
Qed.

Lemma read_stream_text f values : forall st,
  accumulatedText (read_stream JSON_parse decode messageId f st values)
  = accumulatedText st
    ++ concat (map appended (parsed_lines JSON_parse decode values)).
Proof.
  unfold read_stream, parsed_lines.
  induction values as [|value values IH]; intros st; simpl.
  - rewrite app_nil_r. reflexivity.
  - rewrite IH, process_chunk_text, map_app, concat_app, app_assoc. reflexivity.
Qed.

Lemma process_line_fires st line :
  existsb carries_text (parsed_of_line JSON_parse line) = true ->
  shows_analysis messageId (process_line JSON_parse messageId NewImage st line).
Proof.
  unfold process_line, parsed_of_line, carries_text, taken.
  destruct (JSON_parse (slice_from line 6)) as [data|e]; simpl; [|discriminate].
  destruct (get_prop data (lit "text")) as [text|]; simpl; [|discriminate].
  destruct (truthy text); [|discriminate].
  destruct (toString text) as [str|]; [|discriminate].
  intros _. apply upsert_message_spec.
Qed.

Lemma process_line_skips f st line :
  existsb carries_text (parsed_of_line JSON_parse line) = false ->
  process_line JSON_parse messageId f st line = st.
Proof.
  unfold process_line, parsed_of_line, carries_text, taken.
  destruct (JSON_parse (slice_from line 6)) as [data|e]; simpl; [|reflexivity].
  destruct (get_prop data (lit "text")) as [text|]; simpl; [|reflexivity].
  destruct (truthy text); [|reflexivity].
  destruct (toString text) as [str|]; [discriminate|reflexivity].
Qed.

Lemma process_chunk_fires value st :
  let parsed := flat_map (parsed_of_line JSON_parse) (data_lines decode value) in
  (existsb carries_text parsed = true ->
   shows_analysis messageId
     (process_chunk JSON_parse decode messageId NewImage st value)) /\
  (existsb carries_text parsed = false ->
   process_chunk JSON_parse decode messageId NewImage st value = st).
Proof.
  cbv zeta. rewrite existsb_flat_map. unfold process_chunk.
  apply fold_left_establish.
  - intros a b. apply process_line_fires.
  - intros a b. apply process_line_skips.
Qed.

(** The text fields of the lines of one read. *)
Lemma chunk_texts value :
  flat_map (fun d => match taken d with Some t => [t] | None => [] end)
    (flat_map (parsed_of_line JSON_parse) (data_lines decode value))
  = stream_texts JSON_parse (decode value).
Proof.
  unfold stream_texts, data_lines. rewrite stream_lines_split.
  induction (split_lines (decode value)) as [|l ls IH]; [reflexivity|].
  cbn [filter flat_map].
  rewrite data_payload_line, <- IH.
  destruct (startsWith l (lit "data: ")); [|reflexivity].
  cbn [flat_map]. rewrite flat_map_app. unfold parsed_of_line at 1.
  destruct (JSON_parse (slice_from l 6)) as [data|e]; [|reflexivity].
  cbn [flat_map]. rewrite app_nil_r, taken_text_field. reflexivity.
Qed.

(** A stream that is cut where a line ends has the lines of its parts. *)
Lemma stream_texts_app a b :
  ends_a_line a ->
  stream_texts JSON_parse (a ++ b)
  = stream_texts JSON_parse a ++ stream_texts JSON_parse b.
Proof.
  intros [-> | [body ->]]; [reflexivity|].
  rewrite <- app_assoc. unfold stream_texts.
  rewrite !stream_lines_split.
  change ([10%N] ++ b) with (10%N :: b).
  rewrite !split_lines_app, !flat_map_app. f_equal.
  simpl. rewrite app_nil_r. reflexivity.
Qed.

(** When every read ends where a line ends, the lines of the stream are
    the lines of the reads. *)
Lemma stream_texts_reads values :
  Forall (fun value => ends_a_line (decode value)) values ->
  stream_texts JSON_parse (concat (map decode values))
  = flat_map (fun d => match taken d with Some t => [t] | None => [] end)
      (parsed_lines JSON_parse decode values).
Proof.
  unfold parsed_lines.
  induction 1 as [|value values Hvalue _ IH]; simpl; [reflexivity|].
  rewrite (stream_texts_app _ _ Hvalue), IH, flat_map_app, chunk_texts.
  reflexivity.
Qed.

(** C3.  After any number of reads of the response to a new image, each
    of which ends where a line of the stream ends, the accumulated text is
    the concatenation, in the order of the stream, of the text fields of
    the [data: ] lines of the stream that parse; and once such a line has
    brought a text, the analysis message is on display and its content is
    [stripMainColorsSection] of the accumulated text (before that, the
    messages are as they were). *)
Theorem read_stream_accumulates
    (prev : list ChatMessage) (shown : list ColorInfo)
    (values : list (list N)) :
  Forall (fun value => ends_a_line (decode value)) values ->
  let st := read_stream JSON_parse decode messageId NewImage
              (mkReading [] prev shown) values in
  let texts := stream_texts JSON_parse (concat (map decode values)) in
  accumulatedText st = concat texts /\
  (texts <> [] ->
   (exists msg, In msg (messages st) /\
                msg_id msg = messageId ++ lit "-analysis") /\
   (forall msg, In msg (messages st) ->
                msg_id msg = messageId ++ lit "-analysis" ->
                msg_content msg = stripMainColorsSection (accumulatedText st))) /\
  (texts = [] -> messages st = prev).
Proof.
  intros Hends. cbv zeta. rewrite (stream_texts_reads values Hends).
  split; [rewrite read_stream_text; apply appended_taken|].
  pose proof (carries_text_some (parsed_lines JSON_parse decode values)) as Hsome.
  revert Hsome.
  unfold parsed_lines at 1. rewrite existsb_flat_map. unfold read_stream.
  pose proof (fold_left_establish _ _
                (process_chunk JSON_parse decode messageId NewImage)
                (shows_analysis messageId)
                (fun value => existsb carries_text
                   (flat_map (parsed_of_line JSON_parse) (data_lines decode value))))
    as H.
  destruct (H (fun a b => proj1 (process_chunk_fires b a))
              (fun a b => proj2 (process_chunk_fires b a))
              values (mkReading [] prev shown)) as [Ht Hf].
  intros Hsome. split.
  - intros Htexts. apply Ht. rewrite Hsome.
    destruct (flat_map _ (parsed_lines JSON_parse decode values));
      [contradiction|reflexivity].
  - intros Htexts. rewrite Htexts in Hsome. rewrite (Hf Hsome). reflexivity.
Qed.

End ReaderFacts.

(** C3 fails as stated: an event that arrives split over two reads is
    lost.  The stream read so far holds one [data: ] line, which parses and
    has the text [Sky]; the first read ends in the middle of it, so its
    first part does not parse and its second part does not start with
    [data: ]: nothing is accumulated and no message is shown. *)
Lemma read_stream_split_event :
  let event := lit "data: " ++ stringify (Obj [(lit "text", Str (lit "Sky"))])
               ++ [10; 10]%N in
  let values := [firstn 17 event; skipn 17 event] in
  let st := read_stream sample_parse (fun b => b) (lit "17") NewImage
              (mkReading [] [] []) values in
  concat (map (fun b : list N => b) values) = event /\
  stream_texts sample_parse (concat (map (fun b : list N => b) values))
  = [lit "Sky"] /\
  accumulatedText st = [] /\
  messages st = [].
Proof.
  cbv zeta. split; [reflexivity|]. split; [reflexivity|].
  split; reflexivity.
Qed.

(** ** Submitting a follow-up question *)

(** C7, as the code has it.  With no newly selected image and an uploaded
    image on record, a submission whose input is not blank posts the last
    uploaded image with mode ["followup"], the trimmed input as the
    question and, when the palette is not empty, the palette as JSON; a
    submission whose input is blank posts nothing. *)
Theorem submit_followup (s : submission) (image : File) (preview : jsstring) :
  selectedImage s = None ->
  lastUploadedImage s = Some (image, preview) ->
  (trim (input s) <> [] ->
   submit_request s =
   Some (FormBody
           ([(lit "image", EFile image);
             (lit "mode", EString (lit "followup"));
             (lit "question", EString (trim (input s)))]
            ++ match colorPalette s with
               | [] => []
               | _ :: _ =>
                   [(lit "currentPalette",
                     EString (stringify (Arr (map color_value (colorPalette s)))))]
               end))) /\
  (trim (input s) = [] -> submit_request s = None).
Proof.
  intros Hsel Hlast. unfold submit_request. rewrite Hsel, Hlast. split.
  - intros Hq. destruct (trim (input s)) as [|c q] eqn:E; [congruence|].
    cbn [is_empty andb negb option_map fst].
    destruct (colorPalette s); reflexivity.
  - intros ->. reflexivity.
Qed.

(** C7 fails as stated: a blank input with an image on record posts
    nothing. *)
Lemma submit_blank_followup :
  let image := mkFile (lit "photo.png") (lit "image/png") [137; 80; 78; 71]%N in
  let s := mkSubmission (lit "  ") None (Some (image, lit "data:image/png;base64,iVBORw==")) [] in
  selectedImage s = None /\
  lastUploadedImage s <> None /\
  submit_request s = None.
Proof.
  cbv zeta. split; [reflexivity|]. split; [discriminate | reflexivity].
Qed.

Section FollowUp.

Variable JSON_parse : jsstring -> result value.
Variable base64 : list N -> jsstring.
Variable type_error : thrown.

Lemma context_lines colors : forall first,
  sequence (mapi (context_line type_error) first (map color_value colors))
  = Ok (mapi (fun index c => palette_line index (name c) (hex c) (rgb c))
             first colors).
Proof.
  induction colors as [|c colors IH]; intros first; simpl; [reflexivity|].
  rewrite IH. reflexivity.
Qed.

(** The endpoint writes the palette it is sent back into the prompt, one
    line per color, when [JSON.parse] reads what [JSON.stringify] wrote. *)
Lemma paletteContext_render colors :
  JSON_parse (stringify (Arr (map color_value colors)))
  = Ok (Arr (map color_value colors)) ->
  paletteContext JSON_parse type_error
    (Val (Str (stringify (Arr (map color_value colors)))))
  = Ok ([10%N] ++ lit "Current color palette from previous analysis:"
        ++ [10%N] ++ render_palette colors ++ [10%N]).
Proof.
  intros Hparse. unfold paletteContext.
  assert (E : exists t, stringify (Arr (map color_value colors)) = 91%N :: t)
    by (eexists; reflexivity).
  destruct E as [t E].
  replace (truthy (@Val File (Str (stringify (Arr (map color_value colors))))))
    with true by (rewrite E; reflexivity).
  cbn [toString toString_value].
  rewrite Hparse, context_lines. reflexivity.
Qed.

(** The follow-up request reaches the model with the very image that was
    uploaded and with the question in the prompt. *)
Lemma POST_followup key req image question currentPalette context :
  key <> [] ->
  read_body type_error req
  = Ok (AFile image, Val (Str (lit "followup")), Val (Str question),
        currentPalette) ->
  paletteContext JSON_parse type_error currentPalette = Ok context ->
  POST JSON_parse base64 type_error (Some key) req
  = mkOutcome EventStream
      (Some (Ok (PromptAndImage
                   (followup_prompt question context)
                   (file_type image) (base64 (file_bytes image))))).
Proof.
  intros Hkey Hbody Hctx. unfold POST. destruct key; [congruence|].
  rewrite Hbody. cbn [truthy negb andb].
  unfold basePrompt.
  change (is_mode (Val (Str (lit "followup"))) "text-only") with false.
  change (is_mode (Val (Str (lit "followup"))) "full") with false.
  change (is_mode (Val (Str (lit "followup"))) "followup") with true.
  cbv iota. rewrite Hctx. cbn [toString toString_value]. unfold model_call.
  change (is_mode (Val (Str (lit "followup"))) "text-only") with false.
  reflexivity.
Qed.

(** From the chat to the model: what a follow-up submission posts makes the
    endpoint call the model with the last uploaded image, the question and
    the palette on display: no palette context for an empty palette, and
    for any other the palette written out, one numbered line per color. *)
Lemma followup_end_to_end (s : submission) image preview key header unused :
  selectedImage s = None ->
  lastUploadedImage s = Some (image, preview) ->
  trim (input s) <> [] ->
  key <> [] ->
  includes header (lit "multipart/form-data") = true ->
  (colorPalette s <> [] ->
   JSON_parse (stringify (Arr (map color_value (colorPalette s))))
   = Ok (Arr (map color_value (colorPalette s)))) ->
  exists formData,
    submit_request s = Some (FormBody formData) /\
    POST JSON_parse base64 type_error (Some key)
      (mkRequest (Some header) (Ok formData) unused)
    = mkOutcome EventStream
        (Some (Ok (PromptAndImage
                     (followup_prompt (trim (input s))
                        match colorPalette s with
                        | [] => []
                        | _ :: _ =>
                            [10%N]
                            ++ lit "Current color palette from previous analysis:"
                            ++ [10%N] ++ render_palette (colorPalette s)
                            ++ [10%N]
                        end)
                     (file_type image) (base64 (file_bytes image))))).
Proof.
  intros Hsel Hlast Hq Hkey Hheader Hparse.
  unfold submit_request. rewrite Hsel, Hlast.
  destruct (trim (input s)) as [|c q] eqn:E; [congruence|].
  cbn [is_empty andb negb option_map fst].
  destruct (colorPalette s) as [|c0 colors] eqn:Ep.
  - eexists. split; [reflexivity|].
    eapply POST_followup.
    + exact Hkey.
    + unfold read_body. cbn [content_type req_formData]. rewrite Hheader.
      reflexivity.
    + reflexivity.
  - eexists. split; [reflexivity|].
    eapply POST_followup.
    + exact Hkey.
    + unfold read_body. cbn [content_type req_formData]. rewrite Hheader.
      reflexivity.
    + apply paletteContext_render. apply Hparse. discriminate.
Qed.

(** With a key, a body that cannot be read is answered by the outer
    [catch]: 500 with the error, and no relay either. *)
Lemma POST_body_error key req e :
  key <> [] ->
  read_body type_error req = Throw e ->
  POST JSON_parse base64 type_error (Some key) req
  = mkOutcome (error_response e) None.
Proof.
  intros Hkey Hbody. unfold POST. destruct key; [congruence|].
  rewrite Hbody. reflexivity.
Qed.


End FollowUp.


(** ** The size of the palette *)

(** C1, as the code has it.  When the text is a description without digits
    followed by three lines of the prescribed form, [parseColorInfo] gives
    exactly three colors; in general it gives one color per match, so the
    number of colors follows the text. *)
Theorem palette_of_three_lines
    (description : jsstring) (c1 c2 c3 : ColorInfo) :
  Forall (fun x => is_digit x = false) description ->
  prescribed c1 -> prescribed c2 -> prescribed c3 ->
  length (parseColorInfo (description ++ render_palette [c1; c2; c3])) = 3%nat.
Proof.
  intros Hd H1 H2 H3.
  rewrite parseColorInfo_after by exact Hd.
  unfold render_palette.
  rewrite parseColorInfo_render
    by (constructor; [assumption | constructor; [assumption | constructor;
          [assumption | constructor]]]).
  reflexivity.
Qed.

(** C1 fails as stated: while the response is still arriving the palette
    has fewer than three colors, and a response that lists four colors
    gives four. *)
Lemma palette_not_three :
  let partial :=
    lit "A barn at dusk." ++ [10; 10]%N ++ lit "Main Colors:" ++ [10%N]
    ++ lit "1. Name: Barn Red, Hex: #7C0A02, RGB: (124, 10, 2)" ++ [10%N]
    ++ lit "2. Name: Dusk" in
  let four :=
    lit "1. Name: Red, Hex: #FF0000, RGB: (255, 0, 0)" ++ [10%N]
    ++ lit "2. Name: Green, Hex: #00FF00, RGB: (0, 255, 0)" ++ [10%N]
    ++ lit "3. Name: Blue, Hex: #0000FF, RGB: (0, 0, 255)" ++ [10%N]
    ++ lit "4. Name: White, Hex: #FFFFFF, RGB: (255, 255, 255)" in
  length (parseColorInfo partial) = 1%nat /\
  length (parseColorInfo four) = 4%nat /\
  length (parseColorInfo partial) <> 3%nat.
Proof.
  cbv zeta. split; [vm_compute; reflexivity|].
  split; [vm_compute; reflexivity|]. vm_compute. discriminate.
Qed.

(** ** The theorems at work on sample data *)

Lemma sample_red_prescribed : prescribed sample_red.
Proof.
  unfold sample_red.
  apply (prescribed_intro (lit "Red") (lit "FF0000") (lit "255") (lit "0") (lit "0"));
    try (split; [discriminate|]); repeat constructor; discriminate.
Defined.

Lemma sample_sky_prescribed : prescribed sample_sky.
Proof.
  unfold sample_sky.
  apply (prescribed_intro (lit "Sky Blue") (lit "87CEEB") (lit "135") (lit "206") (lit "235"));
    try (split; [discriminate|]); repeat constructor; discriminate.
Defined.

Lemma sample_moss_prescribed : prescribed sample_moss.
Proof.
  unfold sample_moss.
  apply (prescribed_intro (lit "Moss Green") (lit "4A5D23") (lit "74") (lit "93") (lit "35"));
    try (split; [discriminate|]); repeat constructor; discriminate.
Defined.

Lemma palette_of_three_lines_witness :
  let description := lit "A barn at dusk." ++ [10; 10]%N ++ lit "Main Colors:" ++ [10%N] in
  Forall (fun x => is_digit x = false) description /\
  length (parseColorInfo
            (description ++ render_palette [sample_red; sample_sky; sample_moss]))
  = 3%nat.
Proof.
  cbv zeta.
  assert (Hd : Forall (fun x => is_digit x = false)
                 (lit "A barn at dusk." ++ [10; 10]%N ++ lit "Main Colors:" ++ [10%N]))
    by (repeat constructor).
  split; [exact Hd|].
  exact (palette_of_three_lines _ sample_red sample_sky sample_moss Hd
           sample_red_prescribed sample_sky_prescribed sample_moss_prescribed).
Defined.

Lemma relay_one_event_per_chunk_witness :
  let encode := fun s : jsstring => s in
  let model := fun _ : model_input =>
    Ok (mkStream (map Ok [lit "Sky"; lit " Blue"]) (Ok tt)) in
  relay encode model (Ok (PromptOnly (lit "hello")))
  = mkWriter
      [lit "data: {" ++ quote (lit "text") ++ lit ":" ++ quote (lit "Sky")
         ++ lit "}" ++ [10; 10]%N;
       lit "data: {" ++ quote (lit "text") ++ lit ":" ++ quote (lit " Blue")
         ++ lit "}" ++ [10; 10]%N]
      Closed.
Proof.
  cbv zeta.
  exact (proj1 (relay_one_event_per_chunk (fun s => s)
                  (fun _ => Ok (mkStream (map Ok [lit "Sky"; lit " Blue"]) (Ok tt)))
                  (PromptOnly (lit "hello")) [lit "Sky"; lit " Blue"] eq_refl)).
Defined.

Lemma read_stream_accumulates_witness :
  let values :=
    [lit "data: " ++ stringify (Obj [(lit "text", Str (lit "Sky"))]) ++ [10; 10]%N;
     lit "data: " ++ stringify (Obj [(lit "text", Str (lit " Blue"))]) ++ [10; 10]%N] in
  let st := read_stream sample_parse (fun b => b) (lit "17") NewImage
              (mkReading [] [] []) values in
  Forall ends_a_line values /\
  stream_texts sample_parse (concat values) = [lit "Sky"; lit " Blue"] /\
  accumulatedText st = lit "Sky Blue" /\
  exists msg, In msg (messages st) /\ msg_id msg = lit "17-analysis" /\
              msg_content msg = lit "Sky Blue".
Proof.
  cbv zeta.
  assert (Hends : Forall (fun value : list N => ends_a_line ((fun b => b) value))
            [lit "data: " ++ stringify (Obj [(lit "text", Str (lit "Sky"))]) ++ [10; 10]%N;
             lit "data: " ++ stringify (Obj [(lit "text", Str (lit " Blue"))]) ++ [10; 10]%N]).
  { apply Forall_cons; [|apply Forall_cons; [|apply Forall_nil]]; right.
    - exists (lit "data: " ++ stringify (Obj [(lit "text", Str (lit "Sky"))]) ++ [10%N]).
      reflexivity.
    - exists (lit "data: " ++ stringify (Obj [(lit "text", Str (lit " Blue"))]) ++ [10%N]).
      reflexivity. }
  destruct (read_stream_accumulates sample_parse (fun b => b) (lit "17") [] []
              [lit "data: " ++ stringify (Obj [(lit "text", Str (lit "Sky"))]) ++ [10; 10]%N;
               lit "data: " ++ stringify (Obj [(lit "text", Str (lit " Blue"))]) ++ [10; 10]%N]
              Hends)
    as (Hacc & Hshow & _).
  cbv zeta in Hacc, Hshow.
  assert (Htexts : stream_texts sample_parse
            (concat (map (fun b : list N => b)
               [lit "data: " ++ stringify (Obj [(lit "text", Str (lit "Sky"))]) ++ [10; 10]%N;
                lit "data: " ++ stringify (Obj [(lit "text", Str (lit " Blue"))]) ++ [10; 10]%N]))
            = [lit "Sky"; lit " Blue"]) by reflexivity.
  split; [exact Hends|].
  split; [exact Htexts|].
  pose proof (eq_trans Hacc (f_equal (@concat N) Htexts)) as Hall.
  split; [exact Hall|].
  assert (Hne : stream_texts sample_parse
            (concat (map (fun b : list N => b)
               [lit "data: " ++ stringify (Obj [(lit "text", Str (lit "Sky"))]) ++ [10; 10]%N;
                lit "data: " ++ stringify (Obj [(lit "text", Str (lit " Blue"))]) ++ [10; 10]%N]))
            <> []) by (rewrite Htexts; discriminate).
  destruct (Hshow Hne) as ((msg & Hin & Hid) & Hcontent).
  exists msg. split; [exact Hin|]. split; [exact Hid|].
  rewrite (Hcontent msg Hin Hid). exact (f_equal stripMainColorsSection Hall).
Defined.

Lemma parseColorInfo_render_roundtrip_witness :
  Forall prescribed [sample_red; sample_sky; sample_moss] /\
  parseColorInfo (render_palette [sample_red; sample_sky; sample_moss])
  = [sample_red; sample_sky; sample_moss].
Proof.
  assert (H : Forall prescribed [sample_red; sample_sky; sample_moss]).
  { exact (Forall_cons _ sample_red_prescribed
             (Forall_cons _ sample_sky_prescribed
                (Forall_cons _ sample_moss_prescribed (Forall_nil _)))). }
  split; [exact H|].
  apply (proj2 (parseColorInfo_render_roundtrip _ H)).
  repeat constructor.
Defined.

Lemma parseColorInfo_hex_valid_witness :
  In sample_red (parseColorInfo (render_palette [sample_red])) /\
  exists h, hex sample_red = lit "#" ++ h /\ length h = 6%nat /\
            Forall (fun d => is_hex_digit d = true) h.
Proof.
  assert (H : In sample_red (parseColorInfo (render_palette [sample_red])))
    by (left; reflexivity).
  split; [exact H|].
  exact (parseColorInfo_hex_valid _ _ H).
Defined.

Lemma parseColorInfo_rgb_numbers_witness :
  In sample_sky (parseColorInfo (render_palette [sample_sky])) /\
  exists r g b, rgb_components (rgb sample_sky) = Some (r, g, b).
Proof.
  assert (H : In sample_sky (parseColorInfo (render_palette [sample_sky])))
    by (left; reflexivity).
  split; [exact H|].
  destruct (parseColorInfo_rgb_numbers _ _ H) as (_ & r & g & b & E & _).
  exists r, g, b. exact E.
Defined.

Lemma submit_followup_witness :
  let s := mkSubmission (lit " What is the darkest color? ") None
             (Some (sample_image, lit "data:image/png;base64,iVBORw=="))
             [sample_red] in
  selectedImage s = None /\
  trim (input s) <> [] /\
  submit_request s =
  Some (FormBody
          [(lit "image", EFile sample_image);
           (lit "mode", EString (lit "followup"));
           (lit "question", EString (lit "What is the darkest color?"));
           (lit "currentPalette",
            EString (stringify (Arr [color_value sample_red])))]).
Proof.
  cbv zeta. split; [reflexivity|]. split; [discriminate|].
  refine (proj1 (submit_followup
            (mkSubmission (lit " What is the darkest color? ") None
               (Some (sample_image, lit "data:image/png;base64,iVBORw=="))
               [sample_red])
            sample_image (lit "data:image/png;base64,iVBORw==")
            eq_refl eq_refl) _).
  discriminate.
Defined.


Lemma getContrastYIQ_spec_witness :
  Forall (fun d => is_hex_digit d = true) (lit "87CEEB") /\
  getContrastYIQ (lit "#87CEEB") = lit "#222" /\
  getContrastYIQ (lit "4A5D23") = lit "#fff" /\
  getContrastYIQ (lit "fff") = lit "#222".
Proof.
  assert (H1 : Forall (fun d => is_hex_digit d = true) (lit "87CEEB"))
    by (repeat constructor).
  assert (H2 : Forall (fun d => is_hex_digit d = true) (lit "4A5D23"))
    by (repeat constructor).
  assert (H3 : Forall (fun d => is_hex_digit d = true) (lit "fff"))
    by (repeat constructor).
  destruct getContrastYIQ_spec as (Hsix & Hthree & _).
  split; [exact H1|]. split; [|split].
  - exact (proj2 (Hsix _ _ _ _ _ _ H1)).
  - exact (proj1 (Hsix _ _ _ _ _ _ H2)).
  - exact (proj1 (Hthree _ _ _ H3)).
Defined.

(* ================================================================== *)
(** * Further properties of the code *)
(* ================================================================== *)

(** ** More on [parseColorInfo] *)

Lemma Forall_trim (P : N -> Prop) s : Forall P s -> Forall P (trim s).
Proof.
  intros H. destruct (trim_inside s) as (a & b & E). rewrite E in H.
  apply Forall_app in H. destruct H as [_ H].
  apply Forall_app in H. apply H.
Qed.

(** X1.  Every name that [parseColorInfo] produces is trimmed and holds no
    comma. *)
Theorem parseColorInfo_names_clean (text : jsstring) (c : ColorInfo) :
  In c (parseColorInfo text) ->
  trim (name c) = name c /\ Forall (fun x => x <> 44%N) (name c).
Proof.
  intros Hin. apply parseColorInfo_entries in Hin.
  destruct Hin as (w & cs & M & ->). apply colorRegex_shape in M.
  destruct M as (index & cname & h & r & g & b & -> & _ & _ & Hc & _).
  unfold color_of_match, group. cbn [capture Nat.eqb name].
  split; [apply trim_idem|].
  apply Forall_trim. revert Hc. apply Forall_impl.
  intros x Hx E. subst x. discriminate Hx.
Qed.

(** X2.  Text without any decimal digit holds no color, and in front of
    other text it does not change what is parsed from that text. *)
Theorem parseColorInfo_skips_text_without_digits (before text : jsstring) :
  Forall (fun c => is_digit c = false) before ->
  parseColorInfo before = [] /\
  parseColorInfo (before ++ text) = parseColorInfo text.
Proof.
  intros H. split; [|apply parseColorInfo_after; exact H].
  rewrite <- (app_nil_r before). rewrite parseColorInfo_after by exact H.
  reflexivity.
Qed.

Lemma colorRegex_min_length w cs :
  matches colorRegex w [] cs -> (32 <= length w)%nat.
Proof.
  intros M. cbv [colorRegex seq fold_right Lit map lit list_ascii_of_string N_of_ascii N_of_digits N.add N.mul] in M.
  invert_matches.
  repeat (rewrite length_app || cbn [length]). lia.
Qed.

Lemma parseColorInfo_size : forall text,
  (32 * length (parseColorInfo text) <= length text)%nat.
Proof.
  intros text. remember (length text) as n eqn:Hn.
  revert text Hn. induction n as [n IH] using lt_wf_ind. intros text Hn.
  rewrite parseColorInfo_unfold.
  destruct (exec colorRegex text) as [[m rest]|] eqn:E; [|simpl; lia].
  apply exec_sound in E. destruct E as (sk & w & Etext & M).
  apply colorRegex_min_length in M.
  assert (Hl : length text = (length sk + length w + length rest)%nat)
    by (rewrite Etext, !length_app; lia).
  specialize (IH (length rest) ltac:(lia) rest eq_refl).
  cbn [length]. lia.
Qed.

(** X3.  A color takes at least 32 characters of text: the palette of a
    text has at most a 32nd of its length, and a text under 32 characters
    has none. *)
Theorem parseColorInfo_bounded (text : jsstring) :
  (32 * length (parseColorInfo text) <= length text)%nat /\
  ((length text < 32)%nat -> parseColorInfo text = []).
Proof.
  pose proof (parseColorInfo_size text) as H. split; [exact H|].
  intros Hl. destruct (parseColorInfo text); [reflexivity | simpl in H; lia].
Qed.

(** ** More on [stripMainColorsSection] *)

Lemma search_unique p : forall s i,
  is_prefix p (skipn i s) -> (i <= length s)%nat ->
  (forall j, (j < i)%nat -> ~ is_prefix p (skipn j s)) ->
  search p s = Some i.
Proof.
  induction s as [|c s IH]; intros i Hp Hl Hmin.
  - simpl in Hl. assert (i = 0%nat) by lia. subst i. simpl in *.
    apply startsWith_spec in Hp. rewrite Hp. reflexivity.
  - destruct i as [|i].
    + simpl in Hp. apply startsWith_spec in Hp. cbn [search]. rewrite Hp. reflexivity.
    + cbn [search].
      destruct (startsWith (c :: s) p) eqn:E.
      * exfalso. apply (Hmin 0%nat); [lia|]. apply startsWith_spec. exact E.
      * rewrite (IH i); [reflexivity | exact Hp | simpl in Hl; lia |].
        intros j Hj. apply (Hmin (S j)). lia.
Qed.

Lemma is_prefix_app_long p s more :
  (length p <= length s)%nat -> is_prefix p (s ++ more) -> is_prefix p s.
Proof.
  intros Hl [b Hb].
  exists (skipn (length p) s).
  assert (E : firstn (length p) (s ++ more) = p).
  { rewrite Hb, firstn_app, Nat.sub_diag, firstn_all. simpl. apply app_nil_r. }
  rewrite firstn_app in E.
  replace (length p - length s)%nat with 0%nat in E by lia.
  simpl in E. rewrite app_nil_r in E.
  rewrite <- E at 1. symmetry. apply firstn_skipn.
Qed.

(** The first occurrence stays the first when text is added at the end. *)
Lemma search_app p s more i :
  search p s = Some i -> search p (s ++ more) = Some i.
Proof.
  intros Hs. destruct (search_first _ _ _ Hs) as ([b Hb] & Hl & Hmin).
  assert (Hlen : (i + length p <= length s)%nat).
  { rewrite <- (firstn_skipn i s) at 1. rewrite Hb, !length_app.
    rewrite firstn_length_le by exact Hl. lia. }
  apply search_unique.
  - rewrite skipn_app. replace (i - length s)%nat with 0%nat by lia.
    simpl. rewrite Hb. exists (b ++ more). rewrite <- !app_assoc. reflexivity.
  - rewrite length_app. lia.
  - intros j Hj Hp. apply (Hmin j Hj).
    rewrite skipn_app in Hp. replace (j - length s)%nat with 0%nat in Hp by lia.
    simpl in Hp. apply is_prefix_app_long in Hp; [exact Hp|].
    rewrite length_skipn. lia.
Qed.

(** X4.  Once ["Main Colors:"] has arrived, the text that streams in after
    it no longer changes what [stripMainColorsSection] shows. *)
Theorem stripMainColorsSection_settles (text more : jsstring) :
  occurs (lit "Main Colors:") text ->
  stripMainColorsSection (text ++ more) = stripMainColorsSection text.
Proof.
  intros Hocc.
  destruct (strip_cases text) as [(i & Hs & ->) | (Hs & _)].
  - destruct (strip_cases (text ++ more)) as [(j & Hs' & ->) | (Hs' & _)].
    + rewrite (search_app _ _ more _ Hs) in Hs'. injection Hs' as <-.
      destruct (search_first _ _ _ Hs) as (_ & Hl & _).
      rewrite firstn_app. replace (i - length text)%nat with 0%nat by lia.
      simpl. rewrite app_nil_r. reflexivity.
    + rewrite (search_app _ _ more _ Hs) in Hs'. discriminate.
  - exfalso. revert Hocc. apply search_none. exact Hs.
Qed.

Lemma dropWhile_app_all p a b :
  Forall (fun c => p c = true) a -> dropWhile p (a ++ b) = dropWhile p b.
Proof.
  induction 1 as [|c a Hc _ IH]; simpl; [reflexivity|]. rewrite Hc. exact IH.
Qed.

Lemma dropWhile_app_stop p s w c t :
  dropWhile p s = c :: t -> dropWhile p (s ++ w) = (c :: t) ++ w.
Proof.
  induction s as [|x s IH]; simpl; [discriminate|].
  destruct (p x); [exact IH | intros [= <- <-]; reflexivity].
Qed.

(** White space at the end does not survive [trim]. *)
Lemma trim_app_space s w :
  Forall (fun c => is_space c = true) w -> trim (s ++ w) = trim s.
Proof.
  intros Hw. unfold trim, trimStart.
  assert (Hrev : Forall (fun c => is_space c = true) (rev w))
    by (apply Forall_rev; exact Hw).
  destruct (dropWhile is_space s) as [|c t] eqn:E.
  - assert (Hs : dropWhile is_space (s ++ w) = []).
    { clear Hrev. induction s as [|x s IH]; simpl in *.
      - rewrite <- (app_nil_r w), dropWhile_app_all by exact Hw. reflexivity.
      - destruct (is_space x); [apply IH; exact E | discriminate]. }
    rewrite Hs. reflexivity.
  - rewrite (dropWhile_app_stop _ _ w _ _ E). unfold trimEnd.
    rewrite rev_app_distr, dropWhile_app_all by exact Hrev. reflexivity.
Qed.

(** An occurrence of [p] cannot lie across a character that [p] does not
    hold. *)
Lemma occurrence_avoids p c a rest j :
  ~ In c p -> is_prefix p (skipn j (a ++ c :: rest)) ->
  (j + length p <= length a)%nat \/ (length a < j)%nat.
Proof.
  intros Hc [b Hb].
  destruct (Nat.le_gt_cases (j + length p) (length a)) as [|Hover]; [left; assumption|].
  destruct (Nat.lt_ge_cases (length a) j) as [|Hj]; [right; assumption|].
  exfalso. apply Hc.
  assert (E : nth_error (skipn j (a ++ c :: rest)) (length a - j) = Some c).
  { rewrite nth_error_skipn. replace (j + (length a - j))%nat with (length a) by lia.
    rewrite nth_error_app2 by lia. rewrite Nat.sub_diag. reflexivity. }
  rewrite Hb, nth_error_app1 in E by lia.
  apply nth_error_In in E. exact E.
Qed.

Lemma occurs_inside p a b j :
  is_prefix p (skipn j (a ++ b)) -> (j + length p <= length a)%nat ->
  occurs p a.
Proof.
  intros Hp Hl. rewrite skipn_app in Hp.
  replace (j - length a)%nat with 0%nat in Hp by lia. simpl in Hp.
  apply is_prefix_app_long in Hp; [|rewrite length_skipn; lia].
  destruct Hp as [t Ht]. exists (firstn j a), t.
  rewrite <- Ht. symmetry. apply firstn_skipn.
Qed.

(** Where the section starts in a response of the full format. *)
Lemma search_full_format description rest :
  ~ occurs (lit "Main Colors:") description ->
  search (lit "Main Colors:")
         (description ++ [10; 10]%N ++ lit "Main Colors:" ++ rest)
  = Some (length description + 2)%nat.
Proof.
  intros Hfree.
  assert (Hnl : ~ In 10%N (lit "Main Colors:")).
  { simpl. intros H. repeat (destruct H as [H|H]; [discriminate H|]). exact H. }
  apply search_unique.
  - rewrite skipn_app, skipn_all2 by lia.
    replace (length description + 2 - length description)%nat with 2%nat by lia.
    simpl. eexists. reflexivity.
  - rewrite !length_app. simpl. lia.
  - intros j Hj Hp.
    pose proof (occurrence_avoids _ _ description _ j Hnl Hp) as H1.
    assert (Hp' : is_prefix (lit "Main Colors:")
                    (skipn j ((description ++ [10%N]) ++ 10%N :: lit "Main Colors:" ++ rest))).
    { rewrite <- app_assoc. exact Hp. }
    pose proof (occurrence_avoids _ _ (description ++ [10%N]) _ j Hnl Hp') as H2.
    rewrite length_app in H2. simpl in H2.
    destruct H1 as [H1 | H1]; [|lia].
    apply Hfree. eapply occurs_inside; eassumption.
Qed.

(** The two readings of a response of the full format. *)
Lemma full_format_parts (description : jsstring) (colors : list ColorInfo) :
  ~ occurs (lit "Main Colors:") description ->
  Forall (fun c => is_digit c = false) description ->
  Forall prescribed colors ->
  let text := description ++ [10; 10]%N ++ lit "Main Colors:" ++ [10%N]
              ++ render_palette colors in
  stripMainColorsSection text = trim description /\
  parseColorInfo text = map with_trimmed_name colors.
Proof.
  intros Hfree Hdigits Hcolors. cbv zeta. split.
  - destruct (strip_cases
                (description ++ [10; 10]%N ++ lit "Main Colors:" ++ [10%N]
                 ++ render_palette colors))
      as [(i & Hs & ->) | (Hs & _)].
    + rewrite search_full_format in Hs by exact Hfree. injection Hs as <-.
      rewrite firstn_app, firstn_all2 by lia.
      replace (length description + 2 - length description)%nat with 2%nat by lia.
      cbn [firstn List.app]. apply trim_app_space. repeat constructor.
    + rewrite search_full_format in Hs by exact Hfree. discriminate.
  - rewrite parseColorInfo_after by exact Hdigits.
    change ([10; 10]%N ++ lit "Main Colors:" ++ [10%N] ++ render_palette colors)
      with (([10; 10]%N ++ lit "Main Colors:" ++ [10%N]) ++ render_palette colors).
    rewrite parseColorInfo_after by (repeat constructor).
    apply parseColorInfo_render. exact Hcolors.
Qed.

(** X5.  A response in the format that the full prompt prescribes, a
    description, a blank line, ["Main Colors:"] and one line per color, is
    taken apart as intended: the message shows the trimmed description and
    the palette holds the colors of the lines, in order. *)
Theorem full_response_split (description : jsstring) (colors : list ColorInfo) :
  ~ occurs (lit "Main Colors:") description ->
  Forall (fun c => is_digit c = false) description ->
  Forall prescribed colors ->
  let text := description ++ [10; 10]%N ++ lit "Main Colors:" ++ [10%N]
              ++ render_palette colors in
  stripMainColorsSection text = trim description /\
  parseColorInfo text = map with_trimmed_name colors.
Proof.
  intros Hfree Hdigits Hcolors. apply full_format_parts; assumption.
Qed.

(** ** More on [getContrastYIQ] *)

(** The comparison of the luma with 128, in integers. *)
Lemma contrast_for_threshold r g b :
  contrast_for r g b =
  if (128000 <=? 299 * r + 587 * g + 114 * b)%Z then lit "#222" else lit "#fff".
Proof.
  unfold contrast_for.
  set (x := (299 * r + 587 * g + 114 * b)%Z).
  destruct (Z.leb_spec 128000 x) as [H|H].
  - replace (Qle_bool (inject_Z 128) (inject_Z x / inject_Z 1000)) with true;
      [reflexivity|].
    symmetry. apply Qle_bool_iff. unfold Qle, Qdiv, Qmult, Qinv, inject_Z. simpl. lia.
  - replace (Qle_bool (inject_Z 128) (inject_Z x / inject_Z 1000)) with false;
      [reflexivity|].
    symmetry. apply not_true_iff_false. rewrite Qle_bool_iff.
    unfold Qle, Qdiv, Qmult, Qinv, inject_Z. simpl. lia.
Qed.

(** X6.  A brighter color never gets the light text: when the three bytes
    of a six-digit color are at least those of a color that gets ["#222"],
    it gets ["#222"] too. *)
Theorem getContrastYIQ_monotone (d1 d2 d3 d4 d5 d6 e1 e2 e3 e4 e5 e6 : N) :
  Forall (fun d => is_hex_digit d = true) [d1; d2; d3; d4; d5; d6] ->
  Forall (fun d => is_hex_digit d = true) [e1; e2; e3; e4; e5; e6] ->
  (byte_value d1 d2 <= byte_value e1 e2)%Z ->
  (byte_value d3 d4 <= byte_value e3 e4)%Z ->
  (byte_value d5 d6 <= byte_value e5 e6)%Z ->
  getContrastYIQ (lit "#" ++ [d1; d2; d3; d4; d5; d6]) = lit "#222" ->
  getContrastYIQ (lit "#" ++ [e1; e2; e3; e4; e5; e6]) = lit "#222".
Proof.
  intros Hd He Hr Hg Hb.
  rewrite (getContrastYIQ_by_bytes _ _ _ _ _ _ Hd
             (lit "#" ++ [d1; d2; d3; d4; d5; d6]) eq_refl).
  rewrite (getContrastYIQ_by_bytes _ _ _ _ _ _ He
             (lit "#" ++ [e1; e2; e3; e4; e5; e6]) eq_refl).
  rewrite !contrast_for_threshold.
  destruct (Z.leb_spec 128000
              (299 * byte_value d1 d2 + 587 * byte_value d3 d4 + 114 * byte_value d5 d6))
    as [H1|H1]; [|discriminate].
  intros _.
  destruct (Z.leb_spec 128000
              (299 * byte_value e1 e2 + 587 * byte_value e3 e4 + 114 * byte_value e5 e6))
    as [H2|H2]; [reflexivity | lia].
Qed.

Lemma parseInt16_empty : parseInt16 [] = None.
Proof. reflexivity. Qed.

(** X7.  A color string that, without its first [#], has fewer than five
    characters and not exactly three has no blue byte to read: the luma is
    not a number and the answer is ["#fff"]. *)
Theorem getContrastYIQ_too_short (hex0 : jsstring) :
  (length (replace hex0 (lit "#") []) <= 4)%nat ->
  length (replace hex0 (lit "#") []) <> 3%nat ->
  getContrastYIQ hex0 = lit "#fff".
Proof.
  intros Hl H3. unfold getContrastYIQ, yiq_of.
  destruct (replace hex0 (lit "#") []) as [|c0 [|c1 [|c2 [|c3 [|c4 t]]]]];
    simpl in Hl, H3; try lia; try congruence;
    cbn [substr firstn skipn]; rewrite parseInt16_empty;
    repeat match goal with
           | |- context [parseInt16 (?x :: ?t)] => destruct (parseInt16 (x :: t))
           end; reflexivity.
Qed.

(** X8.  The text color of every chip of a parsed palette follows the luma
    rule: the [hex] of a color that [parseColorInfo] produces is always read
    as three bytes, never as "not a number". *)
Theorem parsed_color_contrast (text : jsstring) (c : ColorInfo) :
  In c (parseColorInfo text) ->
  exists d1 d2 d3 d4 d5 d6,
    hex c = lit "#" ++ [d1; d2; d3; d4; d5; d6] /\
    getContrastYIQ (hex c) =
    if (128000 <=? 299 * byte_value d1 d2 + 587 * byte_value d3 d4
                   + 114 * byte_value d5 d6)%Z
    then lit "#222" else lit "#fff".
Proof.
  intros Hin. apply parseColorInfo_entries in Hin.
  destruct Hin as (w & cs & M & ->). apply colorRegex_shape in M.
  destruct M as (index & cname & h & r & g & b & -> & _ & _ & _ & Hl & Hh & _).
  destruct h as [|d1 [|d2 [|d3 [|d4 [|d5 [|d6 [|]]]]]]]; try discriminate Hl.
  exists d1, d2, d3, d4, d5, d6.
  unfold color_of_match, group. cbn [capture Nat.eqb hex].
  split; [reflexivity|].
  rewrite <- contrast_for_threshold.
  apply (getContrastYIQ_by_bytes _ _ _ _ _ _ Hh). reflexivity.
Qed.

(** ** More on the relay and on the reading loop *)

Section RelayFacts.

Variable encode : jsstring -> list N.

Lemma pump_leading cs : forall w,
  fst (pump encode cs w) = w ++ map (sse_event encode) (leading_texts cs) /\
  (snd (pump encode cs w) = None <-> map Ok (leading_texts cs) = cs).
Proof.
  induction cs as [|[text|e] cs IH]; intros w; simpl.
  - rewrite app_nil_r. split; [reflexivity | split; reflexivity].
  - destruct (IH (w ++ [sse_event encode text])) as [E1 E2].
    rewrite E1, <- app_assoc. split; [reflexivity|].
    rewrite E2. split; [intros ->; reflexivity | intros [= H]; exact H].
  - rewrite app_nil_r. split; [reflexivity | split; discriminate].
Qed.

(** X9.  Whatever the model's stream does, the relay writes the events of
    the chunks before the first failure, in order, and nothing else; it
    closes the writer exactly when no [text()] throws and the stream ends
    normally, and aborts it otherwise.  When the call of the model itself
    fails, nothing is written. *)
Theorem relay_writes_leading_chunks
    (model : model_input -> result model_stream) (input : model_input) :
  (forall stream,
      model input = Ok stream ->
      written (relay encode model (Ok input))
      = map (sse_event encode) (leading_texts (chunks stream)) /\
      (status (relay encode model (Ok input)) = Closed <->
       map Ok (leading_texts (chunks stream)) = chunks stream /\
       exists u, ending stream = Ok u)) /\
  (forall e,
      model input = Throw e ->
      relay encode model (Ok input) = mkWriter [] (Aborted e)).
Proof.
  split.
  - intros stream Hmodel. unfold relay. rewrite Hmodel.
    destruct (pump_leading (chunks stream) []) as [E1 E2].
    destruct (pump encode (chunks stream) []) as [w [e|]]; simpl in *.
    + split; [exact E1|]. split; [discriminate|].
      intros [H _]. apply E2 in H. discriminate.
    + destruct (ending stream) as [u|e]; simpl.
      * split; [exact E1|]. split; [|reflexivity].
        intros _. split; [apply E2; reflexivity | exists u; reflexivity].
      * split; [exact E1|]. split; [discriminate|].
        intros [_ [u Hu]]. discriminate.
  - intros e Hmodel. unfold relay. rewrite Hmodel. reflexivity.
Qed.

End RelayFacts.

Lemma split_lines_line l rest :
  ~ In 10%N l -> split_lines (l ++ 10%N :: rest) = l :: split_lines rest.
Proof.
  induction l as [|c l IH]; intros Hl; simpl.
  - reflexivity.
  - destruct (N.eqb_spec c 10) as [->|_]; [exfalso; apply Hl; left; reflexivity|].
    rewrite IH by (intros H; apply Hl; right; exact H). reflexivity.
Qed.

Lemma sse_line_starts text : startsWith (sse_line text) (lit "data: ") = true.
Proof. reflexivity. Qed.

Lemma sse_line_payload text :
  slice_from (sse_line text) 6 = stringify (Obj [(lit "text", Str text)]).
Proof.
  unfold slice_from, clamp_index. change (6 <? 0)%Z with false. cbv iota.
  unfold sse_line. rewrite length_app.
  change (length (lit "data: ")) with 6%nat.
  rewrite Nat.min_l by (change (Z.to_nat 6) with 6%nat; lia).
  reflexivity.
Qed.

Section PipelineFacts.

Variable JSON_parse : jsstring -> result value.
Variable encode : jsstring -> list N.
Variable decode : list N -> jsstring.
Variable messageId : jsstring.

Lemma data_lines_events texts :
  decode (concat (map (sse_event encode) texts))
  = concat (map event_text texts) ->
  data_lines decode (concat (map (sse_event encode) texts))
  = map sse_line texts.
Proof.
  intros Hdecode. unfold data_lines. rewrite Hdecode. clear Hdecode.
  induction texts as [|t texts IH]; [reflexivity|].
  cbn [map concat]. unfold event_text at 1. rewrite <- app_assoc.
  change (([10; 10]%N ++ concat (map event_text texts)))
    with (10%N :: [] ++ 10%N :: concat (map event_text texts)).
  rewrite split_lines_line by apply sse_line_one_line.
  rewrite split_lines_line by (intros []).
  cbn [filter]. rewrite sse_line_starts.
  change (startsWith [] (lit "data: ")) with false. cbv iota.
  rewrite IH. reflexivity.
Qed.

Lemma parsed_events texts :
  Forall (fun t => JSON_parse (stringify (Obj [(lit "text", Str t)]))
                   = Ok (Obj [(lit "text", Str t)])) texts ->
  concat (map appended
            (flat_map (parsed_of_line JSON_parse) (map sse_line texts)))
  = concat texts.
Proof.
  induction 1 as [|t texts Ht _ IH]; [reflexivity|].
  cbn [map flat_map]. unfold parsed_of_line at 1.
  rewrite sse_line_payload, Ht. cbn [List.app map concat].
  rewrite IH. f_equal. apply appended_string. reflexivity.
Qed.

(** The text accumulated from whole events. *)
Lemma read_stream_events (f : flow) (st : reading)
    (groups : list (list jsstring)) :
  Forall (fun texts =>
            decode (concat (map (sse_event encode) texts))
            = concat (map event_text texts)) groups ->
  Forall (fun t => JSON_parse (stringify (Obj [(lit "text", Str t)]))
                   = Ok (Obj [(lit "text", Str t)])) (concat groups) ->
  accumulatedText
    (read_stream JSON_parse decode messageId f st
       (map (fun texts => concat (map (sse_event encode) texts)) groups))
  = accumulatedText st ++ concat (concat groups).
Proof.
  intros Hdecode Hparse. rewrite read_stream_text. f_equal.
  unfold parsed_lines.
  induction Hdecode as [|texts groups Hd _ IH]; [reflexivity|].
  cbn [map flat_map concat] in *. apply Forall_app in Hparse.
  destruct Hparse as [Ht Hrest].
  rewrite map_app, !concat_app, (IH Hrest). f_equal.
  rewrite (data_lines_events _ Hd). apply parsed_events. exact Ht.
Qed.

(** X10.  From the model to the screen: when every chunk that the client
    reads holds whole events of the relay, decodes to their text, and
    [JSON.parse] reads back what [JSON.stringify] wrote, the text that the
    client accumulates is the concatenation of the model's chunks, in
    order, however the events are grouped into the chunks read. *)
Theorem stream_end_to_end (f : flow) (st : reading)
    (groups : list (list jsstring)) :
  Forall (fun texts =>
            decode (concat (map (sse_event encode) texts))
            = concat (map event_text texts)) groups ->
  Forall (fun t => JSON_parse (stringify (Obj [(lit "text", Str t)]))
                   = Ok (Obj [(lit "text", Str t)])) (concat groups) ->
  accumulatedText
    (read_stream JSON_parse decode messageId f st
       (map (fun texts => concat (map (sse_event encode) texts)) groups))
  = accumulatedText st ++ concat (concat groups).
Proof.
  apply read_stream_events.
Qed.

(** The accumulated text only grows: what has been accumulated after some
    chunks is a prefix of what is accumulated after more. *)
Lemma accumulatedText_grows (f : flow) (st : reading)
    (values more : list (list N)) :
  is_prefix
    (accumulatedText (read_stream JSON_parse decode messageId f st values))
    (accumulatedText
       (read_stream JSON_parse decode messageId f st (values ++ more))).
Proof.
  unfold read_stream at 2. rewrite fold_left_app.
  fold (read_stream JSON_parse decode messageId f st values).
  fold (read_stream JSON_parse decode messageId f
          (read_stream JSON_parse decode messageId f st values) more).
  rewrite (read_stream_text _ _ _ f more). eexists. reflexivity.
Qed.

End PipelineFacts.

(** ** The palette and the messages while reading *)

Lemma fold_left_invariant (A B : Type) (step : A -> B -> A)
    (I : A -> Prop) (ok : B -> Prop) :
  (forall a b, I a -> ok b -> I (step a b)) ->
  forall l a, I a -> Forall ok l -> I (fold_left step l a).
Proof.
  intros Hstep. induction l as [|b l IH]; intros a Ha Hl; simpl; [exact Ha|].
  inversion Hl; subst. apply IH; auto.
Qed.

Section PaletteFacts.

Variable JSON_parse : jsstring -> result value.
Variable decode : list N -> jsstring.
Variable messageId : jsstring.

Lemma process_line_palette f st line :
  palette (process_line JSON_parse messageId f st line) = palette st \/
  (palette (process_line JSON_parse messageId f st line) <> [] /\
   palette (process_line JSON_parse messageId f st line)
   = parseColorInfo
       (accumulatedText (process_line JSON_parse messageId f st line))).
Proof.
  unfold process_line.
  destruct (JSON_parse (slice_from line 6)) as [data|e]; [|left; reflexivity].
  destruct (get_prop data (lit "text")) as [text|]; [|left; reflexivity].
  destruct (truthy text); [|left; reflexivity].
  destruct (toString text) as [str|]; [|left; reflexivity].
  destruct f; cbn [palette accumulatedText]; try (left; reflexivity);
    destruct (parseColorInfo (accumulatedText st ++ str)) as [|c cs] eqn:E;
    cbn [length Nat.ltb Nat.leb]; try (left; reflexivity);
    right; (split; [discriminate | reflexivity]).
Qed.

(** X12.  Reading a response never empties the palette: after any chunks it
    is the palette from before, or the non-empty result of
    [parseColorInfo] on some text; so a palette that was on display stays
    on display. *)
Theorem reading_keeps_a_palette (f : flow) (st : reading)
    (values : list (list N)) :
  let st' := read_stream JSON_parse decode messageId f st values in
  (palette st' = palette st \/
   (palette st' <> [] /\ exists text, palette st' = parseColorInfo text)) /\
  (palette st <> [] -> palette st' <> []).
Proof.
  cbv zeta.
  assert (H : palette (read_stream JSON_parse decode messageId f st values)
              = palette st \/
              (palette (read_stream JSON_parse decode messageId f st values) <> [] /\
               exists text,
                 palette (read_stream JSON_parse decode messageId f st values)
                 = parseColorInfo text)).
  { unfold read_stream.
    apply (fold_left_invariant _ _ (process_chunk JSON_parse decode messageId f)
             (fun s => palette s = palette st \/
                       (palette s <> [] /\ exists t, palette s = parseColorInfo t))
             (fun _ => True)); [| left; reflexivity | apply Forall_forall; auto].
    intros a value Ha _. unfold process_chunk.
    apply (fold_left_invariant _ _ (process_line JSON_parse messageId f)
             (fun s => palette s = palette st \/
                       (palette s <> [] /\ exists t, palette s = parseColorInfo t))
             (fun _ => True)); [| exact Ha | apply Forall_forall; auto].
    intros s line Hs _.
    destruct (process_line_palette f s line) as [E | [Hne E]].
    - rewrite E. exact Hs.
    - right. split; [exact Hne | eexists; exact E]. }
  split; [exact H|].
  intros Hne. destruct H as [-> | [H _]]; assumption.
Qed.

Lemma process_line_text_only st line :
  palette (process_line JSON_parse messageId TextOnly st line) = palette st.
Proof.
  unfold process_line.
  destruct (JSON_parse (slice_from line 6)) as [data|e]; [|reflexivity].
  destruct (get_prop data (lit "text")) as [text|]; [|reflexivity].
  destruct (truthy text); [|reflexivity].
  destruct (toString text); reflexivity.
Qed.

Lemma process_line_response f st line :
  f <> NewImage ->
  existsb carries_text (parsed_of_line JSON_parse line) = true ->
  let st' := process_line JSON_parse messageId f st line in
  (exists msg, In msg (messages st') /\
               msg_id msg = messageId ++ lit "-response") /\
  (forall msg, In msg (messages st') ->
               msg_id msg = messageId ++ lit "-response" ->
               msg_content msg =
               match f with
               | TextOnly => trim (accumulatedText st')
               | _ => stripMainColorsSection (accumulatedText st')
               end).
Proof.
  intros Hf. unfold process_line, parsed_of_line, carries_text, taken.
  destruct (JSON_parse (slice_from line 6)) as [data|e]; simpl; [|discriminate].
  destruct (get_prop data (lit "text")) as [text|]; simpl; [|discriminate].
  destruct (truthy text); [|discriminate].
  destruct (toString text) as [str|]; [|discriminate].
  intros _. destruct f; [congruence | |]; apply upsert_message_spec.
Qed.

(** X13.  A question without an image leaves the palette alone, whatever
    the answer says; and once a line has brought a text that the loop
    takes (a truthy one that can be made a string), the response message
    of a follow-up shows [stripMainColorsSection] of the accumulated text
    and that of a question without image its [trim]. *)
Theorem response_message_and_palette (f : flow) (st : reading)
    (values : list (list N)) :
  f <> NewImage ->
  let st' := read_stream JSON_parse decode messageId f st values in
  (f = TextOnly -> palette st' = palette st) /\
  (existsb carries_text (parsed_lines JSON_parse decode values) = true ->
   (exists msg, In msg (messages st') /\
                msg_id msg = messageId ++ lit "-response") /\
   (forall msg, In msg (messages st') ->
                msg_id msg = messageId ++ lit "-response" ->
                msg_content msg =
                match f with
                | TextOnly => trim (accumulatedText st')
                | _ => stripMainColorsSection (accumulatedText st')
                end)).
Proof.
  intros Hf. cbv zeta. split.
  - intros ->. unfold read_stream.
    apply (fold_left_invariant _ _ (process_chunk JSON_parse decode messageId TextOnly)
             (fun s => palette s = palette st) (fun _ => True));
      [| reflexivity | apply Forall_forall; auto].
    intros a value Ha _. unfold process_chunk.
    apply (fold_left_invariant _ _ (process_line JSON_parse messageId TextOnly)
             (fun s => palette s = palette st) (fun _ => True));
      [| exact Ha | apply Forall_forall; auto].
    intros s line Hs _. rewrite process_line_text_only. exact Hs.
  - unfold parsed_lines. rewrite existsb_flat_map. unfold read_stream.
    set (P := fun s : reading =>
      (exists msg, In msg (messages s) /\
                   msg_id msg = messageId ++ lit "-response") /\
      (forall msg, In msg (messages s) ->
                   msg_id msg = messageId ++ lit "-response" ->
                   msg_content msg =
                   match f with
                   | TextOnly => trim (accumulatedText s)
                   | _ => stripMainColorsSection (accumulatedText s)
                   end)).
    assert (Hchunk : forall a value,
               (existsb carries_text
                  (flat_map (parsed_of_line JSON_parse) (data_lines decode value)) = true ->
                P (process_chunk JSON_parse decode messageId f a value)) /\
               (existsb carries_text
                  (flat_map (parsed_of_line JSON_parse) (data_lines decode value)) = false ->
                process_chunk JSON_parse decode messageId f a value = a)).
    { intros a value. rewrite existsb_flat_map. unfold process_chunk.
      apply fold_left_establish.
      - intros s line. apply process_line_response. exact Hf.
      - intros s line. apply process_line_skips. }
    intros E.
    exact (proj1 (fold_left_establish _ _
                    (process_chunk JSON_parse decode messageId f) P
                    (fun value => existsb carries_text
                       (flat_map (parsed_of_line JSON_parse) (data_lines decode value)))
                    (fun a b => proj1 (Hchunk a b))
                    (fun a b => proj2 (Hchunk a b))
                    values st) E).
Qed.

Lemma process_line_no_digits f st line :
  Forall (fun c => is_digit c = false) (accumulatedText st) ->
  Forall (fun data => Forall (fun c => is_digit c = false) (appended data))
         (parsed_of_line JSON_parse line) ->
  Forall (fun c => is_digit c = false)
         (accumulatedText (process_line JSON_parse messageId f st line)) /\
  palette (process_line JSON_parse messageId f st line) = palette st.
Proof.
  intros Hacc Hline. unfold process_line, parsed_of_line, appended, taken in *.
  destruct (JSON_parse (slice_from line 6)) as [data|e]; [|auto].
  inversion Hline as [|? ? Hd _]; subst. clear Hline.
  destruct (get_prop data (lit "text")) as [text|]; [|auto].
  destruct (truthy text); [|auto].
  destruct (toString text) as [str|]; [|auto].
  assert (Hnew : Forall (fun c => is_digit c = false)
                   (accumulatedText st ++ str))
    by (apply Forall_app; auto).
  destruct f; cbn [accumulatedText palette]; (split; [exact Hnew|]);
    try reflexivity;
    rewrite <- (app_nil_r (accumulatedText st ++ str)),
      parseColorInfo_after by exact Hnew; reflexivity.
Qed.

(** X14.  A response without any digit brings no color, so the palette of
    the image before stays on display: the loop replaces the palette only
    by colors it finds and never clears it for a new image. *)
Theorem palette_stays_without_colors (f : flow)
    (prev : list ChatMessage) (shown : list ColorInfo)
    (values : list (list N)) :
  Forall (fun data => Forall (fun c => is_digit c = false) (appended data))
         (parsed_lines JSON_parse decode values) ->
  palette (read_stream JSON_parse decode messageId f
             (mkReading [] prev shown) values) = shown.
Proof.
  intros H. unfold parsed_lines in H.
  apply (proj1 (Forall_flat_map _ _ _)) in H.
  unfold read_stream.
  apply (fold_left_invariant _ _ (process_chunk JSON_parse decode messageId f)
           (fun s => Forall (fun c => is_digit c = false) (accumulatedText s) /\
                     palette s = shown)
           (fun value =>
              Forall (fun data => Forall (fun c => is_digit c = false) (appended data))
                     (flat_map (parsed_of_line JSON_parse) (data_lines decode value))));
    [| split; [apply Forall_nil | reflexivity] | exact H].
  intros a value Ha Hv. apply (proj1 (Forall_flat_map _ _ _)) in Hv.
  unfold process_chunk.
  apply (fold_left_invariant _ _ (process_line JSON_parse messageId f)
           (fun s => Forall (fun c => is_digit c = false) (accumulatedText s) /\
                     palette s = shown)
           (fun line =>
              Forall (fun data => Forall (fun c => is_digit c = false) (appended data))
                     (parsed_of_line JSON_parse line)));
    [| exact Ha | exact Hv].
  intros s line [Hs Hp] Hl.
  destruct (process_line_no_digits f s line Hs Hl) as [H1 H2].
  split; [exact H1 | rewrite H2; exact Hp].
Qed.

End PaletteFacts.

(** ** More on the endpoint *)

Section EndpointMore.

Variable JSON_parse : jsstring -> result value.
Variable encode : jsstring -> list N.
Variable base64 : list N -> jsstring.
Variable type_error : thrown.

(** X15.  The handler answers with the event stream exactly when it starts
    a relay, and every other answer is a JSON error with status 400 or
    500. *)
Theorem POST_streams_or_rejects (api_key : option jsstring) (req : request) :
  let o := POST JSON_parse base64 type_error api_key req in
  (returned o = EventStream <-> relay_task o <> None) /\
  (forall code body, returned o = JsonResponse code body ->
                     code = 400%nat \/ code = 500%nat).
Proof.
  cbv zeta. unfold POST, error_response.
  destruct api_key as [[|k key]|];
    try (split; [split; [discriminate | intros H; exfalso; apply H; reflexivity]
                | intros code body [= <- _]; auto]).
  destruct (read_body type_error req) as [[[[imageFile mode] question] currentPalette]|e];
    [|split; [split; [discriminate | intros H; exfalso; apply H; reflexivity]
             | intros code body [= <- _]; auto]].
  destruct (negb (truthy imageFile) && negb (is_mode mode "text-only"));
    [split; [split; [discriminate | intros H; exfalso; apply H; reflexivity]
            | intros code body [= <- _]; auto]|].
  destruct (basePrompt JSON_parse type_error mode question currentPalette) as [prompt|e];
    [|split; [split; [discriminate | intros H; exfalso; apply H; reflexivity]
             | intros code body [= <- _]; auto]].
  split; [split; [discriminate | reflexivity] | discriminate].
Qed.

(** X16.  A mode that is none of ["text-only"], ["full"] and ["followup"]
    is not refused: with an image file, the model is called with the image
    and an empty prompt. *)
Theorem POST_unknown_mode (key : jsstring) (req : request) (image : File)
    (mode question currentPalette : jsval File) :
  key <> [] ->
  read_body type_error req = Ok (AFile image, mode, question, currentPalette) ->
  is_mode mode "text-only" = false ->
  is_mode mode "full" = false ->
  is_mode mode "followup" = false ->
  POST JSON_parse base64 type_error (Some key) req
  = mkOutcome EventStream
      (Some (Ok (PromptAndImage [] (file_type image) (base64 (file_bytes image))))).
Proof.
  intros Hkey Hbody H1 H2 H3. unfold POST. destruct key; [congruence|].
  rewrite Hbody. cbn [truthy negb andb].
  unfold basePrompt, model_call. rewrite H1, H2, H3. reflexivity.
Qed.

(** X17.  A follow-up whose palette [JSON.parse] cannot read is answered
    with status 500 and the parser's error, and the model is not called. *)
Theorem POST_followup_bad_palette (key : jsstring) (req : request)
    (imageFile question currentPalette : jsval File) (json : jsstring)
    (e : thrown) :
  key <> [] ->
  read_body type_error req
  = Ok (imageFile, Val (Str (lit "followup")), question, currentPalette) ->
  truthy imageFile = true ->
  truthy currentPalette = true ->
  toString currentPalette = Some json ->
  JSON_parse json = Throw e ->
  POST JSON_parse base64 type_error (Some key) req
  = mkOutcome (error_response e) None.
Proof.
  intros Hkey Hbody Himg Hpal Hjson Hparse. unfold POST.
  destruct key; [congruence|].
  rewrite Hbody, Himg. cbn [negb andb].
  unfold basePrompt.
  change (is_mode (Val (Str (lit "followup"))) "text-only") with false.
  change (is_mode (Val (Str (lit "followup"))) "full") with false.
  change (is_mode (Val (Str (lit "followup"))) "followup") with true.
  cbv iota. unfold paletteContext. rewrite Hpal, Hjson, Hparse. reflexivity.
Qed.

(** X18.  An [image] field that is a non-empty string, not a file, passes
    the check for an image: the handler answers with the event stream, and
    the relay aborts the writer with the [TypeError] before anything is
    written or the model is called. *)
Theorem POST_image_not_a_file (key : jsstring) (req : request)
    (s : jsstring) (mode question currentPalette : jsval File)
    (prompt : jsstring) :
  key <> [] ->
  read_body type_error req = Ok (Val (Str s), mode, question, currentPalette) ->
  s <> [] ->
  is_mode mode "text-only" = false ->
  basePrompt JSON_parse type_error mode question currentPalette = Ok prompt ->
  POST JSON_parse base64 type_error (Some key) req
  = mkOutcome EventStream (Some (Throw type_error)) /\
  forall model,
    relay encode model (Throw type_error) = mkWriter [] (Aborted type_error).
Proof.
  intros Hkey Hbody Hs Hmode Hprompt. split; [|reflexivity].
  unfold POST. destruct key; [congruence|].
  rewrite Hbody. destruct s as [|c s]; [congruence|].
  cbn [truthy truthy_value negb andb]. rewrite Hprompt.
  unfold model_call. rewrite Hmode. reflexivity.
Qed.

(** X19.  From the chat to the model, without an image: a question with no
    image selected and none on record is posted as JSON, and when the
    handler's [JSON.parse] reads that body back, the model is called with
    the question alone, in the text-only prompt. *)
Theorem text_only_end_to_end (s : submission) (key : jsstring)
    (unused : result FormData) :
  selectedImage s = None ->
  lastUploadedImage s = None ->
  trim (input s) <> [] ->
  key <> [] ->
  JSON_parse (stringify (Obj [(lit "question", Str (trim (input s)));
                              (lit "mode", Str (lit "text-only"))]))
  = Ok (Obj [(lit "question", Str (trim (input s)));
             (lit "mode", Str (lit "text-only"))]) ->
  exists body,
    submit_request s = Some (JsonBody body) /\
    POST JSON_parse base64 type_error (Some key)
      (mkRequest (Some (lit "application/json")) unused (JSON_parse body))
    = mkOutcome EventStream
        (Some (Ok (PromptOnly
                     (lit "You are a helpful AI assistant. Please provide a clear and concise response to the following question: "
                      ++ trim (input s))))).
Proof.
  intros Hsel Hlast Hq Hkey Hparse.
  unfold submit_request. rewrite Hsel, Hlast.
  destruct (trim (input s)) as [|c q] eqn:E; [congruence|].
  cbn [is_empty andb negb option_map].
  eexists. split; [reflexivity|].
  unfold POST. destruct key; [congruence|].
  unfold read_body. cbn [content_type req_json].
  change (includes (lit "application/json") (lit "multipart/form-data")) with false.
  change (includes (lit "application/json") (lit "application/json")) with true.
  cbv iota. rewrite Hparse.
  reflexivity.
Qed.

(** X20.  From the chat to the model, with a new image: the image is posted
    with mode ["full"], and the model is called with that image and the
    fixed prompt of the full analysis; what was typed along with the image
    is sent as the question but is not part of the prompt. *)
Theorem new_image_end_to_end (s : submission) (image : File)
    (key header : jsstring) (unused : result value) :
  selectedImage s = Some image ->
  key <> [] ->
  includes header (lit "multipart/form-data") = true ->
  exists formData,
    submit_request s = Some (FormBody formData) /\
    form_get formData (lit "currentPalette") = Val Null /\
    POST JSON_parse base64 type_error (Some key)
      (mkRequest (Some header) (Ok formData) unused)
    = mkOutcome EventStream
        (Some (Ok (PromptAndImage full_prompt (file_type image)
                     (base64 (file_bytes image))))).
Proof.
  intros Hsel Hkey Hheader.
  unfold submit_request. rewrite Hsel. rewrite andb_false_r.
  cbn [andb List.app]. eexists. split; [reflexivity|].
  unfold POST. destruct key; [congruence|].
  unfold read_body. cbn [content_type req_formData]. rewrite Hheader.
  destruct (is_empty (trim (input s))); cbn [negb List.app];
    (split; [reflexivity|]); reflexivity.
Qed.

(** X21.  The earlier handler and the present one call the model alike for
    an image in mode ["full"].  They differ when the call fails: the
    earlier handler, which waits for the call, answers 500 with the error,
    while the present one has answered with the event stream and aborts
    it.  When the call succeeds both write the same events. *)
Theorem POST_versions_agree (key header : jsstring) (formData : FormData)
    (unused : result value) (image : File)
    (model : model_input -> result model_stream) :
  key <> [] ->
  includes header (lit "multipart/form-data") = true ->
  form_get formData (lit "image") = AFile image ->
  form_get formData (lit "mode") = Val (Str (lit "full")) ->
  let req := mkRequest (Some header) (Ok formData) unused in
  let input := PromptAndImage full_prompt (file_type image)
                 (base64 (file_bytes image)) in
  POST JSON_parse base64 type_error (Some key) req
  = mkOutcome EventStream (Some (Ok input)) /\
  (forall stream,
      model input = Ok stream ->
      POST_v1 encode base64 type_error (Some key) req model
      = mkOutcome1 EventStream (Some (relay encode model (Ok input)))) /\
  (forall e,
      model input = Throw e ->
      POST_v1 encode base64 type_error (Some key) req model
      = mkOutcome1 (error_response e) None /\
      relay encode model (Ok input) = mkWriter [] (Aborted e)).
Proof.
  intros Hkey Hheader Himage Hmode. cbv zeta.
  destruct key as [|k key]; [congruence|].
  split; [|split].
  - unfold POST, read_body. cbn [content_type req_formData].
    rewrite Hheader, Himage, Hmode. reflexivity.
  - intros stream Hmodel. unfold POST_v1. cbn [req_formData].
    rewrite Himage, Hmode. cbn [truthy negb].
    change (is_mode (Val (Str (lit "full"))) "full") with true. cbv iota.
    rewrite Hmodel. unfold relay, write_stream. rewrite Hmodel. reflexivity.
  - intros e Hmodel. unfold POST_v1. cbn [req_formData].
    rewrite Himage, Hmode. cbn [truthy negb].
    change (is_mode (Val (Str (lit "full"))) "full") with true. cbv iota.
    rewrite Hmodel. unfold relay. rewrite Hmodel. split; reflexivity.
Qed.

End EndpointMore.

Section FollowUpExchange.

Variable JSON_parse : jsstring -> result value.
Variable base64 : list N -> jsstring.
Variable type_error : thrown.

(** X11.  From the chat to the model, for a follow-up.  With an image on
    record, none newly selected and a question that is not blank and holds
    no line break (so that the form carries it as it is; the palette
    travels as JSON, where line breaks are escaped), the form that the
    client posts makes the handler call the model with the image on record
    and the follow-up prompt, which holds the trimmed question and the
    palette context: no context when the palette is empty; and when it is
    not, and [JSON.parse] reads back what [JSON.stringify] wrote, the
    heading and the palette written out, one numbered line per color. *)
Theorem followup_exchange (s : submission) (image : File)
    (preview key header : jsstring) (unused : result value) :
  selectedImage s = None ->
  lastUploadedImage s = Some (image, preview) ->
  trim (input s) <> [] ->
  one_line (trim (input s)) ->
  key <> [] ->
  includes header (lit "multipart/form-data") = true ->
  (colorPalette s <> [] ->
   JSON_parse (stringify (Arr (map color_value (colorPalette s))))
   = Ok (Arr (map color_value (colorPalette s)))) ->
  exists formData,
    submit_request s = Some (FormBody formData) /\
    POST JSON_parse base64 type_error (Some key)
      (mkRequest (Some header) (Ok formData) unused)
    = mkOutcome EventStream
        (Some (Ok (PromptAndImage
                     (followup_prompt (trim (input s))
                        match colorPalette s with
                        | [] => []
                        | _ :: _ =>
                            [10%N]
                            ++ lit "Current color palette from previous analysis:"
                            ++ [10%N] ++ render_palette (colorPalette s)
                            ++ [10%N]
                        end)
                     (file_type image) (base64 (file_bytes image))))).
Proof.
  intros Hsel Hlast Hq _ Hkey Hheader Hparse.
  exact (followup_end_to_end JSON_parse base64 type_error s image preview key
           header unused Hsel Hlast Hq Hkey Hheader Hparse).
Qed.

End FollowUpExchange.

(** ** [handleSubmit] from the click to the last message *)

Lemma str_eqb_length a : forall b, str_eqb a b = true -> length a = length b.
Proof.
  intros b H. apply str_eqb_eq in H. subst. reflexivity.
Qed.

Lemma str_eqb_refl a : str_eqb a a = true.
Proof. apply str_eqb_eq. reflexivity. Qed.

Lemma str_eqb_neq a b : a <> b -> str_eqb a b = false.
Proof.
  intros H. destruct (str_eqb a b) eqn:E; [|reflexivity].
  apply str_eqb_eq in E. contradiction.
Qed.

Lemma suffix_differs (a : jsstring) s1 s2 : s1 <> s2 -> a ++ s1 <> a ++ s2.
Proof. intros H E. apply app_inv_head in E. contradiction. Qed.

Lemma not_its_suffixed (a : jsstring) c s : a <> a ++ c :: s.
Proof.
  intros E. apply (f_equal (@length N)) in E. rewrite length_app in E.
  simpl in E. lia.
Qed.

Lemma set_content_absent mid text prev :
  Forall (fun msg => msg_id msg <> mid) prev -> set_content mid text prev = prev.
Proof.
  induction 1 as [|msg prev Hm _ IH]; simpl; [reflexivity|].
  rewrite (str_eqb_neq _ _ Hm), IH. reflexivity.
Qed.

Lemma remove_message_absent mid prev :
  Forall (fun msg => msg_id msg <> mid) (remove_message mid prev).
Proof.
  unfold remove_message. apply Forall_forall. intros msg Hin.
  apply filter_In in Hin. destruct Hin as [_ H]. intros E.
  rewrite E, str_eqb_refl in H. discriminate.
Qed.

Lemma upsert_message_ids mid other text prev :
  mid <> other ->
  Forall (fun msg => msg_id msg <> other) prev ->
  Forall (fun msg => msg_id msg <> other) (upsert_message mid text prev).
Proof.
  intros Hne Hprev. unfold upsert_message.
  destruct (find _ prev).
  - apply Forall_forall. intros msg Hin. apply in_map_iff in Hin.
    destruct Hin as (old & <- & Hold).
    rewrite Forall_forall in Hprev. specialize (Hprev old Hold).
    destruct (str_eqb (msg_id old) mid); exact Hprev.
  - apply Forall_app. split; [exact Hprev|]. constructor; [|constructor].
    exact Hne.
Qed.

Section ExchangeFacts.

Variable JSON_parse : jsstring -> result value.
Variable decode : list N -> jsstring.
Variable messageId : jsstring.

Lemma read_stream_cons f st value values :
  read_stream JSON_parse decode messageId f st (value :: values)
  = read_stream JSON_parse decode messageId f
      (process_chunk JSON_parse decode messageId f st value) values.
Proof. reflexivity. Qed.

(** The timed loop, read to its end in time, is the plain loop. *)
Lemma read_timed_in_time f reads : forall st elapsed,
  in_time reads -> (elapsed <= CHUNK_TIMEOUT)%Z ->
  read_timed JSON_parse decode messageId f st reads (Done elapsed)
  = (read_stream JSON_parse decode messageId f st (map snd reads), None).
Proof.
  induction reads as [|[t value] reads IH]; intros st elapsed Hin Hl; simpl.
  - destruct (Z.ltb_spec CHUNK_TIMEOUT elapsed); [lia | reflexivity].
  - inversion Hin as [|? ? Ht Hrest]; subst. simpl in Ht.
    destruct (Z.ltb_spec CHUNK_TIMEOUT t); [lia|].
    rewrite IH by assumption. reflexivity.
Qed.

Lemma read_timed_late f early : forall st elapsed value rest last,
  in_time early -> (CHUNK_TIMEOUT < elapsed)%Z ->
  read_timed JSON_parse decode messageId f st
    (early ++ (elapsed, value) :: rest) last
  = (read_stream JSON_parse decode messageId f st (map snd early),
     Some (new_Error (lit "Stream timeout: No data received for 10 seconds"))).
Proof.
  induction early as [|[t v] early IH]; intros st elapsed value rest last Hin Hl; simpl.
  - destruct (Z.ltb_spec CHUNK_TIMEOUT elapsed); [reflexivity | lia].
  - inversion Hin as [|? ? Ht Hrest]; subst. simpl in Ht.
    destruct (Z.ltb_spec CHUNK_TIMEOUT t); [lia|].
    rewrite IH by assumption. reflexivity.
Qed.

Lemma read_timed_done_late f reads : forall st elapsed,
  in_time reads -> (CHUNK_TIMEOUT < elapsed)%Z ->
  read_timed JSON_parse decode messageId f st reads (Done elapsed)
  = (read_stream JSON_parse decode messageId f st (map snd reads),
     Some (new_Error (lit "Stream timeout: No data received for 10 seconds"))).
Proof.
  induction reads as [|[t value] reads IH]; intros st elapsed Hin Hl; simpl.
  - destruct (Z.ltb_spec CHUNK_TIMEOUT elapsed); [reflexivity | lia].
  - inversion Hin as [|? ? Ht Hrest]; subst. simpl in Ht.
    destruct (Z.ltb_spec CHUNK_TIMEOUT t); [lia|].
    rewrite IH by assumption. reflexivity.
Qed.

Lemma read_timed_success f reads : forall st last st',
  read_timed JSON_parse decode messageId f st reads last = (st', None) ->
  exists elapsed,
    last = Done elapsed /\ in_time reads /\ (elapsed <= CHUNK_TIMEOUT)%Z.
Proof.
  induction reads as [|[t value] reads IH]; intros st last st'; simpl.
  - destruct last as [elapsed|e]; [|discriminate].
    destruct (Z.ltb_spec CHUNK_TIMEOUT elapsed); [discriminate|].
    intros _. exists elapsed. repeat split; [constructor | assumption].
  - destruct (Z.ltb_spec CHUNK_TIMEOUT t) as [|Ht]; [discriminate|].
    intros E. apply IH in E. destruct E as (elapsed & -> & Hin & Hl).
    exists elapsed. repeat split; [constructor; assumption | assumption].
Qed.

(** X22.  The ten-second timeout of the image branch is checked when a read
    returns.  A chunk that returns later than that after the read before is
    not processed, and neither is anything after it; and an end of the
    stream that is reported later than that counts as a timeout too,
    although every chunk has been processed. *)
Theorem read_timed_timeout (f : flow) (st : reading)
    (early : list (Z * list N)) (elapsed : Z) :
  in_time early -> (CHUNK_TIMEOUT < elapsed)%Z ->
  (forall value rest last,
      read_timed JSON_parse decode messageId f st
        (early ++ (elapsed, value) :: rest) last
      = (read_stream JSON_parse decode messageId f st (map snd early),
         Some (new_Error (lit "Stream timeout: No data received for 10 seconds")))) /\
  read_timed JSON_parse decode messageId f st early (Done elapsed)
  = (read_stream JSON_parse decode messageId f st (map snd early),
     Some (new_Error (lit "Stream timeout: No data received for 10 seconds"))).
Proof.
  intros Hin Hl. split.
  - intros value rest last. apply read_timed_late; assumption.
  - apply read_timed_done_late; assumption.
Qed.

Lemma guard_passes (a : app) :
  goes_through a ->
  is_empty (trim (app_input a))
  && match app_selectedImage a with Some _ => false | None => true end = false.
Proof.
  intros [H | H].
  - destruct (trim (app_input a)); [congruence | reflexivity].
  - destruct (app_selectedImage a); [apply andb_false_r | congruence].
Qed.

(** X23.  After a submission with an image in play, [isLoading] is set back
    to [false] only when the response was ok and had a body: when [fetch]
    throws, the response is not ok or has no body, it stays [true].  After a
    submission without any image it is always set back. *)
Theorem handleSubmit_isLoading (a : app) (response : fetched) :
  goes_through a ->
  app_isLoading (handleSubmit JSON_parse decode messageId a response) =
  match imageToUse a, response with
  | Some _, Body _ _ => false
  | Some _, _ => true
  | None, _ => false
  end.
Proof.
  intros Hgo. unfold handleSubmit, imageToUse. rewrite (guard_passes a Hgo).
  cbn [app_isLoading].
  destruct (match app_selectedImage a with
            | Some f => Some f
            | None => option_map fst (app_lastUploadedImage a)
            end) as [image|].
  - destruct response as [e|status| |reads last]; try reflexivity.
    unfold image_branch.
    destruct (read_timed _ _ _ _ _ _ _) as [st [e|]]; reflexivity.
  - destruct response as [e|status| |reads last]; try reflexivity.
    unfold text_branch.
    destruct (read_untimed _ _ _ _ _ _) as [st [e|]]; reflexivity.
Qed.

(** X24.  A new image whose exchange fails in any way leaves no palette: a
    palette is left after the submission of a new image only when the
    stream has been read to its end in time. *)
Theorem new_image_failure_clears_palette (a : app) (image : File)
    (response : fetched) :
  app_selectedImage a = Some image ->
  app_colorPalette (handleSubmit JSON_parse decode messageId a response) <> [] ->
  exists reads elapsed,
    response = Body reads (Done elapsed) /\
    in_time reads /\ (elapsed <= CHUNK_TIMEOUT)%Z.
Proof.
  intros Hsel. unfold handleSubmit. rewrite Hsel, andb_false_r.
  cbn [app_colorPalette].
  destruct response as [e|status| |reads last]; cbn [image_branch settled_palette];
    try (intros H; exfalso; apply H; reflexivity).
  unfold image_branch.
  destruct (read_timed _ _ _ _ _ _ _) as [st [e|]] eqn:E; cbn [settled_palette].
  - intros H; exfalso; apply H; reflexivity.
  - intros _. apply read_timed_success in E.
    destruct E as (elapsed & -> & Hin & Hl). exists reads, elapsed. auto.
Qed.

Lemma read_stream_ids f other : forall values st,
  messageId ++ lit "-analysis" <> other ->
  messageId ++ lit "-response" <> other ->
  Forall (fun msg => msg_id msg <> other) (messages st) ->
  Forall (fun msg => msg_id msg <> other)
         (messages (read_stream JSON_parse decode messageId f st values)).
Proof.
  intros values st Ha Hr Hst. unfold read_stream.
  apply (fold_left_invariant _ _ (process_chunk JSON_parse decode messageId f)
           (fun s => Forall (fun msg => msg_id msg <> other) (messages s))
           (fun _ => True)); [| exact Hst | apply Forall_forall; auto].
  intros s value Hs _. unfold process_chunk.
  apply (fold_left_invariant _ _ (process_line JSON_parse messageId f)
           (fun s => Forall (fun msg => msg_id msg <> other) (messages s))
           (fun _ => True)); [| exact Hs | apply Forall_forall; auto].
  intros s0 line Hs0 _. unfold process_line.
  destruct (JSON_parse (slice_from line 6)) as [data|e]; [|exact Hs0].
  destruct (get_prop data (lit "text")) as [text|]; [|exact Hs0].
  destruct (truthy text); [|exact Hs0].
  destruct (toString text) as [str|]; [|exact Hs0].
  destruct f; cbn [messages]; apply upsert_message_ids; assumption.
Qed.

(** X25.  Two failures that are not shown.  When the response has no body,
    the loading message is removed and no error message takes its place:
    the user's message is the last one.  And when the stream of a question
    without image breaks while it is read, the messages are the same as if
    it had ended there normally. *)
Theorem handleSubmit_silent_failures (a : app) :
  goes_through a ->
  app_messages (handleSubmit JSON_parse decode messageId a NoBody)
  = remove_message (messageId ++ lit "-loading") (app_messages a)
    ++ [mkMessage messageId user
          (user_content (app_input a) (app_selectedImage a))
          (match app_imagePreview a with
           | Some preview => if is_empty preview then None else Some preview
           | None => None
           end)] /\
  (imageToUse a = None ->
   forall reads e elapsed,
     app_messages
       (handleSubmit JSON_parse decode messageId a (Body reads (ReadFails e)))
     = app_messages
         (handleSubmit JSON_parse decode messageId a (Body reads (Done elapsed)))).
Proof.
  intros Hgo.
  assert (Hremove : forall user_msg loading_text,
             remove_message (messageId ++ lit "-loading")
               ((app_messages a ++ [mkMessage messageId user user_msg
                    (match app_imagePreview a with
                     | Some preview => if is_empty preview then None else Some preview
                     | None => None
                     end)])
                ++ [mkMessage (messageId ++ lit "-loading") assistant loading_text None])
             = remove_message (messageId ++ lit "-loading") (app_messages a)
               ++ [mkMessage messageId user user_msg
                     (match app_imagePreview a with
                      | Some preview => if is_empty preview then None else Some preview
                      | None => None
                      end)]).
  { intros user_msg loading_text. unfold remove_message.
    assert (Hne : str_eqb messageId (messageId ++ lit "-loading") = false)
      by (apply str_eqb_neq; exact (not_its_suffixed messageId 45%N (lit "loading"))).
    rewrite !filter_app. cbn [filter msg_id].
    rewrite str_eqb_refl, Hne.
    cbn [negb]. rewrite app_nil_r. reflexivity. }
  split.
  - unfold handleSubmit. rewrite (guard_passes a Hgo). cbn [app_messages].
    destruct (match app_selectedImage a with
              | Some f => Some f
              | None => option_map fst (app_lastUploadedImage a)
              end) as [image|];
      cbn [image_branch text_branch settled_messages];
      rewrite set_content_absent by apply remove_message_absent;
      apply Hremove.
  - intros Himage reads e elapsed.
    unfold handleSubmit. rewrite (guard_passes a Hgo). cbn [app_messages].
    unfold imageToUse in Himage. rewrite Himage.
    unfold text_branch, read_untimed. cbn [settled_messages].
    apply set_content_absent. apply read_stream_ids.
    + apply suffix_differs. discriminate.
    + apply suffix_differs. discriminate.
    + cbn [messages]. apply remove_message_absent.
Qed.

End ExchangeFacts.

(** ** A whole exchange for a new image *)

Lemma appended_carries data : appended data <> [] -> carries_text data = true.
Proof.
  unfold appended, carries_text.
  destruct (taken data); congruence.
Qed.

Lemma concat_appended_carries parsed :
  concat (map appended parsed) <> [] -> existsb carries_text parsed = true.
Proof.
  induction parsed as [|data parsed IH]; simpl; [congruence|].
  intros H. destruct (appended data) as [|c t] eqn:E.
  - rewrite (IH H). apply orb_true_r.
  - rewrite appended_carries by (rewrite E; discriminate). reflexivity.
Qed.

Section WholeExchange.

Variable JSON_parse : jsstring -> result value.
Variable encode : jsstring -> list N.
Variable decode : list N -> jsstring.
Variable messageId : jsstring.

Lemma read_stream_shows st values :
  existsb carries_text (parsed_lines JSON_parse decode values) = true ->
  shows_analysis messageId
    (read_stream JSON_parse decode messageId NewImage st values).
Proof.
  unfold parsed_lines. rewrite existsb_flat_map. unfold read_stream.
  exact (proj1 (fold_left_establish _ _
                  (process_chunk JSON_parse decode messageId NewImage)
                  (shows_analysis messageId)
                  (fun value => existsb carries_text
                     (flat_map (parsed_of_line JSON_parse) (data_lines decode value)))
                  (fun a b => proj1 (process_chunk_fires JSON_parse decode messageId b a))
                  (fun a b => proj2 (process_chunk_fires JSON_parse decode messageId b a))
                  values st)).
Qed.

Lemma process_line_sets_palette st line :
  existsb carries_text (parsed_of_line JSON_parse line) = true ->
  let st' := process_line JSON_parse messageId NewImage st line in
  palette st' = parseColorInfo (accumulatedText st') \/
  parseColorInfo (accumulatedText st') = [].
Proof.
  unfold process_line, parsed_of_line, carries_text, taken.
  destruct (JSON_parse (slice_from line 6)) as [data|e]; simpl; [|discriminate].
  destruct (get_prop data (lit "text")) as [text|]; simpl; [|discriminate].
  destruct (truthy text); [|discriminate].
  destruct (toString text) as [str|]; [|discriminate].
  intros _. cbn [palette accumulatedText].
  destruct (parseColorInfo (accumulatedText st ++ str)); [right | left];
    reflexivity.
Qed.

(** After a text has come, the palette is what [parseColorInfo] finds in
    the accumulated text, when it finds something. *)
Lemma read_stream_sets_palette st values :
  existsb carries_text (parsed_lines JSON_parse decode values) = true ->
  let st' := read_stream JSON_parse decode messageId NewImage st values in
  palette st' = parseColorInfo (accumulatedText st') \/
  parseColorInfo (accumulatedText st') = [].
Proof.
  unfold parsed_lines. rewrite existsb_flat_map. unfold read_stream. cbv zeta.
  set (P := fun s : reading =>
              palette s = parseColorInfo (accumulatedText s) \/
              parseColorInfo (accumulatedText s) = []).
  assert (Hchunk : forall a value,
             (existsb carries_text
                (flat_map (parsed_of_line JSON_parse) (data_lines decode value)) = true ->
              P (process_chunk JSON_parse decode messageId NewImage a value)) /\
             (existsb carries_text
                (flat_map (parsed_of_line JSON_parse) (data_lines decode value)) = false ->
              process_chunk JSON_parse decode messageId NewImage a value = a)).
  { intros a value. rewrite existsb_flat_map. unfold process_chunk.
    apply fold_left_establish.
    - intros s line. apply process_line_sets_palette.
    - intros s line. apply process_line_skips. }
  exact (proj1 (fold_left_establish _ _
                  (process_chunk JSON_parse decode messageId NewImage) P
                  (fun value => existsb carries_text
                     (flat_map (parsed_of_line JSON_parse) (data_lines decode value)))
                  (fun a b => proj1 (Hchunk a b))
                  (fun a b => proj2 (Hchunk a b))
                  values st)).
Qed.

(** X26.  A whole exchange for a new image, under these conditions.  The
    text of the model's chunks together is a description that holds no
    decimal digit and no ["Main Colors:"], then a blank line,
    ["Main Colors:"] and one prescribed line for each of at least one
    color; every read and the end of the stream come within the timeout;
    every read holds whole events of the relay and [decode] reads them
    back; and [JSON.parse] reads back what [JSON.stringify] wrote.  Then
    [handleSubmit] ends with the colors of the answer, their names
    trimmed, as the palette, an analysis message that shows the trimmed
    description, the colors message last, and [isLoading] set back. *)
Theorem new_image_exchange (a : app) (image : File)
    (arrivals : list (Z * list jsstring)) (elapsed : Z)
    (description : jsstring) (colors : list ColorInfo) :
  app_selectedImage a = Some image ->
  Forall (fun r => (fst r <= CHUNK_TIMEOUT)%Z) arrivals ->
  (elapsed <= CHUNK_TIMEOUT)%Z ->
  Forall (fun texts =>
            decode (concat (map (sse_event encode) texts))
            = concat (map event_text texts)) (map snd arrivals) ->
  Forall (fun t => JSON_parse (stringify (Obj [(lit "text", Str t)]))
                   = Ok (Obj [(lit "text", Str t)]))
         (concat (map snd arrivals)) ->
  concat (concat (map snd arrivals))
  = description ++ [10; 10]%N ++ lit "Main Colors:" ++ [10%N]
    ++ render_palette colors ->
  ~ occurs (lit "Main Colors:") description ->
  Forall (fun c => is_digit c = false) description ->
  Forall prescribed colors ->
  colors <> [] ->
  let reads :=
    map (fun r => (fst r, concat (map (sse_event encode) (snd r)))) arrivals in
  let a' := handleSubmit JSON_parse decode messageId a
              (Body reads (Done elapsed)) in
  app_colorPalette a' = map with_trimmed_name colors /\
  app_isLoading a' = false /\
  exists before,
    app_messages a'
    = before ++ [mkMessage (messageId ++ lit "-colors") assistant
                   (lit "Here are the main colors from your image:") None] /\
    (exists msg, In msg before /\ msg_id msg = messageId ++ lit "-analysis") /\
    (forall msg, In msg before ->
                 msg_id msg = messageId ++ lit "-analysis" ->
                 msg_content msg = trim description).
Proof.
  intros Hsel Htime Hdone Hdecode Hparse Htext Hfree Hdigits Hcolors Hne.
  cbv zeta. unfold handleSubmit. rewrite Hsel, andb_false_r.
  cbn [app_colorPalette app_isLoading app_messages].
  unfold image_branch.
  assert (Hin : in_time (map (fun r => (fst r, concat (map (sse_event encode) (snd r))))
                             arrivals)).
  { unfold in_time. rewrite Forall_map. exact Htime. }
  rewrite (read_timed_in_time _ _ _ _ _ _ _ Hin Hdone).
  rewrite map_map. cbn [snd].
  rewrite <- (map_map snd (fun texts => concat (map (sse_event encode) texts))).
  set (values := map (fun texts => concat (map (sse_event encode) texts))
                     (map snd arrivals)).
  set (st0 := mkReading [] _ (app_colorPalette a)).
  pose proof (read_stream_events JSON_parse encode decode messageId NewImage st0
                (map snd arrivals) Hdecode Hparse) as Hacc.
  fold values in Hacc.
  assert (Hst0 : accumulatedText st0 = []) by reflexivity.
  rewrite Hst0 in Hacc. cbn [List.app] in Hacc.
  rewrite Htext in Hacc.
  destruct (full_format_parts description colors Hfree Hdigits Hcolors)
    as [Hstrip Hpalette].
  assert (Hcarried : existsb carries_text (parsed_lines JSON_parse decode values) = true).
  { apply concat_appended_carries.
    pose proof (read_stream_text JSON_parse decode messageId NewImage values st0) as E.
    rewrite Hst0 in E. cbn [List.app] in E. rewrite <- E, Hacc.
    destruct description; discriminate. }
  pose proof (read_stream_shows st0 values Hcarried) as [Hexists Hshown].
  pose proof (read_stream_sets_palette st0 values Hcarried) as Hpal.
  cbv zeta in Hpal. rewrite Hacc, Hpalette in Hpal.
  rewrite Hacc, Hstrip in Hshown.
  cbn [settled_palette settled_messages reached_finally negb].
  split; [|split; [reflexivity|]].
  - destruct Hpal as [E | E]; [exact E|].
    destruct colors; [congruence | discriminate E].
  - eexists. split; [reflexivity|]. split; assumption.
Qed.

End WholeExchange.

(** ** The image in play *)

Section ImageFacts.

Variable JSON_parse : jsstring -> result value.
Variable decode : list N -> jsstring.
Variable messageId : jsstring.

Lemma handleSubmit_images (a : app) (response : fetched) :
  app_selectedImage (handleSubmit JSON_parse decode messageId a response)
  = (if is_empty (trim (app_input a))
        && match app_selectedImage a with Some _ => false | None => true end
     then app_selectedImage a else None) /\
  app_lastUploadedImage (handleSubmit JSON_parse decode messageId a response)
  = (if is_empty (trim (app_input a))
        && match app_selectedImage a with Some _ => false | None => true end
     then app_lastUploadedImage a
     else match app_selectedImage a, app_imagePreview a with
          | Some f, Some preview =>
              if is_empty preview then app_lastUploadedImage a
              else Some (f, preview)
          | _, _ => app_lastUploadedImage a
          end).
Proof.
  unfold handleSubmit.
  destruct (is_empty (trim (app_input a))
            && match app_selectedImage a with Some _ => false | None => true end);
    split; reflexivity.
Qed.

(** X27.  Only images are ever posted.  The state starts without any
    image; selecting a file, loading a preview, removing the image and
    submitting all keep every image of the state of a type that starts
    with [image/]; and in such a state the file that a submission posts is
    of such a type. *)
Theorem only_images_are_posted :
  images_only initial_app /\
  forall a, images_only a ->
    (forall files, images_only (handleImageSelect a files)) /\
    (forall dataURL, images_only (preview_loaded a dataURL)) /\
    images_only (remove_image a) /\
    (forall response,
        images_only (handleSubmit JSON_parse decode messageId a response)) /\
    (forall formData,
        submit_request (submission_of a) = Some (FormBody formData) ->
        exists f, form_get formData (lit "image") = AFile f /\
                  startsWith (file_type f) (lit "image/") = true).
Proof.
  split; [split; intros; discriminate|].
  intros a [Hsel Hlast].
  split; [|split; [|split; [|split]]].
  - intros files. unfold handleImageSelect.
    destruct files as [|file files]; [split; assumption|].
    destruct (startsWith (file_type file) (lit "image/")) eqn:E;
      [|split; assumption].
    split; cbn [app_selectedImage app_lastUploadedImage].
    + intros f [= <-]. exact E.
    + exact Hlast.
  - intros dataURL. split; assumption.
  - split; intros; discriminate.
  - intros response. split.
    + intros f. rewrite (proj1 (handleSubmit_images a response)).
      destruct (is_empty (trim (app_input a)) && _); [apply Hsel | discriminate].
    + intros f p. rewrite (proj2 (handleSubmit_images a response)).
      destruct (is_empty (trim (app_input a)) && _); [apply Hlast|].
      destruct (app_selectedImage a) as [g|] eqn:Eg; [|apply Hlast].
      destruct (app_imagePreview a) as [q|]; [|apply Hlast].
      destruct (is_empty q); [apply Hlast|].
      intros [= <- <-]. apply Hsel. reflexivity.
  - intros formData. unfold submit_request, submission_of.
    cbn [input selectedImage lastUploadedImage colorPalette].
    destruct (is_empty (trim (app_input a)) && _); [discriminate|].
    destruct (app_selectedImage a) as [g|] eqn:Eg.
    + intros [= <-]. exists g. split; [reflexivity | apply Hsel; reflexivity].
    + destruct (app_lastUploadedImage a) as [[g p]|] eqn:El; cbn [option_map fst].
      * intros [= <-]. exists g. split; [reflexivity | eapply Hlast; reflexivity].
      * discriminate.
Qed.

(** X28.  Which image the next follow-up is about.  When a new image is
    submitted after its preview has loaded, it becomes the image on record
    and the next question without selection is about it.  When it is
    submitted before its preview has loaded, the record is not updated: the
    next question is about the image on record before, or about none. *)
Theorem next_followup_image (a : app) (fresh : File) (response : fetched) :
  startsWith (file_type fresh) (lit "image/") = true ->
  (forall dataURL,
      dataURL <> [] ->
      imageToUse
        (handleSubmit JSON_parse decode messageId
           (preview_loaded (handleImageSelect a [fresh]) dataURL) response)
      = Some fresh) /\
  (app_imagePreview a = None ->
   imageToUse
     (handleSubmit JSON_parse decode messageId
        (handleImageSelect a [fresh]) response)
   = option_map fst (app_lastUploadedImage a)).
Proof.
  intros Htype. split.
  - intros dataURL Hurl. unfold imageToUse.
    destruct (handleSubmit_images
                (preview_loaded (handleImageSelect a [fresh]) dataURL) response)
      as [-> ->].
    unfold handleImageSelect, preview_loaded. rewrite Htype.
    cbn [app_selectedImage app_imagePreview app_input app_lastUploadedImage].
    rewrite andb_false_r. destruct dataURL; [congruence | reflexivity].
  - intros Hpreview. unfold imageToUse.
    destruct (handleSubmit_images (handleImageSelect a [fresh]) response)
      as [-> ->].
    unfold handleImageSelect. rewrite Htype.
    cbn [app_selectedImage app_imagePreview app_input app_lastUploadedImage].
    rewrite andb_false_r, Hpreview. reflexivity.
Qed.

End ImageFacts.

(** ** The exported picture *)

Lemma draw_colors_calls : forall colors first call,
  In call (concat (mapi draw_color first colors)) ->
  exists index c,
    (first <= index < first + length colors)%nat /\
    In call (draw_color index c) /\
    nth_error colors (index - first) = Some c.
Proof.
  induction colors as [|c colors IH]; intros first call; cbn [mapi concat].
  - intros [].
  - rewrite in_app_iff. intros [H | H].
    + exists first, c. rewrite Nat.sub_diag. simpl. repeat split; [lia | lia | exact H].
    + apply IH in H. destruct H as (index & c' & Hi & Hin & Hnth).
      exists index, c'. cbn [length]. repeat split; [lia | lia | exact Hin |].
      replace (index - first)%nat with (S (index - S first)) by lia. exact Hnth.
Qed.

(** X29.  The layout of the exported picture.  The canvas is 100 wide for
    each color and 100 high; every rectangle that is filled lies within it;
    the block of the color at index [i] is 100 wide from [100 i] and 50
    high from the top; and every text is anchored inside the canvas, under
    the blocks. *)
Theorem exportPaletteAsPNG_layout (colorPalette : list ColorInfo) :
  colorPalette <> [] ->
  exists png,
    exportPaletteAsPNG colorPalette true = Some png /\
    canvas_width png = (100 * Z.of_nat (length colorPalette))%Z /\
    canvas_height png = 100%Z /\
    (forall x y w h, In (FillRect x y w h) (calls png) ->
       within (canvas_width png) (canvas_height png) x y w h) /\
    (forall i c, nth_error colorPalette i = Some c ->
       In (FillRect (100 * Z.of_nat i) 0 100 50) (calls png)) /\
    (forall text x y, In (FillText text x y) (calls png) ->
       (0 < x < canvas_width png /\ 50 < y < canvas_height png)%Z).
Proof.
  intros Hne. destruct colorPalette as [|c0 colors] eqn:E; [congruence|].
  rewrite <- E in *. clear Hne.
  assert (Hexp : exportPaletteAsPNG colorPalette true
                 = Some (mkPng (100 * Z.of_nat (length colorPalette)) 100
                           ([SetFillStyle (lit "#fff");
                             FillRect 0 0 (100 * Z.of_nat (length colorPalette)) 100;
                             SetFont (lit "12px sans-serif");
                             SetTextAlign (lit "center")]
                            ++ concat (mapi draw_color 0 colorPalette))
                           (lit "color-palette.png")))
    by (rewrite E; reflexivity).
  eexists. split; [exact Hexp|]. cbn [canvas_width canvas_height calls].
  split; [reflexivity|]. split; [reflexivity|].
  remember (100 * Z.of_nat (length colorPalette))%Z as W eqn:HW.
  split; [|split].
  - intros x y w h Hin. apply in_app_iff in Hin. destruct Hin as [Hin | Hin].
    + cbn [In] in Hin. destruct Hin as [H|[H|[H|[H|[]]]]]; try discriminate H.
      injection H as <- <- <- <-. unfold within. lia.
    + apply draw_colors_calls in Hin. destruct Hin as (index & c & Hi & Hin & _).
      unfold draw_color in Hin. cbn [In] in Hin.
      destruct Hin as [H|[H|[H|[H|[H|[]]]]]]; try discriminate H.
      injection H as <- <- <- <-. unfold within, colorBlockWidth, colorBlockHeight. lia.
  - intros i c Hnth. apply in_app_iff. right.
    clear Hexp E. revert i Hnth.
    assert (H : forall colors first i,
               nth_error colors i = Some c ->
               In (FillRect (100 * Z.of_nat (first + i)) 0 100 50)
                  (concat (mapi draw_color first colors))).
    { induction colors0 as [|c1 colors0 IH]; intros first i Hnth.
      - destruct i; discriminate.
      - cbn [mapi concat]. apply in_app_iff. destruct i as [|i].
        + left. injection Hnth as ->. unfold draw_color. right. left.
          rewrite Nat.add_0_r. unfold colorBlockWidth, colorBlockHeight.
          f_equal. lia.
        + right. replace (first + S i)%nat with (S first + i)%nat by lia.
          apply IH. exact Hnth. }
    intros i Hnth. apply (H colorPalette 0%nat i Hnth).
  - intros text x y Hin. apply in_app_iff in Hin. destruct Hin as [Hin | Hin].
    + cbn [In] in Hin. destruct Hin as [H|[H|[H|[H|[]]]]]; discriminate H.
    + apply draw_colors_calls in Hin. destruct Hin as (index & c & Hi & Hin & _).
      unfold draw_color in Hin. cbn [In] in Hin.
      unfold colorBlockWidth, colorBlockHeight, textHeight in Hin.
      destruct Hin as [H|[H|[H|[H|[H|[]]]]]]; try discriminate H;
        injection H as _ <- <-;
        change (100 / 2)%Z with 50%Z; lia.
Qed.

Lemma draw_colors_split c : forall colors first i,
  nth_error colors i = Some c ->
  exists before after,
    concat (mapi draw_color first colors)
    = before ++ draw_color (first + i) c ++ after.
Proof.
  induction colors as [|c1 colors IH]; intros first i Hnth.
  - destruct i; discriminate.
  - cbn [mapi concat]. destruct i as [|i].
    + injection Hnth as ->. exists [], (concat (mapi draw_color (S first) colors)).
      rewrite Nat.add_0_r. reflexivity.
    + destruct (IH (S first) i Hnth) as (before & after & E).
      exists (draw_color first c1 ++ before), after.
      rewrite E, <- app_assoc.
      replace (first + S i)%nat with (S first + i)%nat by lia. reflexivity.
Qed.

(** X30.  The labels of a dark color are written white on white in the
    exported picture.  The canvas is first filled with ["#fff"]; the name and the
    hex code of a color are written under its block, at heights 65 and 80
    below the 50 of the block, in the contrast color of the block; so for a
    six-digit color whose luma is under 128 they are written in ["#fff"] on
    the ["#fff"] background. *)
Theorem exportPaletteAsPNG_dark_labels (colorPalette : list ColorInfo)
    (i : nat) (c : ColorInfo) (d1 d2 d3 d4 d5 d6 : N) :
  nth_error colorPalette i = Some c ->
  hex c = lit "#" ++ [d1; d2; d3; d4; d5; d6] ->
  Forall (fun d => is_hex_digit d = true) [d1; d2; d3; d4; d5; d6] ->
  (299 * byte_value d1 d2 + 587 * byte_value d3 d4 + 114 * byte_value d5 d6
   < 128000)%Z ->
  exists png before after,
    exportPaletteAsPNG colorPalette true = Some png /\
    calls png =
    [SetFillStyle (lit "#fff");
     FillRect 0 0 (canvas_width png) (canvas_height png)]
    ++ before
    ++ [SetFillStyle (hex c);
        FillRect (100 * Z.of_nat i) 0 100 50;
        SetFillStyle (lit "#fff");
        FillText (name c) (100 * Z.of_nat i + 50) 65;
        FillText (hex c) (100 * Z.of_nat i + 50) 80]
    ++ after.
Proof.
  intros Hnth Hhex Hdigits Hluma.
  assert (Hcontrast : getContrastYIQ (hex c) = lit "#fff").
  { rewrite Hhex.
    rewrite (getContrastYIQ_by_bytes _ _ _ _ _ _ Hdigits
               (lit "#" ++ [d1; d2; d3; d4; d5; d6]) eq_refl).
    rewrite contrast_for_threshold.
    destruct (Z.leb_spec 128000
                (299 * byte_value d1 d2 + 587 * byte_value d3 d4
                 + 114 * byte_value d5 d6)); [lia | reflexivity]. }
  destruct (draw_colors_split c colorPalette 0%nat i Hnth) as (before & after & E).
  assert (Hexp : exportPaletteAsPNG colorPalette true
                 = Some (mkPng (100 * Z.of_nat (length colorPalette)) 100
                           ([SetFillStyle (lit "#fff");
                             FillRect 0 0 (100 * Z.of_nat (length colorPalette)) 100;
                             SetFont (lit "12px sans-serif");
                             SetTextAlign (lit "center")]
                            ++ concat (mapi draw_color 0 colorPalette))
                           (lit "color-palette.png"))).
  { destruct colorPalette as [|c0 colors]; [destruct i; discriminate | reflexivity]. }
  eexists.
  exists ([SetFont (lit "12px sans-serif"); SetTextAlign (lit "center")] ++ before), after.
  split; [exact Hexp|].
  cbn [calls canvas_width canvas_height]. rewrite E.
  unfold draw_color. rewrite Hcontrast. cbn [Nat.add].
  unfold colorBlockWidth, colorBlockHeight, textHeight.
  change (100 / 2)%Z with 50%Z. change (50 + 15)%Z with 65%Z.
  change (50 + 15 * 2)%Z with 80%Z.
  replace (Z.of_nat i * 100)%Z with (100 * Z.of_nat i)%Z by lia.
  cbn [List.app]. reflexivity.
Qed.

(* ================================================================== *)
(** * The further properties at work on sample data *)
(* ================================================================== *)

Lemma sample_description_plain :
  Forall (fun c => is_digit c = false) sample_description.
Proof. repeat constructor. Defined.

Lemma sample_description_no_marker :
  ~ occurs (lit "Main Colors:") sample_description.
Proof.
  intros (before & after & E).
  assert (Hlen : length sample_description
                 = (length before + (12 + length after))%nat).
  { rewrite E, !length_app. reflexivity. }
  destruct before as [|b0 before]; [discriminate E|].
  destruct before as [|b1 before]; [discriminate E|].
  destruct before as [|b2 before]; [discriminate E|].
  destruct before as [|b3 before]; [discriminate E|].
  cbn in Hlen. lia.
Defined.

Lemma sample_colors_prescribed : Forall prescribed [sample_red; sample_sky].
Proof.
  exact (Forall_cons _ sample_red_prescribed
           (Forall_cons _ sample_sky_prescribed (Forall_nil _))).
Defined.

Lemma parseColorInfo_names_clean_witness :
  In sample_sky (parseColorInfo (render_palette [sample_red; sample_sky])) /\
  trim (name sample_sky) = name sample_sky /\
  Forall (fun x => x <> 44%N) (name sample_sky).
Proof.
  assert (H : In sample_sky (parseColorInfo (render_palette [sample_red; sample_sky])))
    by (right; left; reflexivity).
  split; [exact H|].
  exact (parseColorInfo_names_clean _ _ H).
Defined.

Lemma parseColorInfo_skips_text_without_digits_witness :
  Forall (fun c => is_digit c = false) sample_description /\
  parseColorInfo sample_description = [] /\
  parseColorInfo (sample_description ++ render_palette [sample_red])
  = parseColorInfo (render_palette [sample_red]).
Proof.
  split; [exact sample_description_plain|].
  exact (parseColorInfo_skips_text_without_digits sample_description
           (render_palette [sample_red]) sample_description_plain).
Defined.

Lemma stripMainColorsSection_settles_witness :
  occurs (lit "Main Colors:") (lit "A barn. Main Colors:") /\
  stripMainColorsSection (lit "A barn. Main Colors:" ++ lit " 1. Name: Red")
  = stripMainColorsSection (lit "A barn. Main Colors:").
Proof.
  assert (H : occurs (lit "Main Colors:") (lit "A barn. Main Colors:")).
  { exists (lit "A barn. "), []. reflexivity. }
  split; [exact H|].
  exact (stripMainColorsSection_settles _ (lit " 1. Name: Red") H).
Defined.

Lemma full_response_split_witness :
  let text := sample_description ++ [10; 10]%N ++ lit "Main Colors:" ++ [10%N]
              ++ render_palette [sample_red; sample_sky] in
  ~ occurs (lit "Main Colors:") sample_description /\
  stripMainColorsSection text = lit "A barn at dusk." /\
  parseColorInfo text = [sample_red; sample_sky].
Proof.
  cbv zeta.
  split; [exact sample_description_no_marker|].
  exact (full_response_split sample_description [sample_red; sample_sky]
           sample_description_no_marker sample_description_plain
           sample_colors_prescribed).
Defined.

Lemma getContrastYIQ_monotone_witness :
  getContrastYIQ (lit "#808080") = lit "#222" /\
  getContrastYIQ (lit "#87CEEB") = lit "#222".
Proof.
  assert (H1 : Forall (fun d => is_hex_digit d = true) (lit "808080"))
    by (repeat constructor).
  assert (H2 : Forall (fun d => is_hex_digit d = true) (lit "87CEEB"))
    by (repeat constructor).
  assert (H : getContrastYIQ (lit "#808080") = lit "#222") by reflexivity.
  split; [exact H|].
  refine (getContrastYIQ_monotone _ _ _ _ _ _ _ _ _ _ _ _ H1 H2 _ _ _ H);
    vm_compute; discriminate.
Defined.

Lemma getContrastYIQ_too_short_witness :
  length (replace (lit "#ab") (lit "#") []) = 2%nat /\
  getContrastYIQ (lit "#ab") = lit "#fff".
Proof.
  split; [reflexivity|].
  apply getContrastYIQ_too_short.
  - vm_compute. lia.
  - vm_compute. discriminate.
Defined.

Lemma parsed_color_contrast_witness :
  In sample_moss (parseColorInfo (render_palette [sample_moss])) /\
  exists d1 d2 d3 d4 d5 d6,
    hex sample_moss = lit "#" ++ [d1; d2; d3; d4; d5; d6] /\
    getContrastYIQ (hex sample_moss)
    = if (128000 <=? 299 * byte_value d1 d2 + 587 * byte_value d3 d4
                     + 114 * byte_value d5 d6)%Z
      then lit "#222" else lit "#fff".
Proof.
  assert (H : In sample_moss (parseColorInfo (render_palette [sample_moss])))
    by (left; reflexivity).
  split; [exact H|].
  exact (parsed_color_contrast _ _ H).
Defined.

Lemma stream_end_to_end_witness :
  let encode := fun s : jsstring => s in
  let decode := fun b : list N => b in
  let groups := [[sample_chunk1]; [sample_chunk2]] in
  accumulatedText
    (read_stream sample_event_parse decode (lit "17") NewImage (mkReading [] [] [])
       (map (fun texts => concat (map (sse_event encode) texts)) groups))
  = sample_chunk1 ++ sample_chunk2.
Proof.
  cbv zeta.
  refine (eq_trans
            (stream_end_to_end sample_event_parse (fun s => s) (fun b => b)
               (lit "17") NewImage (mkReading [] [] [])
               [[sample_chunk1]; [sample_chunk2]] _ _) _).
  - repeat (apply Forall_cons; [reflexivity|]). apply Forall_nil.
  - repeat (apply Forall_cons; [vm_compute; reflexivity|]). apply Forall_nil.
  - cbn [accumulatedText concat List.app]. rewrite !app_nil_r. reflexivity.
Defined.

Lemma followup_exchange_witness :
  let s := mkSubmission (lit " What is the darkest color? ") None
             (Some (sample_image, sample_preview)) [sample_red] in
  let parse := parse_known [Arr [color_value sample_red]] in
  trim (input s) <> [] /\
  one_line (trim (input s)) /\
  parse (stringify (Arr (map color_value (colorPalette s))))
  = Ok (Arr (map color_value (colorPalette s))) /\
  exists formData,
    submit_request s = Some (FormBody formData) /\
    POST parse (fun b => b) NotAnError (Some (lit "secret")) (sample_form formData)
    = mkOutcome EventStream
        (Some (Ok (PromptAndImage
                     (followup_prompt (lit "What is the darkest color?")
                        ([10%N]
                         ++ lit "Current color palette from previous analysis:"
                         ++ [10%N]
                         ++ lit "1. Name: Red, Hex: #FF0000, RGB: (255, 0, 0)"
                         ++ [10%N]))
                     (file_type sample_image) (file_bytes sample_image)))).
Proof.
  cbv zeta.
  assert (Hq : trim (lit " What is the darkest color? ") <> [])
    by (vm_compute; discriminate).
  assert (Hparse : parse_known [Arr [color_value sample_red]]
                     (stringify (Arr (map color_value [sample_red])))
                   = Ok (Arr (map color_value [sample_red])))
    by (vm_compute; reflexivity).
  assert (Hline : one_line (trim (lit " What is the darkest color? "))).
  { unfold one_line.
    repeat (apply Forall_cons; [split; discriminate|]). apply Forall_nil. }
  split; [exact Hq|]. split; [exact Hline|]. split; [exact Hparse|].
  refine (followup_exchange (parse_known [Arr [color_value sample_red]])
            (fun b => b) NotAnError
            (mkSubmission (lit " What is the darkest color? ") None
               (Some (sample_image, sample_preview)) [sample_red])
            sample_image sample_preview (lit "secret")
            (lit "multipart/form-data; boundary=x") (Throw NotAnError)
            eq_refl eq_refl Hq Hline _ _ (fun _ => Hparse)).
  - vm_compute. discriminate.
  - vm_compute. reflexivity.
Defined.

Lemma response_message_and_palette_witness :
  let values :=
    [lit "data: " ++ stringify (Obj [(lit "text", Str (lit " It is "))]) ++ [10; 10]%N;
     lit "data: " ++ stringify (Obj [(lit "text", Str (lit "red. "))]) ++ [10; 10]%N] in
  let st := read_stream sample_parse (fun b => b) (lit "17") TextOnly
              (mkReading [] [] [sample_red]) values in
  TextOnly <> NewImage /\
  palette st = [sample_red] /\
  exists msg, In msg (messages st) /\ msg_id msg = lit "17-response" /\
              msg_content msg = trim (accumulatedText st).
Proof.
  cbv zeta.
  assert (Hf : TextOnly <> NewImage) by discriminate.
  split; [exact Hf|].
  destruct (response_message_and_palette sample_parse (fun b => b) (lit "17")
              TextOnly (mkReading [] [] [sample_red])
              [lit "data: " ++ stringify (Obj [(lit "text", Str (lit " It is "))]) ++ [10; 10]%N;
               lit "data: " ++ stringify (Obj [(lit "text", Str (lit "red. "))]) ++ [10; 10]%N]
              Hf) as (Hpal & Hshow).
  split; [exact (Hpal eq_refl)|].
  destruct (Hshow eq_refl) as ((msg & Hin & Hid) & Hcontent).
  exists msg. split; [exact Hin|]. split; [exact Hid|].
  exact (Hcontent msg Hin Hid).
Defined.

Lemma palette_stays_without_colors_witness :
  let values :=
    [lit "data: " ++ stringify (Obj [(lit "text", Str (lit "A barn at dusk."))])
       ++ [10; 10]%N] in
  Forall (fun data => Forall (fun c => is_digit c = false) (appended data))
         (parsed_lines sample_parse (fun b => b) values) /\
  palette (read_stream sample_parse (fun b => b) (lit "17") NewImage
             (mkReading [] [] [sample_red]) values)
  = [sample_red].
Proof.
  cbv zeta.
  assert (H : Forall (fun data => Forall (fun c => is_digit c = false) (appended data))
                (parsed_lines sample_parse (fun b => b)
                   [lit "data: "
                    ++ stringify (Obj [(lit "text", Str (lit "A barn at dusk."))])
                    ++ [10; 10]%N])).
  { apply Forall_cons; [|apply Forall_nil]. repeat constructor. }
  split; [exact H|].
  exact (palette_stays_without_colors sample_parse (fun b => b) (lit "17")
           NewImage [] [sample_red] _ H).
Defined.

Lemma POST_unknown_mode_witness :
  let parse := fun _ : jsstring => @Throw value NotAnError in
  POST parse (fun b => b) NotAnError (Some (lit "secret"))
    (sample_form [(lit "image", EFile sample_image);
                  (lit "mode", EString (lit "colors"))])
  = mkOutcome EventStream
      (Some (Ok (PromptAndImage [] (lit "image/png") [137; 80; 78; 71]%N))).
Proof.
  cbv zeta.
  refine (POST_unknown_mode (fun _ => Throw NotAnError) (fun b => b) NotAnError
            (lit "secret")
            (sample_form [(lit "image", EFile sample_image);
                          (lit "mode", EString (lit "colors"))])
            sample_image (Val (Str (lit "colors"))) (Val Null) (Val Null)
            _ eq_refl eq_refl eq_refl eq_refl).
  vm_compute. discriminate.
Defined.

Lemma POST_followup_bad_palette_witness :
  let parse := fun _ : jsstring => @Throw value (new_Error (lit "Unexpected token")) in
  POST parse (fun b => b) NotAnError (Some (lit "secret"))
    (sample_form [(lit "image", EFile sample_image);
                  (lit "mode", EString (lit "followup"));
                  (lit "question", EString (lit "Why?"));
                  (lit "currentPalette", EString (lit "[{"))])
  = mkOutcome (error_response (new_Error (lit "Unexpected token"))) None.
Proof.
  cbv zeta.
  refine (POST_followup_bad_palette
            (fun _ => Throw (new_Error (lit "Unexpected token")))
            (fun b => b) NotAnError (lit "secret")
            (sample_form [(lit "image", EFile sample_image);
                          (lit "mode", EString (lit "followup"));
                          (lit "question", EString (lit "Why?"));
                          (lit "currentPalette", EString (lit "[{"))])
            (AFile sample_image) (Val (Str (lit "Why?"))) (Val (Str (lit "[{")))
            (lit "[{") (new_Error (lit "Unexpected token"))
            _ eq_refl eq_refl eq_refl eq_refl eq_refl).
  vm_compute. discriminate.
Defined.

Lemma POST_image_not_a_file_witness :
  let parse := fun _ : jsstring => @Throw value NotAnError in
  let req := sample_form [(lit "image", EString (lit "photo.png"));
                          (lit "mode", EString (lit "full"))] in
  POST parse (fun b => b) NotAnError (Some (lit "secret")) req
  = mkOutcome EventStream (Some (Throw NotAnError)) /\
  relay (fun s => s) (fun _ => Ok (mkStream [] (Ok tt))) (Throw NotAnError)
  = mkWriter [] (Aborted NotAnError).
Proof.
  cbv zeta.
  assert (Hkey : lit "secret" <> []) by (vm_compute; discriminate).
  assert (Hs : lit "photo.png" <> []) by (vm_compute; discriminate).
  destruct (POST_image_not_a_file (fun _ => Throw NotAnError) (fun s => s)
              (fun b => b) NotAnError (lit "secret")
              (sample_form [(lit "image", EString (lit "photo.png"));
                            (lit "mode", EString (lit "full"))])
              (lit "photo.png") (Val (Str (lit "full"))) (Val Null) (Val Null)
              full_prompt Hkey eq_refl Hs eq_refl eq_refl) as [Hpost Hrelay].
  split; [exact Hpost|].
  exact (Hrelay (fun _ => Ok (mkStream [] (Ok tt)))).
Defined.

Lemma text_only_end_to_end_witness :
  let s := mkSubmission (lit " What is teal? ") None None [] in
  let parse := parse_known [Obj [(lit "question", Str (lit "What is teal?"));
                                 (lit "mode", Str (lit "text-only"))]] in
  trim (input s) <> [] /\
  exists body,
    submit_request s = Some (JsonBody body) /\
    POST parse (fun b => b) NotAnError (Some (lit "secret"))
      (mkRequest (Some (lit "application/json")) (Throw NotAnError) (parse body))
    = mkOutcome EventStream
        (Some (Ok (PromptOnly
                     (lit "You are a helpful AI assistant. Please provide a clear and concise response to the following question: "
                      ++ trim (input s))))).
Proof.
  cbv zeta.
  assert (Hq : trim (lit " What is teal? ") <> []) by (vm_compute; discriminate).
  split; [exact Hq|].
  refine (text_only_end_to_end
            (parse_known [Obj [(lit "question", Str (lit "What is teal?"));
                               (lit "mode", Str (lit "text-only"))]])
            (fun b => b) NotAnError
            (mkSubmission (lit " What is teal? ") None None [])
            (lit "secret") (Throw NotAnError) eq_refl eq_refl Hq _ _).
  - vm_compute. discriminate.
  - vm_compute. reflexivity.
Defined.

Lemma new_image_end_to_end_witness :
  let s := mkSubmission (lit "look") (Some sample_image) None [sample_red] in
  let parse := fun _ : jsstring => @Throw value NotAnError in
  exists formData,
    submit_request s = Some (FormBody formData) /\
    form_get formData (lit "currentPalette") = Val Null /\
    POST parse (fun b => b) NotAnError (Some (lit "secret")) (sample_form formData)
    = mkOutcome EventStream
        (Some (Ok (PromptAndImage full_prompt (lit "image/png")
                     [137; 80; 78; 71]%N))).
Proof.
  cbv zeta.
  refine (new_image_end_to_end (fun _ => Throw NotAnError) (fun b => b) NotAnError
            (mkSubmission (lit "look") (Some sample_image) None [sample_red])
            sample_image (lit "secret") (lit "multipart/form-data; boundary=x")
            (Throw NotAnError) eq_refl _ _).
  - vm_compute. discriminate.
  - vm_compute. reflexivity.
Defined.

Lemma POST_versions_agree_witness :
  let parse := fun _ : jsstring => @Throw value NotAnError in
  let encode := fun s : jsstring => s in
  let req := sample_form [(lit "image", EFile sample_image);
                          (lit "mode", EString (lit "full"))] in
  let model := fun _ : model_input =>
    @Throw model_stream (new_Error (lit "quota exceeded")) in
  POST parse (fun b => b) NotAnError (Some (lit "secret")) req
  = mkOutcome EventStream
      (Some (Ok (PromptAndImage full_prompt (lit "image/png") [137; 80; 78; 71]%N))) /\
  POST_v1 encode (fun b => b) NotAnError (Some (lit "secret")) req model
  = mkOutcome1 (error_response (new_Error (lit "quota exceeded"))) None /\
  relay encode model
    (Ok (PromptAndImage full_prompt (lit "image/png") [137; 80; 78; 71]%N))
  = mkWriter [] (Aborted (new_Error (lit "quota exceeded"))).
Proof.
  cbv zeta.
  assert (Hkey : lit "secret" <> []) by (vm_compute; discriminate).
  destruct (POST_versions_agree (fun _ => Throw NotAnError) (fun s => s)
              (fun b => b) NotAnError (lit "secret")
              (lit "multipart/form-data; boundary=x")
              [(lit "image", EFile sample_image);
               (lit "mode", EString (lit "full"))]
              (Throw NotAnError) sample_image
              (fun _ => Throw (new_Error (lit "quota exceeded")))
              Hkey eq_refl eq_refl eq_refl) as (Hpost & _ & Hthrow).
  split; [exact Hpost|].
  exact (Hthrow (new_Error (lit "quota exceeded")) eq_refl).
Defined.

Lemma read_timed_timeout_witness :
  let early := [(120, lit "data: " ++ stringify (Obj [(lit "text", Str (lit "Sky"))])
                        ++ [10; 10]%N)]%Z in
  in_time early /\
  read_timed sample_parse (fun b => b) (lit "17") NewImage (mkReading [] [] [])
    (early ++ [(10001%Z, lit "data: late"); (5%Z, lit "data: later")])
    (Done 3)
  = (read_stream sample_parse (fun b => b) (lit "17") NewImage
       (mkReading [] [] []) (map snd early),
     Some (new_Error (lit "Stream timeout: No data received for 10 seconds"))) /\
  read_timed sample_parse (fun b => b) (lit "17") NewImage (mkReading [] [] [])
    early (Done 10001)
  = (read_stream sample_parse (fun b => b) (lit "17") NewImage
       (mkReading [] [] []) (map snd early),
     Some (new_Error (lit "Stream timeout: No data received for 10 seconds"))).
Proof.
  cbv zeta.
  assert (Hin : in_time
                  [(120%Z, lit "data: "
                           ++ stringify (Obj [(lit "text", Str (lit "Sky"))])
                           ++ [10; 10]%N)]).
  { apply Forall_cons; [|apply Forall_nil]. vm_compute. discriminate. }
  assert (Hlate : (CHUNK_TIMEOUT < 10001)%Z) by reflexivity.
  split; [exact Hin|].
  destruct (read_timed_timeout sample_parse (fun b => b) (lit "17") NewImage
              (mkReading [] [] []) _ 10001%Z Hin Hlate) as [Hread Hdone].
  split; [|exact Hdone].
  exact (Hread (lit "data: late") [(5%Z, lit "data: later")] (Done 3)).
Defined.

Lemma handleSubmit_isLoading_witness :
  goes_through sample_app /\
  app_isLoading (handleSubmit sample_event_parse (fun b => b) (lit "17")
                   sample_app (NotOk 500)) = true /\
  app_isLoading (handleSubmit sample_event_parse (fun b => b) (lit "17")
                   sample_app (Body [] (Done 0))) = false.
Proof.
  assert (H : goes_through sample_app) by (right; discriminate).
  split; [exact H|]. split.
  - exact (handleSubmit_isLoading sample_event_parse (fun b => b) (lit "17")
             sample_app (NotOk 500) H).
  - exact (handleSubmit_isLoading sample_event_parse (fun b => b) (lit "17")
             sample_app (Body [] (Done 0)) H).
Defined.

Lemma new_image_failure_clears_palette_witness :
  let response :=
    Body [(120%Z, sse_event (fun s => s) sample_chunk1)] (Done 80) in
  app_colorPalette (handleSubmit sample_event_parse (fun b => b) (lit "17")
                      sample_app response) = [sample_red] /\
  exists reads elapsed,
    response = Body reads (Done elapsed) /\
    in_time reads /\ (elapsed <= CHUNK_TIMEOUT)%Z.
Proof.
  cbv zeta.
  split; [vm_compute; reflexivity|].
  refine (new_image_failure_clears_palette sample_event_parse (fun b => b)
            (lit "17") sample_app sample_image
            (Body [(120%Z, sse_event (fun s => s) sample_chunk1)] (Done 80))
            eq_refl _).
  vm_compute. discriminate.
Defined.

Lemma handleSubmit_silent_failures_witness :
  let a := mkApp [] false [] false (lit "What is teal?") None None None in
  goes_through a /\
  app_messages (handleSubmit sample_event_parse (fun b => b) (lit "17") a NoBody)
  = [mkMessage (lit "17") user (lit "What is teal?") None] /\
  app_messages (handleSubmit sample_event_parse (fun b => b) (lit "17") a
                  (Body [] (ReadFails NotAnError)))
  = app_messages (handleSubmit sample_event_parse (fun b => b) (lit "17") a
                    (Body [] (Done 0))).
Proof.
  cbv zeta.
  assert (H : goes_through (mkApp [] false [] false (lit "What is teal?")
                              None None None)).
  { left. vm_compute. discriminate. }
  split; [exact H|].
  destruct (handleSubmit_silent_failures sample_event_parse (fun b => b)
              (lit "17") _ H) as [Hnobody Hread].
  split.
  - exact Hnobody.
  - exact (Hread eq_refl [] NotAnError 0%Z).
Defined.

Lemma new_image_exchange_witness :
  let arrivals := [(120%Z, [sample_chunk1]); (80%Z, [sample_chunk2])] in
  let reads := map (fun r : Z * list jsstring =>
                      (fst r, concat (map (sse_event (fun s => s)) (snd r))))
                   arrivals in
  let a' := handleSubmit sample_event_parse (fun b => b) (lit "17") sample_app
              (Body reads (Done 40)) in
  concat (concat (map snd arrivals))
  = sample_description ++ [10; 10]%N ++ lit "Main Colors:" ++ [10%N]
    ++ render_palette [sample_red; sample_sky] /\
  app_colorPalette a' = [sample_red; sample_sky] /\
  app_isLoading a' = false /\
  exists before,
    app_messages a'
    = before ++ [mkMessage (lit "17-colors") assistant
                   (lit "Here are the main colors from your image:") None] /\
    (exists msg, In msg before /\ msg_id msg = lit "17-analysis") /\
    (forall msg, In msg before -> msg_id msg = lit "17-analysis" ->
                 msg_content msg = lit "A barn at dusk.").
Proof.
  cbv zeta.
  assert (Htext : concat (concat (map snd [(120%Z, [sample_chunk1]);
                                            (80%Z, [sample_chunk2])]))
                  = sample_description ++ [10; 10]%N ++ lit "Main Colors:" ++ [10%N]
                    ++ render_palette [sample_red; sample_sky])
    by (vm_compute; reflexivity).
  split; [exact Htext|].
  refine (new_image_exchange sample_event_parse (fun s => s) (fun b => b)
            (lit "17") sample_app sample_image
            [(120%Z, [sample_chunk1]); (80%Z, [sample_chunk2])] 40%Z
            sample_description [sample_red; sample_sky]
            eq_refl _ _ _ _ Htext sample_description_no_marker
            sample_description_plain sample_colors_prescribed _).
  - repeat (apply Forall_cons; [vm_compute; discriminate|]). apply Forall_nil.
  - vm_compute. discriminate.
  - repeat (apply Forall_cons; [reflexivity|]). apply Forall_nil.
  - repeat (apply Forall_cons; [vm_compute; reflexivity|]). apply Forall_nil.
  - discriminate.
Defined.

Lemma next_followup_image_witness :
  let fresh := mkFile (lit "barn.jpg") (lit "image/jpeg") [255; 216]%N in
  let a := mkApp [] false [sample_red] false (lit "And this?") None None
             (Some (sample_image, sample_preview)) in
  startsWith (file_type fresh) (lit "image/") = true /\
  imageToUse (handleSubmit sample_event_parse (fun b => b) (lit "18")
                (preview_loaded (handleImageSelect a [fresh])
                   (lit "data:image/jpeg;base64,/9g="))
                (NotOk 500))
  = Some fresh /\
  imageToUse (handleSubmit sample_event_parse (fun b => b) (lit "18")
                (handleImageSelect a [fresh]) (NotOk 500))
  = Some sample_image.
Proof.
  cbv zeta.
  destruct (next_followup_image sample_event_parse (fun b => b) (lit "18")
              (mkApp [] false [sample_red] false (lit "And this?") None None
                 (Some (sample_image, sample_preview)))
              (mkFile (lit "barn.jpg") (lit "image/jpeg") [255; 216]%N)
              (NotOk 500) eq_refl) as [Hloaded Hnot].
  split; [reflexivity|]. split.
  - apply Hloaded. vm_compute. discriminate.
  - exact (Hnot eq_refl).
Defined.

Lemma exportPaletteAsPNG_layout_witness :
  exists png,
    exportPaletteAsPNG [sample_red; sample_sky] true = Some png /\
    canvas_width png = 200%Z /\ canvas_height png = 100%Z /\
    In (FillRect 100 0 100 50) (calls png).
Proof.
  assert (H : [sample_red; sample_sky] <> []) by discriminate.
  destruct (exportPaletteAsPNG_layout [sample_red; sample_sky] H)
    as (png & Hpng & Hw & Hh & _ & Hblocks & _).
  exists png. split; [exact Hpng|]. split; [exact Hw|]. split; [exact Hh|].
  exact (Hblocks 1%nat sample_sky eq_refl).
Defined.

Lemma exportPaletteAsPNG_dark_labels_witness :
  (299 * byte_value 52 65 + 587 * byte_value 53 68 + 114 * byte_value 50 51
   < 128000)%Z /\
  exists png before after,
    exportPaletteAsPNG [sample_red; sample_moss] true = Some png /\
    calls png
    = [SetFillStyle (lit "#fff");
       FillRect 0 0 (canvas_width png) (canvas_height png)]
      ++ before
      ++ [SetFillStyle (lit "#4A5D23"); FillRect 100 0 100 50;
          SetFillStyle (lit "#fff");
          FillText (lit "Moss Green") 150 65; FillText (lit "#4A5D23") 150 80]
      ++ after.
Proof.
  assert (Hdark : (299 * byte_value 52 65 + 587 * byte_value 53 68
                   + 114 * byte_value 50 51 < 128000)%Z) by reflexivity.
  split; [exact Hdark|].
  refine (exportPaletteAsPNG_dark_labels [sample_red; sample_moss] 1%nat
            sample_moss 52 65 53 68 50 51 eq_refl eq_refl _ Hdark).
  repeat constructor.
Defined.
